(* ===== verification/_CoqProject ===== *)
-Q . S2P
Prelude.v
PyStr.v
Chunker.v
Paths.v
Client.v
Store.v
Fingerprint.v
Engine.v
Locality.v
Dispatcher.v
Schema.v
Liveness.v
Scanner.v
Main.v
Watcher.v
Stats.v
