(* ===== verification/Prelude.v ===== *)
(** * CodeVectorSync: a verification development of the incremental
      source-tree indexer [src/ingest.py] and its maintenance scripts

    ** The program

    [src/ingest.py] keeps a vector-search collection (ChromaDB) in step
    with a tree of source files.  Its parts, and how they interact:

    - Configuration (lines 15-34): the roots to watch, the included
      extensions, the excluded directory names, the ledger file name,
      the server's URL [CHROMADB_HOST] and default port.
    - Vector-store client: [urlparse(CHROMADB_HOST)] gives the host and
      port of [chromadb.HttpClient] (lines 55-62), then the collection's
      [add], [delete] and [get].
    - Content fingerprint: [os.path.getmtime] and [calculate_file_hash]
      (lines 164-174, MD5 streamed in 8 KiB blocks; "" on error).
    - Chunker: [chunk_text] (lines 137-149), a [while] loop cutting the
      whitespace-separated words into windows of [chunk_size] words that
      advance by [chunk_size - chunk_overlap].
    - Metadata: [get_file_language] (106-119), [get_project_name]
      (121-135), both through [os.path].
    - Change ledger: the global dict [processed_files_state] (line 38)
      mapping a path to {"mtime", "hash"}; loaded in
      [initialize_components] (75-82), written by
      [save_processed_files_state] (86-93).
    - Sync engine: [process_file] (176-250) and
      [remove_deleted_file_from_chroma] (252-264), which call the
      embedding model ([get_embedding], 95-104) and the collection
      ([delete(where=...)], [add(...)]) and update the ledger.
    - Event dispatcher: [CodeChangeHandler] (266-286), one handler per
      watchdog event kind, each followed by a ledger save.
    - Bulk scanner: [initial_ingestion_and_start_watching] (288-333),
      an [os.walk] over the roots followed by [process_file] calls.
    - Watcher main loop (335-353): the observer scheduled on the roots
      and started, the main thread sleeping until [KeyboardInterrupt],
      then [observer.stop()], [observer.join()] and a last save; the
      observer thread hands queued events to [CodeChangeHandler].
    - Maintenance: [src/stats.py] (per-project counts of the
      collection's metadata) and [src/clear.py] (drop the collection).

    ** The library

    One file per component, in dependency order:

    - [Prelude] (this file): the monad [st S E A] of computations over a
      state [S] that return a value or raise a Python exception of type
      [E] (keeping the state reached), [st_try] for [try]/[except];
      Python's list slice [l.[a : b]] with negative indices and
      clamping; the hint database [vsync]; the shared lemmas.
    - [PyStr]: the [str] operations used, on byte strings:
      [split()] on ASCII whitespace, [split(sep)], [join], [lower],
      [startswith], [endswith], [rfind], [str(n)].
    - [Chunker]: [chunk_text] as the loop [chunk_loop] with fuel;
      [chunk_text] runs it with one more unit of fuel than there are
      words, which [chunk_text_total] proves enough whenever
      [chunk_size > chunk_overlap] (each turn moves the start index
      forward by at least one word).  [chunk_text_windows] shows the
      chunks are the spec's windows, [chunk_text_resplit] that each
      chunk re-splits to its window, and [chunk_text_diverges] that with
      [chunk_overlap >= chunk_size] no fuel at all suffices.
    - [Paths]: the configuration as a record [Config] ([ingest_config]
      has the source's values); [posixpath]'s [normpath], [abspath],
      [relpath], [join], [splitext] after CPython; [get_file_language],
      [get_project_name] and the two filters of [process_file];
      [included_file_has_language].
    - [Client]: the client's connection parameters: [urlparse]'s
      [urlsplit], [hostname] and [port] after CPython's
      [urllib/parse.py] on ASCII strings ([connect_target]).  Theorems:
      the round trip of [scheme://host:port/path], the exact condition
      of the port's [ValueError], and a [host:port] without scheme
      yielding no host and the default port.
    - [Store]: the collection as the class [Collection] (records, [add],
      delete by [file_path]) with its laws [CollectionLaws], stated up to
      permutation; [list_collection] implements them; [coll_equiv] and
      its [Proper] instances for setoid rewriting.
    - [Fingerprint]: [calculate_file_hash] with its loop of 8192-byte
      reads ([read_loop], by well-founded recursion with Equations) over
      the file's bytes, and hashlib's MD5 written after RFC 1321 on
      32-bit words as [Z] with the wrap-around written out
      ([md5_rfc1321_suite] checks it on the RFC's test suite by
      computation).  Theorems: reading in pieces gives the digest of the
      whole file, the reads' bounds, the 32-hex-digit format of every
      digest, and [""] exactly when the file cannot be opened.
    - [Engine]: the globals and the environment as the record [Sys]
      (model loaded, collection, ledger, files on disk, the model's
      answers, a script of store faults, [uuid4()] and clock, the calls
      made, the saved ledger); [process_file], its body and ingestion
      part, [remove_deleted_file_from_chroma] and
      [save_processed_files_state] as [st] computations, each store call
      consuming one entry of the fault script (success, failure before
      the call takes effect, failure after).  [pf_result] is the
      engine's behaviour under a reliable store as a function, the form
      the proofs compute with.  Theorems: convergence of a re-ingestion
      ([process_file_converges]), idempotence, the consistency invariant
      [sync_inv] (every record belongs to a tracked path; no two records
      of a path share a [chunk_id]) preserved by [process_file] and by
      the removal, the removal's contract and its failure paths
      ([remove_failure_keeps_entry]), and the error paths the spec leaves
      open, among them an add reported as failed after it took effect
      ([process_file_lost_ack]: for any state, file and batch, the next
      run stores each chunk twice).
    - [Locality]: both engine operations on a path [p] leave every other
      path's ledger entry and records alone, whatever the store answers
      ([frame], [untouched]).
    - [Schema]: the shape of what the engine writes ([record_wf]: id
      [f"{file_path}_{i}_{uuid}"], non-empty embedding, derived
      metadata; [entry_wf]: a hex digest), preserved in every state of
      the watcher whatever the store answers ([watcher_schema]).
    - [Liveness]: [eventually], existential reachability of
      [watch_step]; with a reliable store one [modified] event per file
      leads to a state where every indexable file is tracked with its
      current fingerprint ([watcher_eventually_synced]).
    - [Dispatcher]: watchdog events as [Event], the four handlers of
      [CodeChangeHandler] and watchdog's [dispatch]; the running watcher
      as the step relation [watch_step] (an event is handled, or the disk
      changes) and its reachable states.  Theorems: the invariant in
      every reachable state ([watcher_inv], by induction on the
      reachability derivation), locality per event, ledger persistence
      after each file event, moves, in-order handling of an event list.
    - [Scanner]: [initialize_components] over the outcomes [InitEnv]
      of its three steps; [os.walk] over a rose tree [Entry] with the
      pruning of [dirnames] ([walk_prunes]: pruning is a filter of the
      unpruned walk); the per-file loop [scan_file], the loop
      [scan_files] and [initial_ingestion].  Theorems: the invariant
      across the scan, start-up failure, and two divergences from the
      spec (files deleted while down are never removed; a crash after
      any number of scanned files restarts from the ledger of before
      the scan while the collection keeps what the scan added,
      [scan_crash_forgets_ingested]; [restart] is the new process).
    - [Main]: [initial_ingestion_and_start_watching] as a whole: start-up
      and scan, the events the observer delivers until the interrupt,
      the final save.  Theorems: the invariant and the saved ledger when
      the program stops.
    - [Watcher]: the two threads of lines 335-353 as the step relation
      [thread_lstep] on [Threads] (main thread's control point, the
      observer's queue, stop flag and liveness), interleaved with disk
      changes, each step labelled with what it shows ([Obs]: an event
      queued or handled, a disk change, [stop()]); [thread_star] is the
      labelled trace.  Theorems: on every trace the events handled are
      the events queued, in order, none after [stop()], and the state is
      the sequential watcher's run [seq_run] on the trace
      ([threads_refine_watcher]), the invariant in every state of the
      whole program, scan then threads ([whole_program_inv]), the ledger file holds the last ledger
      at the exit ([exit_saves_final_ledger]), an interrupt always
      leads to the exit ([interrupt_exits]), and queued events are
      dropped once [stop()] is called ([no_handling_after_interrupt]).
    - [Stats]: [src/stats.py] and [src/clear.py] over a [Server] of named
      collections, each a list of optional metadata dicts (a record
      without metadata makes [metadata.get] raise).  The
      [defaultdict(int)] is an association list in insertion order
      ([dict_incr]), [sorted] a merge sort on the lexicographic order of
      (name, count) tuples ([item_le]); whether chromadb's
      [get(ids=[])] raises on an empty collection is the parameter
      [empty_get_raises].  Theorems: the report is right
      ([stats_report]) and independent of record order
      ([stats_order_independent]); for any saved ledger and disk whose
      files are all tracked, a clear leaves the ledger file behind and a
      restarted indexer indexes nothing ([clear_leaves_ledger]).

    Theorems whose statement has hypotheses come with a witness that
    applies them to a concrete state; the demo states use the list
    collection and the root [/proj].

    ** What is not modelled

    The embedding model is an oracle field of the state
    ([sys_encode]); the ChromaDB client is its connection parameters,
    the [Collection] interface, and the fault script for the network
    (HTTP, TLS and [heartbeat()] are not modelled; [ipaddress]'s check
    of a bracketed host is a parameter); a file's text decoding
    (UTF-8, else Latin-1) is given with the file rather than computed
    from its bytes; time and the sleep of the main loop are not
    modelled, only the order of the threads' steps, each handler being
    atomic; printing and the JSON
    encoding of the ledger are not modelled (a corrupt ledger file is
    [env_ledger_ok = false]; ledger entries lacking "mtime" or "hash"
    are not represented).  Strings are byte strings: [split()] and
    [lower()] act on ASCII only.  Times are integers and embedding
    components integers, the engine only comparing the former and
    testing the latter for emptiness. *)

From stdpp Require Export base list gmap strings.
From Stdlib Require Export ZArith.

Declare Scope py_scope.
Delimit Scope py_scope with py.

Create HintDb vsync discriminated.
Create Rewrite HintDb vsync_rw.

(** ** A state monad with Python exceptions *)

(** A computation over a state [S] that either returns a value or
    raises an exception of type [E]; the state reached when the
    exception is raised is kept, as in Python, where the side effects
    performed before a [raise] stay done. *)
Inductive outcome (E A : Type) : Type :=
  | Ok (a : A)
  | Exc (e : E).
Arguments Ok {E A} a.
Arguments Exc {E A} e.

Definition st (S E A : Type) : Type := S → outcome E A * S.

Definition st_ret {S E A} (a : A) : st S E A := λ s, (Ok a, s).

Definition st_bind {S E A B} (k : A → st S E B) (m : st S E A) : st S E B :=
  λ s, match m s with
       | (Ok a, s') => k a s'
       | (Exc e, s') => (Exc e, s')
       end.

#[export] Instance st_mret S E : MRet (st S E) := @st_ret S E.
#[export] Instance st_mbind S E : MBind (st S E) := @st_bind S E.

Definition st_raise {S E A} (e : E) : st S E A := λ s, (Exc e, s).
Definition st_get {S E} : st S E S := λ s, (Ok s, s).
Definition st_gets {S E A} (f : S → A) : st S E A := λ s, (Ok (f s), s).
Definition st_modify {S E} (f : S → S) : st S E unit := λ s, (Ok tt, f s).

(** [try: m except: h]: the handler runs in the state the exception
    left behind. *)
Definition st_try {S E A} (m : st S E A) (h : E → st S E A) : st S E A :=
  λ s, match m s with
       | (Exc e, s') => h e s'
       | r => r
       end.

(** The state a computation ends in, whatever it returns. *)
Definition st_exec {S E A} (m : st S E A) (s : S) : S := snd (m s).

(** ** Python list slicing [l[a:b]] on integer indices *)

(** A slice bound is read as in CPython: a negative bound counts from
    the end, and the result is clamped to [0, len l]. *)
Definition py_index (n : Z) (i : Z) : Z :=
  if (i <? 0)%Z then Z.max 0 (i + n) else Z.min i n.

Definition py_slice {A} (l : list A) (a b : Z) : list A :=
  let n := Z.of_nat (length l) in
  let a' := py_index n a in
  let b' := py_index n b in
  take (Z.to_nat (b' - a')) (drop (Z.to_nat a') l).

Notation "l .[ a : b ]" := (py_slice l a b)
  (at level 1, a at level 99, b at level 99, format "l .[ a : b ]") : py_scope.

(** Membership [x in xs] on a Python list or set of strings. *)
Definition py_in (x : string) (xs : list string) : bool := bool_decide (x ∈ xs).

(** ** Generic lemmas *)

Lemma st_bind_ret_l {S E A B} (a : A) (k : A → st S E B) :
  (x ← mret a; k x) = k a.
Proof. reflexivity. Qed.

Lemma st_run_bind_ok {S E A B} (m : st S E A) (k : A → st S E B) s a s' :
  m s = (Ok a, s') → (x ← m; k x) s = k a s'.
Proof. intros H. unfold mbind, st_mbind, st_bind. by rewrite H. Qed.

Lemma st_run_bind_exc {S E A B} (m : st S E A) (k : A → st S E B) s e s' :
  m s = (Exc e, s') → (x ← m; k x) s = (Exc e, s').
Proof. intros H. unfold mbind, st_mbind, st_bind. by rewrite H. Qed.

Lemma st_run_try_ok {S E A} (m : st S E A) h s a s' :
  m s = (Ok a, s') → st_try m h s = (Ok a, s').
Proof. intros H. unfold st_try. by rewrite H. Qed.

Lemma st_run_try_exc {S E A} (m : st S E A) h s e s' :
  m s = (Exc e, s') → st_try m h s = h e s'.
Proof. intros H. unfold st_try. by rewrite H. Qed.

Lemma pair_eta_fst {A B} (p : A * B) a : fst p = a → p = (a, snd p).
Proof. destruct p. cbn. by intros ->. Qed.

Lemma py_in_spec x xs : py_in x xs = true ↔ x ∈ xs.
Proof. unfold py_in. apply bool_decide_eq_true. Qed.

Lemma py_index_nonneg n i : (0 ≤ n)%Z → (0 ≤ py_index n i ≤ n)%Z.
Proof. unfold py_index. destruct (Z.ltb_spec i 0); lia. Qed.

Lemma py_index_in_range n i : (0 ≤ i ≤ n)%Z → py_index n i = i.
Proof. unfold py_index. destruct (Z.ltb_spec i 0); lia. Qed.

(** On in-range, ordered bounds a slice is [take]/[drop]. *)
Lemma py_slice_in_range {A} (l : list A) a b :
  (0 ≤ a ≤ b)%Z → (b ≤ Z.of_nat (length l))%Z →
  l.[a : b]%py = take (Z.to_nat (b - a)) (drop (Z.to_nat a) l).
Proof.
  intros Hab Hb. unfold py_slice.
  rewrite !py_index_in_range by lia. reflexivity.
Qed.

Lemma length_py_slice_in_range {A} (l : list A) a b :
  (0 ≤ a ≤ b)%Z → (b ≤ Z.of_nat (length l))%Z →
  length (l.[a : b]%py) = Z.to_nat (b - a).
Proof.
  intros Hab Hb. rewrite py_slice_in_range by done.
  rewrite length_take, length_drop. lia.
Qed.

#[export] Hint Rewrite @st_bind_ret_l : vsync_rw.
#[export] Hint Resolve py_index_nonneg py_index_in_range : vsync.

(** Unfold the monad's instances so that [cbn] runs a computation. *)
Ltac st_unfold :=
  unfold mbind, mret, st_mbind, st_mret, st_bind, st_ret, st_raise,
    st_get, st_gets, st_modify, st_try, st_exec in *.

Lemma Forall_py_slice {A} (P : A → Prop) (l : list A) a b :
  Forall P l → Forall P (l.[a : b]%py).
Proof. intros H. unfold py_slice. by apply Forall_take, Forall_drop. Qed.

(** The right bound of a slice may be clamped to the length first. *)
Lemma py_slice_min_r {A} (l : list A) a b :
  (0 ≤ b)%Z → l.[a : Z.min b (Z.of_nat (length l))]%py = l.[a : b]%py.
Proof.
  intros Hb. unfold py_slice, py_index.
  destruct (Z.ltb_spec (Z.min b (Z.of_nat (length l))) 0),
    (Z.ltb_spec b 0); try lia. do 2 f_equal. lia.
Qed.

(** [k < ceil(d / step)] iff [k * step < d]: the count of windows. *)
Lemma lt_ceil_div (k d step : Z) :
  (0 < step)%Z → (k < (d + step - 1) / step ↔ k * step < d)%Z.
Proof.
  intros Hs. split; intros H.
  - assert (step * (k + 1) ≤ d + step - 1)%Z; [|nia].
    transitivity (step * ((d + step - 1) / step))%Z;
      [apply Z.mul_le_mono_nonneg_l; lia | apply Z.mul_div_le; lia].
  - assert (k + 1 ≤ (d + step - 1) / step)%Z; [|lia].
    apply Z.div_le_lower_bound; nia.
Qed.
