(* ===== verification/PyStr.v ===== *)
(** The Python [str] operations that [src/ingest.py] relies on, over
    [string] values whose characters are [ascii]: [str.split()] (runs
    of whitespace), [str.split(sep)], [sep.join(xs)], [str.lower()],
    [str.startswith], [str.endswith] and [str.rfind].  The algorithms
    work on [list ascii]; the Python-level functions convert.  Each
    comes with the round trip the program depends on. *)

From S2P Require Import Prelude.
From Stdlib Require Import Ascii String DecimalString DecimalNat.

(** ** Characters and conversions *)

Definition chars (s : string) : list ascii := list_ascii_of_string s.
Definition of_chars (l : list ascii) : string := string_of_list_ascii l.

(** [c.isspace()] on one ASCII character: HT, LF, VT, FF, CR
    (9-13), the separators FS, GS, RS, US (28-31) and the space (32). *)
Definition is_space (c : ascii) : bool :=
  let n := nat_of_ascii c in
  ((9 <=? n) && (n <=? 13)) || ((28 <=? n) && (n <=? 32)).

(** A word of [str.split()]: non-empty and free of whitespace. *)
Definition is_word (w : list ascii) : Prop :=
  w ≠ [] ∧ Forall (λ c, is_space c = false) w.

(** [sep.join(xs)] on character lists. *)
Fixpoint join_l (sep : list ascii) (xs : list (list ascii)) : list ascii :=
  match xs with
  | [] => []
  | [x] => x
  | x :: xs' => x ++ sep ++ join_l sep xs'
  end.

(** ** [str.split()] *)

(** Scan the characters, [cur] holding the word being read. *)
Definition flush (cur : list ascii) (rest : list (list ascii)) : list (list ascii) :=
  match cur with [] => rest | _ => cur :: rest end.

Fixpoint split_ws_go (cur : list ascii) (s : list ascii) : list (list ascii) :=
  match s with
  | [] => flush cur []
  | c :: s' =>
      if is_space c then flush cur (split_ws_go [] s')
      else split_ws_go (cur ++ [c]) s'
  end.

Definition py_split_ws (s : string) : list string :=
  map of_chars (split_ws_go [] (chars s)).

(** [sep.join(xs)]: the Standard Library's [String.concat] has the
    same equations. *)
Definition py_join (sep : string) (xs : list string) : string :=
  String.concat sep xs.

(** ** [str.split(sep)] for a one-character separator *)

Fixpoint split_on_go (c : ascii) (cur : list ascii) (s : list ascii) : list (list ascii) :=
  match s with
  | [] => [cur]
  | x :: s' =>
      if ascii_dec x c then cur :: split_on_go c [] s'
      else split_on_go c (cur ++ [x]) s'
  end.

Definition py_split_on (c : ascii) (s : string) : list string :=
  map of_chars (split_on_go c [] (chars s)).

(** ** [str.lower()], [startswith], [endswith], [rfind] *)

Definition ascii_lower (c : ascii) : ascii :=
  let n := nat_of_ascii c in
  if (65 <=? n) && (n <=? 90) then ascii_of_nat (n + 32) else c.

Definition py_lower (s : string) : string := of_chars (map ascii_lower (chars s)).

Definition py_startswith (s prefix : string) : bool :=
  bool_decide (chars prefix `prefix_of` chars s).

Definition py_endswith (s suffix : string) : bool :=
  bool_decide (chars suffix `suffix_of` chars s).

(** [s.rfind(c)]: the index of the last occurrence of [c], [-1] when
    there is none. *)
Fixpoint rfind_go (c : ascii) (i : Z) (best : Z) (s : list ascii) : Z :=
  match s with
  | [] => best
  | x :: s' => rfind_go c (i + 1) (if ascii_dec x c then i else best) s'
  end.

Definition py_rfind (s : list ascii) (c : ascii) : Z := rfind_go c 0 (-1) s.

(** ** Conversion lemmas *)

Lemma chars_of_chars l : chars (of_chars l) = l.
Proof. apply list_ascii_of_string_of_list_ascii. Qed.

Lemma of_chars_chars s : of_chars (chars s) = s.
Proof. apply string_of_list_ascii_of_string. Qed.

Lemma chars_append s1 s2 : chars (s1 ++ s2)%string = chars s1 ++ chars s2.
Proof. induction s1 as [|c s1 IH]; simpl; [done | by rewrite IH]. Qed.

Lemma of_chars_inj l1 l2 : of_chars l1 = of_chars l2 → l1 = l2.
Proof. intros H. by rewrite <- (chars_of_chars l1), H, chars_of_chars. Qed.

Lemma chars_concat sep xs :
  chars (String.concat sep xs) = join_l (chars sep) (map chars xs).
Proof.
  induction xs as [|x [|y xs] IH]; [done | done |].
  change (chars (x ++ sep ++ String.concat sep (y :: xs))%string =
          chars x ++ chars sep ++ join_l (chars sep) (map chars (y :: xs))).
  by rewrite !chars_append, IH.
Qed.

#[export] Hint Rewrite chars_of_chars of_chars_chars chars_append chars_concat : vsync_rw.

Lemma join_l_cons sep x xs :
  xs ≠ [] → join_l sep (x :: xs) = x ++ sep ++ join_l sep xs.
Proof. destruct xs; [done | reflexivity]. Qed.

(** ** [str.split()] lemmas *)

Lemma split_ws_go_word cur w r :
  Forall (λ c, is_space c = false) w →
  split_ws_go cur (w ++ r) = split_ws_go (cur ++ w) r.
Proof.
  revert cur. induction w as [|c w IH]; intros cur Hw; simpl.
  - by rewrite app_nil_r.
  - inversion Hw as [|? ? Hc Hw']; subst. rewrite Hc, IH by done.
    by rewrite <- app_assoc.
Qed.

Lemma flush_words cur rest :
  (cur ≠ [] → is_word cur) → Forall is_word rest → Forall is_word (flush cur rest).
Proof. destruct cur; simpl; [done|]. intros Hc Hr. constructor; [apply Hc|]; done. Qed.

(** Every piece [str.split()] returns is a word. *)
Lemma split_ws_go_words cur s :
  Forall (λ c, is_space c = false) cur → Forall is_word (split_ws_go cur s).
Proof.
  revert cur. induction s as [|c s IH]; intros cur Hcur; simpl.
  - apply flush_words; [by split|constructor].
  - destruct (is_space c) eqn:Hc.
    + apply flush_words; [by split | apply IH; constructor].
    + apply IH. apply Forall_app; split; [done | by constructor].
Qed.

Lemma split_ws_go_space cur r :
  split_ws_go cur (" "%char :: r) = flush cur (split_ws_go [] r).
Proof. reflexivity. Qed.

(** Round trip: splitting words joined by single spaces gives them
    back. *)
Lemma split_ws_join ws :
  Forall is_word ws → split_ws_go [] (join_l [" "%char] ws) = ws.
Proof.
  induction ws as [|w [|w' ws] IH]; intros Hws; [done| |].
  - inversion Hws as [|? ? [Hne Hw] _]; subst. simpl join_l.
    rewrite <- (app_nil_r w), split_ws_go_word by done. simpl.
    rewrite app_nil_r. by destruct w.
  - inversion Hws as [|? ? [Hne Hw] Hrest]; subst.
    rewrite join_l_cons by done.
    rewrite split_ws_go_word, app_nil_l by done.
    change ([" "%char] ++ ?r) with (" "%char :: r).
    rewrite split_ws_go_space, IH by done. by destruct w.
Qed.

(** ** [str.split(sep)] lemmas *)

Lemma split_on_go_nonempty c cur s : split_on_go c cur s ≠ [].
Proof.
  revert cur. induction s as [|x s IH]; intros cur; simpl; [done|].
  destruct (ascii_dec x c); [done | apply IH].
Qed.

(** Round trip: [sep.join(s.split(sep)) == s]. *)
Lemma join_split_on c cur s :
  join_l [c] (split_on_go c cur s) = cur ++ s.
Proof.
  revert cur. induction s as [|x s IH]; intros cur; simpl.
  - by rewrite app_nil_r.
  - destruct (ascii_dec x c) as [->|Hne].
    + rewrite join_l_cons by apply split_on_go_nonempty. by rewrite IH.
    + rewrite IH. by rewrite <- app_assoc.
Qed.

(** ** [f"{i}"] for a natural number *)

Definition str_of_nat (n : nat) : string :=
  NilEmpty.string_of_uint (Nat.to_uint n).

Lemma str_of_nat_inj n m : str_of_nat n = str_of_nat m → n = m.
Proof.
  unfold str_of_nat. intros H.
  apply (f_equal NilEmpty.uint_of_string) in H. rewrite !NilEmpty.usu in H.
  injection H as H. by apply Unsigned.to_uint_inj.
Qed.

(** ** [str.split()] and [" ".join] on [string]s *)

(** Every piece of [s.split()] is a non-empty run of non-whitespace. *)
Lemma py_split_ws_words s : Forall (λ w, is_word (chars w)) (py_split_ws s).
Proof.
  unfold py_split_ws. apply Forall_fmap.
  eapply Forall_impl; [apply split_ws_go_words; constructor|].
  intros w Hw. cbn. by rewrite chars_of_chars.
Qed.

(** Round trip: [" ".join(ws).split() == ws] for words. *)
Lemma py_split_ws_join ws :
  Forall (λ w, is_word (chars w)) ws → py_split_ws (py_join " " ws) = ws.
Proof.
  intros Hws. unfold py_split_ws, py_join.
  rewrite chars_concat. change (chars " ") with [" "%char].
  rewrite split_ws_join by (by apply Forall_fmap).
  rewrite <- list_fmap_compose.
  rewrite <- (list_fmap_id ws) at 2. apply list_fmap_ext. intros. apply of_chars_chars.
Qed.

Lemma py_split_ws_empty : py_split_ws "" = [].
Proof. reflexivity. Qed.

(** ** [str.split(sep)] inverts [sep.join] *)

Lemma split_on_go_cur c cur w s :
  c ∉ w → split_on_go c cur (w ++ s) = split_on_go c (cur ++ w) s.
Proof.
  revert cur. induction w as [|x w IH]; intros cur Hw; cbn; [by rewrite app_nil_r|].
  apply not_elem_of_cons in Hw as [Hx Hw].
  destruct (ascii_dec x c) as [->|_]; [done|]. by rewrite IH, <- app_assoc.
Qed.

Lemma split_on_go_join c cur w ws :
  Forall (λ v, c ∉ v) (w :: ws) →
  split_on_go c cur (join_l [c] (w :: ws)) = (cur ++ w) :: ws.
Proof.
  revert cur w. induction ws as [|w' ws IH]; intros cur w Hws;
    apply Forall_cons in Hws as [Hw Hws].
  - cbn [join_l]. rewrite <- (app_nil_r w), split_on_go_cur by done. by rewrite app_nil_r.
  - rewrite join_l_cons by done. rewrite split_on_go_cur by done. cbn [split_on_go app].
    destruct (ascii_dec c c); [|done]. by rewrite IH.
Qed.

(** [sep.join(ws).split(sep) == ws] when no piece contains [sep]. *)
Lemma py_split_on_join c (ws : list string) :
  ws ≠ [] → Forall (λ w, c ∉ chars w) ws →
  py_split_on c (py_join (String (c) EmptyString) ws) = ws.
Proof.
  intros Hne Hws. unfold py_split_on, py_join. rewrite chars_concat.
  destruct ws as [|w ws]; [done|]. cbn [map].
  rewrite split_on_go_join;
    [|change (Forall (λ v, c ∉ v) (chars <$> (w :: ws))); by apply Forall_fmap]. cbn.
  rewrite of_chars_chars. f_equal.
  rewrite map_map. erewrite map_ext; [apply map_id|]. intros. apply of_chars_chars.
Qed.

Lemma join_l_app sep xs ys :
  xs ≠ [] → ys ≠ [] → join_l sep (xs ++ ys) = join_l sep xs ++ sep ++ join_l sep ys.
Proof.
  intros Hx Hy. induction xs as [|x [|x' xs] IH]; [done| |].
  - cbn [app]. by rewrite join_l_cons.
  - rewrite <- app_comm_cons, !join_l_cons by done. rewrite IH by done. by rewrite !app_assoc.
Qed.

Lemma str_app_assoc (s1 s2 s3 : string) : (s1 +:+ (s2 +:+ s3))%string = ((s1 +:+ s2) +:+ s3)%string.
Proof.
  rewrite <- (of_chars_chars (s1 +:+ _)%string), <- (of_chars_chars ((s1 +:+ s2) +:+ _)%string).
  by rewrite !chars_append, app_assoc.
Qed.

(** [sep.join(xs + ys) == sep.join(xs) + sep + sep.join(ys)]. *)
Lemma py_join_app sep xs ys :
  xs ≠ [] → ys ≠ [] → py_join sep (xs ++ ys) = (py_join sep xs +:+ sep +:+ py_join sep ys)%string.
Proof.
  intros Hx Hy.
  rewrite <- (of_chars_chars (py_join sep (xs ++ ys))),
    <- (of_chars_chars (py_join sep xs +:+ sep +:+ py_join sep ys)%string).
  f_equal. unfold py_join. rewrite !chars_append, !chars_concat, map_app.
  apply join_l_app; [by destruct xs|by destruct ys].
Qed.
