(* ===== verification/Chunker.v ===== *)
(** The chunker, [chunk_text] of [src/ingest.py] (lines 137-149).

    The Python [while] loop becomes [chunk_loop], one fuel unit per
    iteration, [None] meaning that the fuel ran out.  [chunk_text] gives
    the loop one unit more than there are words: when the window
    advances ([chunk_size > chunk_overlap]) that is enough, so the
    result is [Some] ([chunk_text_total]) and equals the window
    specification [chunk_windows] of the spec when
    [0 <= chunk_overlap < chunk_size] ([chunk_text_windows]).  When the
    window does not advance the loop never exits, whatever the fuel
    ([chunk_loop_diverges]). *)

From S2P Require Import Prelude PyStr.


Local Open Scope Z_scope.
Local Open Scope py_scope.

(** ** The loop *)

(** One iteration per fuel unit, from [start_idx], with [chunks] the
    list accumulated so far (line 145 appends to it). *)
Fixpoint chunk_loop (fuel : nat) (words : list string)
    (chunk_size chunk_overlap start_idx : Z) (chunks : list string)
    : option (list string) :=
  match fuel with
  | O => None
  | S fuel' =>
      let n := Z.of_nat (length words) in
      if start_idx <? n then
        let end_idx := Z.min (start_idx + chunk_size) n in
        let chunk := py_join " " (words.[start_idx : end_idx]) in
        let chunks := chunks ++ [chunk] in
        if end_idx =? n then Some chunks
        else
          let start_idx := start_idx + (chunk_size - chunk_overlap) in
          if start_idx >=? n then Some chunks
          else chunk_loop fuel' words chunk_size chunk_overlap start_idx chunks
      else Some chunks
  end.

(** [chunk_text] with an explicit fuel: the [if not text] guard, the
    [split()] and the loop from index 0. *)
Definition chunk_text_fuel (fuel : nat) (text : string)
    (chunk_size chunk_overlap : Z) : option (list string) :=
  if String.eqb text "" then Some []
  else chunk_loop fuel (py_split_ws text) chunk_size chunk_overlap 0 [].

Definition chunk_text (text : string) (chunk_size chunk_overlap : Z)
    : option (list string) :=
  chunk_text_fuel (S (length (py_split_ws text))) text chunk_size chunk_overlap.

(** The defaults of the Python signature, [chunk_size=500,
    chunk_overlap=50], the only values [process_file] uses. *)
Definition chunk_size_default : Z := 500.
Definition chunk_overlap_default : Z := 50.

(** ** The window specification (spec, section 4.2) *)

(** Window [i] starts at word [i * step] and spans [size] words; the
    slice clamps the last one. *)
Definition window (words : list string) (size step : Z) (i : nat) : string :=
  py_join " " (words.[Z.of_nat i * step : Z.of_nat i * step + size]).

(** The number of windows until one reaches the end of the text:
    [1 + ceil((n - size) / step)] when the text is longer than one
    window. *)
Definition num_windows (n size step : Z) : nat :=
  if n =? 0 then O
  else if n <=? size then 1%nat
  else S (Z.to_nat ((n - size + step - 1) / step)).

Definition chunk_windows (words : list string) (size overlap : Z) : list string :=
  let step := size - overlap in
  map (window words size step) (seq 0 (num_windows (Z.of_nat (length words)) size step)).

(** ** A concrete text *)

(** The text ["w0 w1 ... w(k-1)"] of the spec's example (section 8). *)
Fixpoint numbered_words (k i : nat) : string :=
  match k with
  | O => ""
  | S k' => "w" +:+ str_of_nat i +:+ " " +:+ numbered_words k' (S i)
  end.

Definition spec_example_text : string := numbered_words 120 0.

(** ** Arithmetic of the windows *)

Section Windows.
Context (n size overlap : Z).
Hypothesis Hov : 0 ≤ overlap < size.
Hypothesis Hn : 0 ≤ n.
Let step := size - overlap.

(** Every window of the specification starts inside the text. *)
Lemma window_start_lt (k : nat) :
  (k < num_windows n size step)%nat → Z.of_nat k * step < n.
Proof.
  unfold num_windows. subst step.
  destruct (Z.eqb_spec n 0); [lia|].
  destruct (Z.leb_spec n size).
  { intros ?. assert (k = 0%nat) as -> by lia. lia. }
  intros Hk.
  pose proof (lt_ceil_div (Z.of_nat k) (n - size) (size - overlap) ltac:(lia)) as H1.
  pose proof (lt_ceil_div (Z.of_nat k - 1) (n - size) (size - overlap) ltac:(lia)) as H2.
  pose proof (Z.div_pos (n - size + (size - overlap) - 1) (size - overlap)
                ltac:(lia) ltac:(lia)).
  destruct (decide (Z.of_nat k < (n - size + (size - overlap) - 1) / (size - overlap)));
    nia.
Qed.

(** Window [k] ends before the text does exactly when it is not the
    last one. *)
Lemma window_end_lt_iff (k : nat) :
  (k < num_windows n size step)%nat →
  (Z.of_nat k * step + size < n ↔ (S k < num_windows n size step)%nat).
Proof.
  unfold num_windows. subst step.
  destruct (Z.eqb_spec n 0); [lia|].
  destruct (Z.leb_spec n size).
  { intros ?. assert (k = 0%nat) as -> by lia. lia. }
  intros Hk.
  pose proof (lt_ceil_div (Z.of_nat k) (n - size) (size - overlap) ltac:(lia)).
  pose proof (Z.div_pos (n - size + (size - overlap) - 1) (size - overlap)
                ltac:(lia) ltac:(lia)).
  lia.
Qed.
End Windows.

(** The specification never has more windows than words. *)
Lemma num_windows_le n size overlap :
  0 ≤ overlap < size → 0 ≤ n →
  Z.of_nat (num_windows n size (size - overlap)) ≤ n.
Proof.
  intros Hov Hn.
  destruct (num_windows n size (size - overlap)) as [|m] eqn:HN; [lia|].
  pose proof (window_start_lt n size overlap Hov Hn m ltac:(lia)). nia.
Qed.

(** ** The loop computes the windows *)

(** From window [k] on, with enough fuel, the loop appends exactly the
    remaining windows of the specification. *)
Lemma chunk_loop_windows words size overlap fuel (k : nat) acc :
  0 ≤ overlap < size →
  let N := num_windows (Z.of_nat (length words)) size (size - overlap) in
  (k < N)%nat → (N - k ≤ fuel)%nat →
  chunk_loop fuel words size overlap (Z.of_nat k * (size - overlap)) acc =
  Some (acc ++ map (window words size (size - overlap)) (seq k (N - k))).
Proof.
  intros Hov N. revert k acc.
  induction fuel as [|fuel IH]; intros k acc Hk Hf; [lia|].
  pose proof (window_start_lt (Z.of_nat (length words)) size overlap Hov ltac:(lia) k Hk) as Hs.
  pose proof (window_end_lt_iff (Z.of_nat (length words)) size overlap Hov ltac:(lia) k Hk) as He.
  cbn [chunk_loop].
  rewrite (proj2 (Z.ltb_lt _ _) Hs), py_slice_min_r by nia.
  fold (window words size (size - overlap) k).
  destruct (Z.eqb_spec (Z.min (Z.of_nat k * (size - overlap) + size)
                               (Z.of_nat (length words))) (Z.of_nat (length words))).
  - replace (N - k)%nat with 1%nat by (subst N; lia). done.
  - assert (HSk : (S k < N)%nat) by (apply He; lia).
    pose proof (window_start_lt (Z.of_nat (length words)) size overlap Hov ltac:(lia) (S k) HSk).
    replace (Z.of_nat k * (size - overlap) + (size - overlap))
      with (Z.of_nat (S k) * (size - overlap)) by lia.
    destruct (Z.geb_spec (Z.of_nat (S k) * (size - overlap))
                (Z.of_nat (length words))); [lia|].
    rewrite IH by lia.
    replace (N - k)%nat with (S (N - S k)) by lia.
    by rewrite <- app_assoc.
Qed.

(** ** Theorems *)

(** A text without words gives no chunk, whatever the parameters. *)
Lemma chunk_text_blank text size overlap :
  py_split_ws text = [] → chunk_text text size overlap = Some [].
Proof.
  intros Hws. unfold chunk_text, chunk_text_fuel. rewrite Hws.
  by destruct (String.eqb text "").
Qed.

(** [chunk_text] computes the windows of the words. *)
Lemma chunk_text_eq_windows text size overlap :
  0 ≤ overlap < size →
  chunk_text text size overlap = Some (chunk_windows (py_split_ws text) size overlap).
Proof.
  intros Hov. unfold chunk_text, chunk_text_fuel, chunk_windows.
  destruct (String.eqb_spec text "") as [->|Hne]; [done|].
  set (ws := py_split_ws text).
  destruct (num_windows (Z.of_nat (length ws)) size (size - overlap)) as [|N] eqn:HN.
  - destruct ws as [|w ws']; [done|].
    unfold num_windows in HN. simpl length in HN.
    destruct (Z.eqb_spec (Z.of_nat (S (length ws'))) 0); [lia|].
    destruct (Z.leb_spec (Z.of_nat (S (length ws'))) size); [done|lia].
  - pose proof (num_windows_le (Z.of_nat (length ws)) size overlap Hov ltac:(lia)) as Hle.
    pose proof (chunk_loop_windows ws size overlap (S (length ws)) 0 [] Hov) as E.
    cbn zeta in E. rewrite HN in E, Hle.
    change (Z.of_nat 0) with 0 in E. rewrite Z.mul_0_l in E.
    rewrite E by lia. done.
Qed.

(** C5: the chunker implements the window specification.  For
    [0 <= chunk_overlap < chunk_size], [chunk_text] returns exactly the
    windows of the spec: window [i] is the words [i * (chunk_size -
    chunk_overlap)] to [i * (chunk_size - chunk_overlap) + chunk_size]
    joined by single spaces, for the [1 + ceil((n - chunk_size) /
    (chunk_size - chunk_overlap))] windows needed to reach the end
    (none for an empty or all-whitespace text). *)
Theorem chunk_text_windows text size overlap :
  0 ≤ overlap < size →
  chunk_text text size overlap = Some (chunk_windows (py_split_ws text) size overlap).
Proof. apply chunk_text_eq_windows. Qed.

(** Whenever the window advances, the loop exits within [n - start]
    further iterations. *)
Lemma chunk_loop_some words size overlap fuel start acc :
  0 < size - overlap → 0 ≤ start →
  (Z.to_nat (Z.of_nat (length words) - start) < fuel)%nat →
  ∃ r, chunk_loop fuel words size overlap start acc = Some r.
Proof.
  intros Hstep. revert start acc.
  induction fuel as [|fuel IH]; intros start acc Hs Hf; [lia|].
  cbn [chunk_loop].
  destruct (Z.ltb_spec start (Z.of_nat (length words))); [|eauto].
  destruct (Z.min _ _ =? _); [eauto|].
  destruct (Z.geb_spec (start + (size - overlap)) (Z.of_nat (length words))); [eauto|].
  apply IH; lia.
Qed.

(** C6: termination.  When [chunk_size > chunk_overlap] the loop of
    [chunk_text] terminates on every text, within one iteration more
    than there are words. *)
Theorem chunk_text_total text size overlap :
  0 < size - overlap → ∃ chunks, chunk_text text size overlap = Some chunks.
Proof.
  intros Hstep. unfold chunk_text, chunk_text_fuel.
  destruct (String.eqb _ _); [eauto|].
  apply chunk_loop_some; lia.
Qed.

(** While the start index stays at or below 0 and the window is
    shorter than the text, no exit test of the loop fires. *)
Lemma chunk_loop_none words size overlap fuel start acc :
  size - overlap ≤ 0 → 0 < Z.of_nat (length words) →
  size < Z.of_nat (length words) → start ≤ 0 →
  chunk_loop fuel words size overlap start acc = None.
Proof.
  intros Hstep Hpos Hsize. revert start acc.
  induction fuel as [|fuel IH]; intros start acc Hs; [done|].
  cbn [chunk_loop].
  destruct (Z.ltb_spec start (Z.of_nat (length words))); [|lia].
  destruct (Z.eqb_spec (Z.min (start + size) (Z.of_nat (length words)))
              (Z.of_nat (length words))); [lia|].
  destruct (Z.geb_spec (start + (size - overlap)) (Z.of_nat (length words))); [lia|].
  apply IH; lia.
Qed.

(** C19: non-termination when the overlap is not smaller than the size.
    [chunk_text] does not check [chunk_overlap < chunk_size]: with
    [chunk_overlap >= chunk_size] and a text of more than [chunk_size]
    words the start index never advances, and the loop runs out of any
    fuel it is given (the Python call never returns). *)
Theorem chunk_text_diverges text size overlap fuel :
  size ≤ overlap → 0 < Z.of_nat (length (py_split_ws text)) →
  size < Z.of_nat (length (py_split_ws text)) →
  chunk_text_fuel fuel text size overlap = None.
Proof.
  intros Hov Hpos Hsize. unfold chunk_text_fuel.
  destruct (String.eqb_spec text "") as [->|]; [done|].
  apply chunk_loop_none; lia.
Qed.

(** C26: re-splitting a chunk gives back its window of words.  Chunk
    [i] returned by [chunk_text], split again on whitespace, is exactly
    the words [i * step] to [i * step + chunk_size] of the text. *)
Theorem chunk_text_resplit text size overlap chunks (i : nat) c :
  0 ≤ overlap < size →
  chunk_text text size overlap = Some chunks → chunks !! i = Some c →
  py_split_ws c =
    (py_split_ws text).[Z.of_nat i * (size - overlap) : Z.of_nat i * (size - overlap) + size].
Proof.
  intros Hov. rewrite chunk_text_eq_windows by done. intros [= <-] Hi.
  unfold chunk_windows in Hi. rewrite list_lookup_fmap in Hi.
  apply fmap_Some in Hi as [k [Hk ->]]. apply lookup_seq in Hk as [-> _].
  unfold window. apply py_split_ws_join, Forall_py_slice, py_split_ws_words.
Qed.

(** ** Witnesses *)

(** The spec's example: 120 words, [chunk_size = 50],
    [chunk_overlap = 10] give windows of 50, 50 and 40 words. *)
Lemma chunk_text_windows_witness :
  (0 ≤ 10 < 50) ∧
  chunk_text spec_example_text 50 10 =
    Some (chunk_windows (py_split_ws spec_example_text) 50 10) ∧
  option_map (map (λ c, length (py_split_ws c))) (chunk_text spec_example_text 50 10)
    = Some [50%nat; 50%nat; 40%nat].
Proof.
  split; [lia|]. split; [apply chunk_text_windows; lia | vm_compute; reflexivity].
Defined.

Lemma chunk_text_total_witness :
  0 < chunk_size_default - chunk_overlap_default ∧
  ∃ chunks, chunk_text spec_example_text chunk_size_default chunk_overlap_default = Some chunks.
Proof.
  assert (H : 0 < chunk_size_default - chunk_overlap_default) by (vm_compute; reflexivity).
  split; [exact H | apply chunk_text_total, H].
Defined.

Lemma chunk_text_diverges_witness :
  1 ≤ 1 ∧ 0 < Z.of_nat (length (py_split_ws "a b c")) ∧
  1 < Z.of_nat (length (py_split_ws "a b c")) ∧
  chunk_text_fuel 1000 "a b c" 1 1 = None.
Proof.
  assert (H1 : 0 < Z.of_nat (length (py_split_ws "a b c"))) by (vm_compute; reflexivity).
  assert (H2 : 1 < Z.of_nat (length (py_split_ws "a b c"))) by (vm_compute; reflexivity).
  split; [lia|]. split; [exact H1|]. split; [exact H2|].
  apply chunk_text_diverges; [lia | exact H1 | exact H2].
Defined.

Lemma chunk_text_resplit_witness :
  ∃ chunks c, 0 ≤ 1 < 2 ∧ chunk_text "a b c d" 2 1 = Some chunks ∧ chunks !! 1%nat = Some c ∧
    py_split_ws c = (py_split_ws "a b c d").[Z.of_nat 1 * (2 - 1) : Z.of_nat 1 * (2 - 1) + 2].
Proof.
  eexists ["a b"; "b c"; "c d"], "b c".
  assert (H1 : chunk_text "a b c d" 2 1 = Some ["a b"; "b c"; "c d"]) by (vm_compute; reflexivity).
  assert (H2 : (["a b"; "b c"; "c d"] : list string) !! 1%nat = Some "b c") by reflexivity.
  split; [lia|]. split; [exact H1|]. split; [exact H2|].
  apply (chunk_text_resplit "a b c d" 2 1 _ 1 _ ltac:(lia) H1 H2).
Defined.
