(* ===== verification/Paths.v ===== *)
(** Configuration and path handling of [src/ingest.py]: the
    configuration constants (lines 20-32), the [os.path] functions the
    program calls (POSIX [posixpath]: [normpath], [abspath], [relpath],
    [join], [splitext]), and the metadata and filter functions built on
    them: [get_file_language] (106-119), [get_project_name] (121-135),
    the extension test (182-184) and the excluded-directory test
    (186-188). *)

From S2P Require Import Prelude PyStr.
From Stdlib Require Import Ascii.

Local Open Scope Z_scope.
Local Open Scope py_scope.

(** ** Configuration *)

(** The module-level constants, as one record so that the theorems can
    be stated for any configuration; [ingest_config] holds the values of
    the source. *)
Record Config := mkConfig {
  PROJECT_ROOT_DIRECTORIES : list string;
  INCLUDE_EXTENSIONS : list string;
  EXCLUDE_DIRS : list string;
}.

Definition ingest_config : Config := {|
  PROJECT_ROOT_DIRECTORIES := ["/Path/To/Files"];
  INCLUDE_EXTENSIONS :=
    [".php"; ".js"; ".jsx"; ".ts"; ".tsx"; ".html"; ".htm"; ".css"; ".scss"; ".json";
     ".py"; ".md"; ".txt"; ".xml"; ".yml"; ".yaml"; ".sql"; ".c"; ".cpp"; ".h"; ".hpp"];
  EXCLUDE_DIRS :=
    ["node_modules"; ".git"; "vendor"; "dist"; "build"; "cache"; "__pycache__";
     "wp-admin"; "wp-includes"];
|}.

(** ** [posixpath] *)

Definition sep : ascii := "/".

(** One component of the [normpath] loop: skip [""] and ["."], pop on
    [".."] unless nothing can be popped, append otherwise. *)
Definition normpath_step (initial_slashes : bool) (new_comps : list string)
    (comp : string) : list string :=
  if bool_decide (comp = "" ∨ comp = ".") then new_comps
  else if bool_decide (comp ≠ "..") || (negb initial_slashes && bool_decide (new_comps = []))
          || bool_decide (last new_comps = Some "..")
  then new_comps ++ [comp]
  else match new_comps with [] => [] | _ => removelast new_comps end.

(** [os.path.normpath]: one or two leading slashes are kept, three or
    more become one. *)
Definition py_normpath (path : string) : string :=
  if bool_decide (path = "") then "."
  else
    let initial_slashes : nat :=
      if py_startswith path "/" then
        if py_startswith path "//" && negb (py_startswith path "///") then 2%nat else 1%nat
      else 0%nat in
    let comps := py_split_on sep path in
    let new_comps := foldl (normpath_step (bool_decide (initial_slashes ≠ 0%nat))) [] comps in
    let path := (of_chars (replicate initial_slashes sep) +:+ py_join "/" new_comps)%string in
    if bool_decide (path = "") then "." else path.

(** [os.path.join(a, b)]. *)
Definition path_join2 (a b : string) : string :=
  if py_startswith b "/" then b
  else if bool_decide (a = "") || py_endswith a "/" then (a +:+ b)%string
  else (a +:+ "/" +:+ b)%string.

Definition py_path_join (a : string) (bs : list string) : string := foldl path_join2 a bs.

(** [os.path.abspath], the working directory being [cwd]. *)
Definition py_abspath (cwd path : string) : string :=
  if py_startswith path "/" then py_normpath path else py_normpath (path_join2 cwd path).

(** Length of the longest common prefix ([os.path.commonprefix] on two
    lists). *)
Fixpoint common_prefix_len (xs ys : list string) : nat :=
  match xs, ys with
  | x :: xs', y :: ys' => if bool_decide (x = y) then S (common_prefix_len xs' ys') else O
  | _, _ => O
  end.

(** The non-empty components of a path, [[x for x in p.split(sep) if x]]. *)
Definition nonempty_comps (p : string) : list string :=
  filter (λ x, x ≠ "") (py_split_on sep p).

(** [os.path.relpath(path, start)]. *)
Definition py_relpath (cwd path start : string) : string :=
  let start_list := nonempty_comps (py_abspath cwd start) in
  let path_list := nonempty_comps (py_abspath cwd path) in
  let i := common_prefix_len start_list path_list in
  let rel_list := replicate (length start_list - i) ".." ++ drop i path_list in
  match rel_list with
  | [] => "."
  | r :: rs => py_path_join r rs
  end.

(** The extension part of [os.path.splitext(p)]: from the last dot of
    the last component, provided a character other than a dot precedes
    it in that component (the [while] loop of [genericpath._splitext]). *)
Definition py_splitext_ext (p : string) : string :=
  let cs := chars p in
  let sepIndex := py_rfind cs sep in
  let dotIndex := py_rfind cs "." in
  if sepIndex <? dotIndex then
    if existsb (λ c, negb (bool_decide (c = "."%char))) (cs.[sepIndex + 1 : dotIndex])
    then of_chars (cs.[dotIndex : Z.of_nat (length cs)])
    else ""
  else "".

(** ** The program's path functions *)

(** [os.path.splitext(file_path)[1].lower()] (lines 107, 182, 307). *)
Definition file_extension (file_path : string) : string :=
  py_lower (py_splitext_ext file_path).

(** The [if]/[elif] chain of [get_file_language] on the lowered
    extension [ext] (lines 108-119). *)
Definition language_of_extension (ext : string) : string :=
  if py_in ext [".js"; ".jsx"; ".ts"; ".tsx"] then "javascript"
  else if bool_decide (ext = ".php") then "php"
  else if bool_decide (ext = ".py") then "python"
  else if py_in ext [".html"; ".htm"] then "html"
  else if py_in ext [".css"; ".scss"] then "css"
  else if py_in ext [".md"; ".txt"] then "markdown"
  else if bool_decide (ext = ".json") then "json"
  else if bool_decide (ext = ".xml") then "xml"
  else if py_in ext [".yml"; ".yaml"] then "yaml"
  else if bool_decide (ext = ".sql") then "sql"
  else if py_in ext [".c"; ".cpp"; ".h"; ".hpp"] then "c_cpp"
  else "unknown".

Definition get_file_language (file_path : string) : string :=
  language_of_extension (file_extension file_path).

Definition get_project_name (cwd file_path : string) (root_dirs : list string) : string :=
  match root_dirs with
  | [] => "unknown_project"
  | base_root :: _ =>
      let base_root := if py_endswith base_root "/" then base_root else (base_root +:+ "/")%string in
      if py_startswith file_path base_root then
        let relative_path := py_relpath cwd file_path base_root in
        if bool_decide (sep ∈ chars relative_path) then
          default "" (head (py_split_on sep relative_path))
        else "root_level_project"
      else "unknown_project"
  end.

(** [file_extension not in INCLUDE_EXTENSIONS] (lines 182-184). *)
Definition extension_included (cfg : Config) (file_path : string) : bool :=
  py_in (file_extension file_path) (INCLUDE_EXTENSIONS cfg).

(** The [for excluded_dir in EXCLUDE_DIRS] loop (lines 186-188, and
    310-313): some excluded name is a component of the normalised path. *)
Definition path_excluded (cfg : Config) (file_path : string) : bool :=
  existsb (λ excluded_dir, py_in excluded_dir (py_split_on sep (py_normpath file_path)))
    (EXCLUDE_DIRS cfg).

(** A path component that [normpath] keeps as it is. *)
Definition clean_comp (x : string) : Prop :=
  x ≠ "" ∧ x ≠ "." ∧ x ≠ ".." ∧ sep ∉ chars x.

(** The absolute path with components [comps]: ["/" + "/".join(comps)]. *)
Definition abs_path (comps : list string) : string := ("/" +:+ py_join "/" comps)%string.

(** ** Clean absolute paths *)

Lemma suffix_single_app (c : ascii) (l1 l2 : list ascii) :
  l2 ≠ [] → [c] `suffix_of` l1 ++ l2 → [c] `suffix_of` l2.
Proof.
  intros Hl [k Hk]. induction l2 as [|x l2 _] using rev_ind; [done|].
  rewrite app_assoc in Hk. apply app_inj_tail in Hk as [_ ->]. by exists l2.
Qed.

Lemma suffix_single_elem (c : ascii) l : [c] `suffix_of` l → c ∈ l.
Proof. intros [k ->]. set_solver. Qed.

Lemma clean_startswith x : clean_comp x → py_startswith x "/" = false.
Proof.
  intros (_ & _ & _ & Hx). apply bool_decide_eq_false_2. intros [k Hk].
  apply Hx. rewrite Hk. cbn. set_solver.
Qed.

Lemma clean_chars x : clean_comp x → ∃ c t, chars x = c :: t ∧ c ≠ sep.
Proof.
  intros (Hne & _ & _ & Hx). destruct x as [|c t]; [done|].
  exists c, (chars t). split; [done|]. intros ->. apply Hx. cbn. set_solver.
Qed.

Lemma chars_join_cons x xs : ∃ t, chars (py_join "/" (x :: xs)) = chars x ++ t.
Proof.
  unfold py_join. rewrite chars_concat. destruct xs as [|y xs].
  - exists []. by rewrite app_nil_r.
  - by eexists.
Qed.

(** A join of clean components neither starts nor ends with a
    separator. *)
Lemma clean_join_endswith x xs :
  Forall clean_comp (x :: xs) → py_endswith (py_join "/" (x :: xs)) "/" = false.
Proof.
  revert x. induction xs as [|y xs IH]; intros x Hxs; apply Forall_cons in Hxs as [Hx Hxs].
  - apply bool_decide_eq_false_2. intros Hs. destruct Hx as (_ & _ & _ & Hx).
    by apply Hx, suffix_single_elem.
  - pose proof (IH y Hxs) as Hy. apply bool_decide_eq_false_1 in Hy.
    apply bool_decide_eq_false_2. intros Hs. apply Hy.
    change (py_join "/" (x :: y :: xs)) with (x +:+ "/" +:+ py_join "/" (y :: xs))%string in Hs.
    rewrite !chars_append, app_assoc in Hs. eapply suffix_single_app; [|exact Hs].
    destruct (chars_join_cons y xs) as [t ->].
    destruct (clean_chars y) as (c & t' & -> & _); [by inversion Hxs|]. done.
Qed.

Lemma clean_join_startswith x xs :
  Forall clean_comp (x :: xs) → py_startswith (py_join "/" (x :: xs)) "/" = false.
Proof.
  intros Hxs. apply Forall_cons in Hxs as [Hx _].
  apply bool_decide_eq_false_2. intros [k Hk].
  destruct (chars_join_cons x xs) as [t Ht]. destruct (clean_chars x) as (c & t' & Hc & Hcs); [done|].
  rewrite Ht, Hc in Hk. by injection Hk as ->.
Qed.

(** *** [normpath] on clean paths *)

Lemma normpath_step_clean b acc x : clean_comp x → normpath_step b acc x = acc ++ [x].
Proof.
  intros (Hne & Hdot & Hdd & _). unfold normpath_step.
  rewrite bool_decide_eq_false_2 by naive_solver. by rewrite bool_decide_eq_true_2.
Qed.

Lemma foldl_normpath_step b acc xs :
  Forall (λ x, x = "" ∨ clean_comp x) xs →
  foldl (normpath_step b) acc xs = acc ++ filter (λ x, x ≠ "") xs.
Proof.
  revert acc. induction xs as [|x xs IH]; intros acc Hxs; cbn [foldl]; [by rewrite app_nil_r|].
  apply Forall_cons in Hxs as [[->|Hx] Hxs].
  - rewrite filter_cons_False by naive_solver. by apply IH.
  - rewrite normpath_step_clean, IH, filter_cons_True by (done || by destruct Hx).
    by rewrite <- app_assoc.
Qed.

Lemma filter_clean xs : Forall clean_comp xs → filter (λ x, x ≠ "") xs = xs.
Proof.
  induction 1 as [|x xs Hx _ IH]; [done|].
  rewrite filter_cons_True by by destruct Hx. by rewrite IH.
Qed.

Lemma join_empty_cons x xs : py_join "/" ("" :: x :: xs) = ("/" +:+ py_join "/" (x :: xs))%string.
Proof. reflexivity. Qed.

(** [normpath] of an absolute path whose first component is clean and
    whose other components are clean or empty (doubled or trailing
    slashes) drops the empty ones. *)
Lemma normpath_join x0 xs :
  clean_comp x0 → Forall (λ x, x = "" ∨ clean_comp x) xs →
  py_normpath (py_join "/" ("" :: x0 :: xs)) = abs_path (x0 :: filter (λ x, x ≠ "") xs).
Proof.
  intros Hx0 Hxs. unfold py_normpath. rewrite join_empty_cons.
  rewrite bool_decide_eq_false_2 by done.
  assert (Hs1 : py_startswith ("/" +:+ py_join "/" (x0 :: xs)) "/" = true)
    by (apply bool_decide_eq_true_2; by exists (chars (py_join "/" (x0 :: xs)))).
  assert (Hs2 : py_startswith ("/" +:+ py_join "/" (x0 :: xs)) "//" = false).
  { apply bool_decide_eq_false_2. intros [k Hk]. rewrite chars_append in Hk.
    change (chars "//") with ["/"%char; "/"%char] in Hk.
    change (chars "/") with ["/"%char] in Hk.
    destruct (chars_join_cons x0 xs) as [t Ht]. destruct (clean_chars x0) as (c & t' & Hc & Hcs);
      [done|]. rewrite Ht, Hc in Hk. cbn [app] in Hk. injection Hk as Hc' _. by apply Hcs. }
  rewrite Hs1, Hs2. cbn [andb negb].
  rewrite <- join_empty_cons, (py_split_on_join sep) by
    (done || (constructor; [cbn; set_solver|constructor; [by destruct Hx0 as (_&_&_&?)|]];
      eapply Forall_impl; [exact Hxs|]; intros x [->|(_&_&_&?)]; [cbn; set_solver|done])).
  rewrite (foldl_normpath_step _ [] ("" :: x0 :: xs)) by
    (constructor; [by left|constructor; [by right|done]]).
  rewrite filter_cons_False by naive_solver.
  rewrite filter_cons_True by (by destruct Hx0). cbn.
  by rewrite bool_decide_eq_false_2.
Qed.

(** *** [abspath], [relpath] and [join] on clean paths *)

Lemma str_app_nil_r (s : string) : (s +:+ "")%string = s.
Proof. rewrite <- (of_chars_chars (s +:+ "")%string), chars_append. by rewrite app_nil_r, of_chars_chars. Qed.

Lemma clean_or_empty xs : Forall clean_comp xs → Forall (λ x, x = "" ∨ clean_comp x) xs.
Proof. intros Hxs. eapply Forall_impl; [exact Hxs|]. by right. Qed.

Lemma normpath_abs x xs :
  Forall clean_comp (x :: xs) → py_normpath (abs_path (x :: xs)) = abs_path (x :: xs).
Proof.
  intros Hxs. apply Forall_cons in Hxs as [Hx Hxs]. unfold abs_path at 1.
  rewrite <- join_empty_cons, normpath_join by auto using clean_or_empty.
  by rewrite filter_clean.
Qed.

Lemma normpath_abs_slash x xs :
  Forall clean_comp (x :: xs) → py_normpath (abs_path (x :: xs) +:+ "/") = abs_path (x :: xs).
Proof.
  intros Hxs. apply Forall_cons in Hxs as [Hx Hxs]. unfold abs_path at 1.
  rewrite <- join_empty_cons.
  assert (E : (py_join "/" ("" :: x :: xs) +:+ "/")%string =
              py_join "/" ("" :: x :: xs ++ [""])) by (by rewrite !app_comm_cons, py_join_app).
  rewrite E.
  rewrite normpath_join by (done || (apply Forall_app; split; [by apply clean_or_empty|by repeat constructor; left])).
  rewrite filter_app, filter_clean by done. rewrite filter_cons_False by naive_solver.
  by rewrite filter_nil, app_nil_r.
Qed.

Lemma nonempty_comps_abs comps : Forall clean_comp comps → nonempty_comps (abs_path comps) = comps.
Proof.
  destruct comps as [|x xs]; [done|]. intros Hxs. unfold nonempty_comps, abs_path.
  rewrite <- join_empty_cons, (py_split_on_join sep) by
    (done || (constructor; [cbn; set_solver|]; eapply Forall_impl; [exact Hxs|];
               intros y (_&_&_&?); done)).
  rewrite filter_cons_False by naive_solver. by apply filter_clean.
Qed.

Lemma abs_path_startswith comps : py_startswith (abs_path comps) "/" = true.
Proof.
  apply bool_decide_eq_true_2. exists (chars (py_join "/" comps)).
  unfold abs_path. by rewrite chars_append.
Qed.

Lemma abspath_abs cwd comps : Forall clean_comp comps → py_abspath cwd (abs_path comps) = abs_path comps.
Proof.
  intros Hxs. unfold py_abspath. rewrite abs_path_startswith.
  destruct comps as [|x xs]; [done|]. by apply normpath_abs.
Qed.

Lemma common_prefix_len_app xs ys : common_prefix_len xs (xs ++ ys) = length xs.
Proof. induction xs as [|x xs IH]; cbn; [by destruct ys|]. by rewrite bool_decide_eq_true_2, IH. Qed.

(** [os.path.join] of clean components is their join with ["/"]. *)
Lemma path_join_clean acc bs :
  acc ≠ "" → py_endswith acc "/" = false → Forall clean_comp bs →
  py_path_join acc bs = py_join "/" (acc :: bs).
Proof.
  unfold py_path_join. revert acc. induction bs as [|b bs IH]; intros acc Hne He Hbs; [done|].
  apply Forall_cons in Hbs as [Hb Hbs]. cbn [foldl].
  assert (Hj : path_join2 acc b = (acc +:+ "/" +:+ b)%string).
  { unfold path_join2. rewrite clean_startswith, He by done.
    by rewrite bool_decide_eq_false_2. }
  assert (Hne' : (acc +:+ "/" +:+ b)%string ≠ "") by (destruct acc; cbn; done).
  assert (He' : py_endswith (acc +:+ "/" +:+ b) "/" = false).
  { apply bool_decide_eq_false_2. intros Hs. destruct Hb as (Hb0 & _ & _ & Hb).
    apply Hb, suffix_single_elem. rewrite !chars_append, app_assoc in Hs.
    eapply suffix_single_app; [|exact Hs]. by destruct b. }
  rewrite Hj, IH by done.
  destruct bs as [|b' bs]; [done|].
  change (py_join "/" (acc :: b :: b' :: bs)) with
    (acc +:+ "/" +:+ (b +:+ "/" +:+ py_join "/" (b' :: bs)))%string.
  change (py_join "/" ((acc +:+ "/" +:+ b) :: b' :: bs)) with
    ((acc +:+ "/" +:+ b) +:+ "/" +:+ py_join "/" (b' :: bs))%string.
  by rewrite !str_app_assoc.
Qed.

Lemma startswith_app s t p : py_startswith s p = true → py_startswith (s +:+ t) p = true.
Proof.
  intros Hs. apply bool_decide_eq_true_1 in Hs. apply bool_decide_eq_true_2.
  rewrite chars_append. by apply prefix_app_r.
Qed.

Lemma abs_path_endswith x xs :
  Forall clean_comp (x :: xs) → py_endswith (abs_path (x :: xs)) "/" = false.
Proof.
  intros Hxs. pose proof (clean_join_endswith x xs Hxs) as He.
  apply bool_decide_eq_false_1 in He. apply bool_decide_eq_false_2. intros Hs. apply He.
  unfold abs_path in Hs. rewrite chars_append in Hs. eapply suffix_single_app; [|exact Hs].
  destruct (chars_join_cons x xs) as [t ->].
  apply Forall_cons in Hxs as [Hx _]. by destruct (clean_chars x Hx) as (c & t' & -> & _).
Qed.

(** The [relpath] of [get_project_name], from the root's directory
    [base_root] to a clean path below it, is the rest of the path. *)
Lemma relpath_clean cwd rc l0 ls :
  Forall clean_comp (rc ++ l0 :: ls) →
  py_relpath cwd (abs_path (rc ++ l0 :: ls))
    (match rc with [] => "/" | _ => abs_path rc +:+ "/" end) = py_join "/" (l0 :: ls).
Proof.
  intros Hc. pose proof Hc as Hc'. apply Forall_app in Hc' as [Hrc Hl].
  unfold py_relpath.
  assert (Hs : nonempty_comps
                 (py_abspath cwd (match rc with [] => "/" | _ => abs_path rc +:+ "/" end)) = rc).
  { destruct rc as [|r rs]; [done|]. unfold py_abspath.
    rewrite startswith_app by apply abs_path_startswith.
    rewrite normpath_abs_slash by done. by apply nonempty_comps_abs. }
  rewrite Hs, abspath_abs, nonempty_comps_abs by done.
  rewrite common_prefix_len_app, Nat.sub_diag, drop_app_length. cbn [replicate app].
  apply Forall_cons in Hl as [Hl0 Hls].
  apply path_join_clean; [by destruct Hl0| |done].
  exact (clean_join_endswith l0 [] (Forall_cons_2 _ _ _ Hl0 (Forall_nil_2 _))).
Qed.

(** ** Theorems *)

(** C27: every file that passes the extension filter of [process_file]
    gets a language of the table: the extension list of the
    configuration and the table of [get_file_language] agree, so no
    indexed chunk is labelled ["unknown"]. *)
Theorem included_file_has_language file_path :
  extension_included ingest_config file_path = true →
  get_file_language file_path ≠ "unknown".
Proof.
  unfold extension_included, get_file_language. rewrite py_in_spec.
  generalize (file_extension file_path) as e. intros e He.
  repeat (apply elem_of_cons in He as [->|He]; [vm_compute; congruence|]).
  by apply elem_of_nil in He.
Qed.

Lemma included_file_has_language_witness :
  extension_included ingest_config "/proj/alpha/src/main.py" = true ∧
  get_file_language "/proj/alpha/src/main.py" ≠ "unknown".
Proof.
  assert (H : extension_included ingest_config "/proj/alpha/src/main.py" = true)
    by (vm_compute; reflexivity).
  split; [exact H | apply included_file_has_language, H].
Defined.

(** C11: [get_project_name] returns the path segment that follows the
    root (spec 4.4, metadata derivation).  For a root and a file given
    as absolute paths of clean components (no empty, ["."] or [".."]
    component), the project of a file below the root is the component
    right after the root's, and ["root_level_project"] for a file
    directly in the root. *)
Theorem get_project_name_clean cwd rc proj rest :
  Forall clean_comp (rc ++ proj :: rest) →
  get_project_name cwd (abs_path (rc ++ proj :: rest)) [abs_path rc] =
  match rest with [] => "root_level_project" | _ => proj end.
Proof.
  intros Hc. pose proof Hc as Hc'. apply Forall_app in Hc' as [Hrc Hl].
  unfold get_project_name.
  assert (Hb : (if py_endswith (abs_path rc) "/" then abs_path rc else abs_path rc +:+ "/")%string
               = match rc with [] => "/" | _ => abs_path rc +:+ "/" end)
    by (destruct rc as [|r rs]; [done|]; by rewrite abs_path_endswith).
  rewrite Hb.
  assert (Hst : py_startswith (abs_path (rc ++ proj :: rest))
                  (match rc with [] => "/" | _ => abs_path rc +:+ "/" end) = true).
  { destruct rc as [|r rs]; [apply abs_path_startswith|].
    unfold abs_path. rewrite py_join_app by done. rewrite !str_app_assoc.
    apply bool_decide_eq_true_2. rewrite !chars_append. by eexists. }
  rewrite Hst, relpath_clean by done.
  apply Forall_cons in Hl as [Hp Hrest].
  destruct rest as [|r rs].
  - rewrite bool_decide_eq_false_2; [done|]. by destruct Hp as (_ & _ & _ & ?).
  - rewrite bool_decide_eq_true_2.
    + rewrite (py_split_on_join sep) by (done || (eapply Forall_impl;
        [exact (Forall_cons_2 _ _ _ Hp Hrest)|]; by intros y (_ & _ & _ & ?))). done.
    + change (py_join "/" (proj :: r :: rs)) with (proj +:+ "/" +:+ py_join "/" (r :: rs))%string.
      rewrite !chars_append. set_solver.
Qed.

Lemma get_project_name_clean_witness :
  Forall clean_comp (["home"; "dev"] ++ "alpha" :: ["src"; "main.py"]) ∧
  get_project_name "/" (abs_path (["home"; "dev"] ++ "alpha" :: ["src"; "main.py"]))
    [abs_path ["home"; "dev"]] = "alpha".
Proof.
  assert (Hc : Forall clean_comp (["home"; "dev"] ++ "alpha" :: ["src"; "main.py"])).
  { cbn. repeat constructor; unfold clean_comp; repeat split; try discriminate;
      apply (bool_decide_eq_false_1 (sep ∈ _)); vm_compute; reflexivity. }
  split; [exact Hc|]. exact (get_project_name_clean "/" _ _ _ Hc).
Defined.
