(* ===== verification/Client.v ===== *)
(** The connection parameters of the vector-store client: lines 55-62
    of [src/ingest.py] (the same code is lines 15-17 of [src/stats.py]
    and lines 10-12 of [src/clear.py], the latter with 443 as the
    default port).

    [CHROMADB_HOST] is parsed by [urllib.parse.urlparse]; the client is
    given [parsed_url.hostname] and [parsed_url.port], or [CHROMADB_PORT]
    when the port is missing (or 0), always with [ssl=True].  [urlparse]
    is a library: the parts used here ([urlsplit]'s scheme and netloc,
    the [hostname] and [port] properties) are written after CPython
    3.12's [urllib/parse.py], on ASCII strings (its NFKC check of the
    netloc is then a no-op).  The validation of a bracketed IPv6 host
    goes through the [ipaddress] module, which is the parameter
    [bracketed_host_ok].  A [ValueError] of [urlparse] is caught by the
    [except Exception] of [initialize_components], which then returns
    [False]: the result is [None].

    The theorems: the URL round trip for [scheme://host:port/path]
    ([connect_target_roundtrip]), the exact error condition on the port
    ([connect_target_port_error]), and a [host:port] without scheme
    losing both ([connect_target_no_scheme]). *)

From Stdlib Require Import Ascii String DecimalString DecimalNat.
From S2P Require Import Prelude PyStr.

(** ** Python string helpers on [list ascii] *)

(** [s.partition(c)]: the part before the first [c], whether there is
    one, and the part after it. *)
Fixpoint py_partition (c : ascii) (l : list ascii) : list ascii * bool * list ascii :=
  match l with
  | [] => ([], false, [])
  | x :: l' =>
      if decide (x = c) then ([], true, l')
      else let '(a, f, b) := py_partition c l' in (x :: a, f, b)
  end.

(** [s.rpartition(c)]: around the last [c]; [('', '', s)] without one. *)
Definition py_rpartition (c : ascii) (l : list ascii) : list ascii * bool * list ascii :=
  let '(a, f, b) := py_partition c (rev l) in
  if f then (rev b, true, rev a) else ([], false, l).

(** [s.find(c)], as [None] for [-1]. *)
Fixpoint py_find (c : ascii) (l : list ascii) : option nat :=
  match l with
  | [] => None
  | x :: l' => if decide (x = c) then Some 0 else S <$> py_find c l'
  end.

Fixpoint take_while (P : ascii → bool) (l : list ascii) : list ascii :=
  match l with
  | [] => []
  | x :: l' => if P x then x :: take_while P l' else []
  end.

Fixpoint drop_while (P : ascii → bool) (l : list ascii) : list ascii :=
  match l with
  | [] => []
  | x :: l' => if P x then drop_while P l' else l
  end.

Definition is_ascii_alpha (c : ascii) : bool :=
  let n := nat_of_ascii c in ((65 <=? n) && (n <=? 90)) || ((97 <=? n) && (n <=? 122)).

(** ** [urlsplit] *)

(** [_WHATWG_C0_CONTROL_OR_SPACE] and [_UNSAFE_URL_BYTES_TO_REMOVE]. *)
Definition c0_or_space (c : ascii) : bool := nat_of_ascii c <=? 32.

Definition unsafe_byte (c : ascii) : bool :=
  bool_decide (c ∈ ["009"; "010"; "013"]%char).

Definition scheme_chars : list ascii :=
  chars "abcdefghijklmnopqrstuvwxyzABCDEFGHIJKLMNOPQRSTUVWXYZ0123456789+-.".

(** [url = url.lstrip(...)] and the removal of tab, LF and CR. *)
Definition url_clean (url : list ascii) : list ascii :=
  filter (λ c, unsafe_byte c = false) (drop_while c0_or_space url).

(** [i = url.find(':')] and the scheme test: what follows the scheme,
    or the whole URL when there is none. *)
Definition after_scheme (url : list ascii) : list ascii :=
  match py_find ":"%char url, url with
  | Some i, c :: _ =>
      if (0 <? i) && is_ascii_alpha c && forallb (λ x, bool_decide (x ∈ scheme_chars)) (take i url)
      then drop (S i) url else url
  | _, _ => url
  end.

(** [if url[:2] == '//': netloc, url = _splitnetloc(url, 2)]: up to the
    first ['/'], ['?'] or ['#']. *)
Definition split_netloc (rest : list ascii) : list ascii :=
  if decide (take 2 rest = chars "//") then
    take_while (λ c, negb (bool_decide (c ∈ chars "/?#"))) (drop 2 rest)
  else [].

Section Urlparse.
(** [ipaddress]'s verdict on a host written in brackets. *)
Context (bracketed_host_ok : list ascii → bool).

(** [_check_bracketed_netloc] *)
Definition check_bracketed_netloc (netloc : list ascii) : bool :=
  let '(_, _, host_and_port) := py_rpartition "@"%char netloc in
  let '(before, have_open_br, bracketed) := py_partition "["%char host_and_port in
  if have_open_br then
    match before with
    | [] =>
        let '(hostname, _, port) := py_partition "]"%char bracketed in
        match port with
        | [] => bracketed_host_ok hostname
        | c :: _ => if decide (c = ":"%char) then bracketed_host_ok hostname else false
        end
    | _ => false
    end
  else let '(hostname, _, _) := py_partition ":"%char host_and_port in bracketed_host_ok hostname.

(** The netloc of [urlsplit(url)], [None] for its [ValueError]s. *)
Definition urlsplit_netloc (url : string) : option (list ascii) :=
  let netloc := split_netloc (after_scheme (url_clean (chars url))) in
  let o := bool_decide ("["%char ∈ netloc) in
  let cl := bool_decide ("]"%char ∈ netloc) in
  if (o && negb cl) || (cl && negb o) then None
  else if o && cl then (if check_bracketed_netloc netloc then Some netloc else None)
  else Some netloc.
End Urlparse.

(** [_hostinfo]: the host and the port text of a netloc. *)
Definition hostinfo (netloc : list ascii) : list ascii * option (list ascii) :=
  let '(_, _, hi) := py_rpartition "@"%char netloc in
  let '(_, have_open_br, bracketed) := py_partition "["%char hi in
  let '(hostname, port) :=
    if have_open_br then
      let '(h, _, rest) := py_partition "]"%char bracketed in
      let '(_, _, p) := py_partition ":"%char rest in (h, p)
    else let '(h, _, p) := py_partition ":"%char hi in (h, p) in
  (hostname, match port with [] => None | _ => Some port end).

(** The [hostname] property: [None] when empty, lowercased up to a
    zone index ['%']. *)
Definition url_hostname (netloc : list ascii) : option string :=
  match (hostinfo netloc).1 with
  | [] => None
  | h =>
      let '(a, pct, zone) := py_partition "%"%char h in
      Some (of_chars (map ascii_lower a ++ (if pct then "%"%char :: zone else [])))
  end.

(** [int(port)] of an ASCII decimal string. *)
Definition port_value (p : list ascii) : option Z :=
  (λ u, Z.of_nat (Nat.of_uint u)) <$> NilEmpty.uint_of_string (of_chars p).

(** The [port] property: [Some None] without a port, [None] for its
    [ValueError] (not digits, or outside [0..65535]). *)
Definition url_port (netloc : list ascii) : option (option Z) :=
  match (hostinfo netloc).2 with
  | None => Some None
  | Some p =>
      match port_value p with
      | Some n => if decide (0 ≤ n ≤ 65535)%Z then Some (Some n) else None
      | None => None
      end
  end.

(** ** The client's parameters *)

(** Lines 16-17. *)
Definition CHROMADB_HOST : string := "server_url".
Definition CHROMADB_PORT : Z := 0.

(** Lines 55-62: [host] and [port] given to [chromadb.HttpClient], or
    [None] when [urlparse] raises. *)
Definition connect_target (bracketed_host_ok : list ascii → bool) (chromadb_host : string)
    (chromadb_port : Z) : option (option string * Z) :=
  match urlsplit_netloc bracketed_host_ok chromadb_host with
  | None => None
  | Some netloc =>
      match url_port netloc with
      | None => None
      | Some port =>
          Some (url_hostname netloc,
                match port with Some n => if decide (n = 0%Z) then chromadb_port else n
                              | None => chromadb_port end)
      end
  end.

(** ** Well-formed URLs *)

(** A scheme [urlsplit] accepts: an ASCII letter, then scheme
    characters. *)
Definition scheme_ok (s : list ascii) : Prop :=
  match s with c :: _ => is_ascii_alpha c = true | [] => False end ∧
  Forall (λ c, c ∈ scheme_chars) s.

(** Printable characters outside a set. *)
Definition plain (bad : string) (l : list ascii) : Prop :=
  Forall (λ c, 32 < nat_of_ascii c ∧ c ∉ chars bad) l.

(** A path, query or fragment after the netloc. *)
Definition tail_ok (path : list ascii) : Prop :=
  Forall (λ c, 32 < nat_of_ascii c) path ∧
  match path with [] => True | c :: _ => c ∈ chars "/?#" end.

(** [scheme://host:port<path>] *)
Definition url_of (scheme host port path : list ascii) : string :=
  of_chars (scheme ++ ":" :: "/" :: "/" :: host ++ ":" :: port ++ path)%char.

(** ** Lemmas on the string helpers *)

Lemma py_partition_app c l1 l2 : c ∉ l1 → py_partition c (l1 ++ c :: l2) = (l1, true, l2).
Proof.
  induction l1 as [|x l1 IH]; intros Hc; cbn; [by rewrite decide_True|].
  apply not_elem_of_cons in Hc as [Hx Hc]. rewrite decide_False by congruence. by rewrite IH.
Qed.

Lemma py_partition_none c l : c ∉ l → py_partition c l = (l, false, []).
Proof.
  induction l as [|x l IH]; intros Hc; [done|]. cbn.
  apply not_elem_of_cons in Hc as [Hx Hc]. rewrite decide_False by congruence. by rewrite IH.
Qed.

Lemma py_rpartition_none c l : c ∉ l → py_rpartition c l = ([], false, l).
Proof.
  intros Hc. unfold py_rpartition. rewrite py_partition_none; [done|].
  rewrite list_elem_of_In, <- in_rev, <- list_elem_of_In. done.
Qed.

Lemma py_find_app c l1 l2 : c ∉ l1 → py_find c (l1 ++ c :: l2) = Some (length l1).
Proof.
  induction l1 as [|x l1 IH]; intros Hc; cbn; [by rewrite decide_True|].
  apply not_elem_of_cons in Hc as [Hx Hc]. rewrite decide_False by congruence. by rewrite IH.
Qed.

Lemma take_while_app (P : ascii → bool) l1 l2 :
  Forall (λ x, P x = true) l1 → match l2 with [] => True | c :: _ => P c = false end →
  take_while P (l1 ++ l2) = l1.
Proof.
  intros H1 H2. induction H1 as [|x l1 Hx _ IH]; cbn; [by destruct l2 as [|c l2]; cbn; rewrite ?H2|].
  by rewrite Hx, IH.
Qed.

Lemma url_clean_id l : Forall (λ c, 32 < nat_of_ascii c) l → url_clean l = l.
Proof.
  intros Hl. unfold url_clean.
  assert (Hd : drop_while c0_or_space l = l).
  { destruct l as [|c l]; [done|]. apply Forall_cons in Hl as [Hc _]. cbn.
    unfold c0_or_space. by rewrite (proj2 (Nat.leb_gt _ _) Hc). }
  rewrite Hd. clear Hd. induction Hl as [|c l Hc _ IH]; [done|].
  rewrite filter_cons_True, IH; [done|]. unfold unsafe_byte. apply bool_decide_eq_false_2.
  rewrite !elem_of_cons, elem_of_nil. intros [->|[->|[->|[]]]]; vm_compute in Hc; lia.
Qed.

Lemma drop_app_cons (l1 l2 : list ascii) x : drop (S (length l1)) (l1 ++ x :: l2) = l2.
Proof. by induction l1. Qed.

Lemma plain_printable bad l : plain bad l → Forall (λ c, 32 < nat_of_ascii c) l.
Proof. intros Hl. eapply Forall_impl; [done|]. naive_solver. Qed.

Lemma plain_not_elem bad l c : plain bad l → c ∈ chars bad → c ∉ l.
Proof.
  intros Hl Hc Hin. unfold plain in Hl. rewrite Forall_forall in Hl.
  destruct (Hl c Hin) as [_ Hn]. contradiction.
Qed.

Lemma scheme_chars_plain : plain ":/?#@[]%" scheme_chars.
Proof. by apply (bool_decide_unpack _). Qed.

Lemma digits_plain : plain "/?#@[]" (chars "0123456789").
Proof. by apply (bool_decide_unpack _). Qed.

Lemma scheme_ok_plain s : scheme_ok s → plain ":/?#@[]%" s.
Proof.
  intros [_ Hs]. eapply Forall_impl; [done|]. intros c Hc.
  pose proof scheme_chars_plain as Hp. unfold plain in Hp. rewrite Forall_forall in Hp.
  by apply Hp.
Qed.

(** The scheme and its colon are cut off. *)
Lemma after_scheme_ok s rest : scheme_ok s → after_scheme (s ++ ":" :: rest)%char = rest.
Proof.
  intros Hs. pose proof (scheme_ok_plain s Hs) as Hp. destruct Hs as [Ha Hs].
  unfold after_scheme. rewrite py_find_app by (eapply plain_not_elem; [done|by left]).
  rewrite take_app_length, drop_app_cons.
  destruct s as [|c s]; [done|]. cbn [app]. rewrite Ha.
  erewrite (proj2 (forallb_forall _ (c :: s))); [done|].
  intros x Hx. apply bool_decide_eq_true_2.
  rewrite Forall_forall in Hs. by apply Hs, list_elem_of_In.
Qed.

(** [_splitnetloc] stops at the path. *)
Lemma split_netloc_ok n path :
  Forall (λ c, c ∉ chars "/?#") n → match path with [] => True | c :: _ => c ∈ chars "/?#" end →
  split_netloc ("/" :: "/" :: n ++ path)%char = n.
Proof.
  intros Hn Hp. unfold split_netloc. rewrite decide_True by done. cbn [drop].
  apply take_while_app.
  - eapply Forall_impl; [done|]. intros c Hc. by rewrite bool_decide_eq_false_2.
  - destruct path; [done|]. by rewrite bool_decide_eq_true_2.
Qed.

(** [_hostinfo] of [host:port]. *)
Lemma hostinfo_ok h ps :
  plain ":@[" h → plain "@[" ps → ps ≠ [] → hostinfo (h ++ ":" :: ps)%char = (h, Some ps).
Proof.
  intros Hh Hps Hne.
  assert (Hin : ∀ c, c ∈ chars "@[" → c ∉ (h ++ ":" :: ps)%char).
  { intros c Hc. rewrite elem_of_app, elem_of_cons. intros [H|[->|H]].
    - eapply plain_not_elem; [apply Hh| |done].
      assert (Hsub : chars "@[" ⊆ chars ":@[") by (by apply (bool_decide_unpack _)). by apply Hsub.
    - revert Hc. by apply (bool_decide_unpack _).
    - by eapply plain_not_elem. }
  unfold hostinfo. rewrite py_rpartition_none by (apply Hin; by apply (bool_decide_unpack _)).
  rewrite py_partition_none by (apply Hin; by apply (bool_decide_unpack _)).
  rewrite py_partition_app by (eapply plain_not_elem; [done|by left]).
  by destruct ps.
Qed.

Lemma plain_weaken bad bad' l : chars bad' ⊆ chars bad → plain bad l → plain bad' l.
Proof. intros Hsub Hl. eapply Forall_impl; [done|]. intros c [? Hc]. split; [done|]. set_solver. Qed.

(** No delimiter of the netloc occurs in [host:port]. *)
Lemma hostport_no_delim h ps c :
  plain ":/?#@[]%" h → plain "/?#@[]" ps → c ∈ chars "/?#@[]" → c ∉ (h ++ ":" :: ps)%char.
Proof.
  intros Hh Hps Hc. rewrite elem_of_app, elem_of_cons. intros [H|[->|H]].
  - eapply plain_not_elem; [apply Hh| |done].
    assert (Hsub : chars "/?#@[]" ⊆ chars ":/?#@[]%") by (by apply (bool_decide_unpack _)).
    by apply Hsub.
  - revert Hc. by apply (bool_decide_unpack _).
  - by eapply plain_not_elem.
Qed.

Ltac printable :=
  repeat first [apply Forall_app_2 | apply Forall_cons_2];
  first [ by eapply plain_printable, scheme_ok_plain | by eapply plain_printable | done
        | vm_compute; lia ].

(** What the client is given for [scheme://host:port<path>]: the
    lowercased host, and the port, [CHROMADB_PORT] for port 0, or the
    [ValueError] of a port that is not digits or exceeds 65535. *)
Lemma connect_target_url ok s h ps path d :
  scheme_ok s → plain ":/?#@[]%" h → h ≠ [] → plain "/?#@[]" ps → ps ≠ [] → tail_ok path →
  connect_target ok (url_of s h ps path) d =
    match port_value ps with
    | Some n => if decide (0 ≤ n ≤ 65535)%Z
                then Some (Some (of_chars (map ascii_lower h)), if decide (n = 0%Z) then d else n)
                else None
    | None => None
    end.
Proof.
  intros Hs Hh Hhne Hps Hpsne [Hpath Hp0].
  pose proof (hostport_no_delim h ps) as Hnl.
  unfold connect_target, urlsplit_netloc, url_of. rewrite chars_of_chars.
  rewrite url_clean_id by printable. rewrite after_scheme_ok by done.
  rewrite (app_comm_cons ps path ":"%char), app_assoc, split_netloc_ok; [| |done].
  2: { apply Forall_forall. intros c Hc Hc'. apply (Hnl c Hh Hps); [|done].
       assert (Hsub : chars "/?#" ⊆ chars "/?#@[]") by (by apply (bool_decide_unpack _)).
       by apply Hsub. }
  rewrite !bool_decide_eq_false_2 by (apply Hnl; [done|done|by apply (bool_decide_unpack _)]).
  cbn [andb orb negb]. unfold url_port, url_hostname. rewrite hostinfo_ok; cycle 1.
  { eapply plain_weaken; [|done]. by apply (bool_decide_unpack _). }
  { eapply plain_weaken; [|done]. by apply (bool_decide_unpack _). }
  { done. }
  cbn [fst snd orb andb negb]. destruct h as [|c h]; [done|].
  rewrite py_partition_none by (eapply plain_not_elem; [done|by apply (bool_decide_unpack _)]).
  rewrite app_nil_r. destruct (port_value ps); [|done]. by case_decide.
Qed.

(** ** Port text *)

Lemma port_value_nonneg p n : port_value p = Some n → (0 ≤ n)%Z.
Proof. unfold port_value. destruct (NilEmpty.uint_of_string _); intros [= <-]. lia. Qed.

Lemma string_of_uint_digits u :
  Forall (λ c, c ∈ chars "0123456789") (chars (NilEmpty.string_of_uint u)).
Proof.
  induction u; unfold chars in *; cbn; [done|..];
    (apply Forall_cons; split; [by apply (bool_decide_unpack _)|done]).
Qed.

Lemma digits_plain_all l : Forall (λ c, c ∈ chars "0123456789") l → plain "/?#@[]" l.
Proof.
  intros Hl. eapply Forall_impl; [done|]. intros c Hc.
  pose proof digits_plain as Hp. unfold plain in Hp. rewrite Forall_forall in Hp. by apply Hp.
Qed.

Lemma to_uint_nonnil n : Nat.to_uint n ≠ Decimal.Nil.
Proof.
  intros H. pose proof (Unsigned.of_to n) as E. rewrite H in E. cbn in E. subst n.
  vm_compute in H. discriminate.
Qed.

Lemma str_of_nat_nonempty n : chars (str_of_nat n) ≠ [].
Proof. unfold str_of_nat. pose proof (to_uint_nonnil n). by destruct (Nat.to_uint n). Qed.

Lemma port_value_str_of_nat n : port_value (chars (str_of_nat n)) = Some (Z.of_nat n).
Proof.
  unfold port_value, str_of_nat. rewrite of_chars_chars, NilEmpty.usu. cbn.
  by rewrite Unsigned.of_to.
Qed.

(** ** Properties *)

(** C23: the URL round trip.  For [CHROMADB_HOST] written as
    [scheme://host:port/path] with the port printed in decimal and at
    most 65535, the client is given the lowercased host and that port,
    or [CHROMADB_PORT] when the port is 0. *)
Theorem connect_target_roundtrip ok s h n path d :
  scheme_ok s → plain ":/?#@[]%" h → h ≠ [] → tail_ok path → (Z.of_nat n ≤ 65535)%Z →
  connect_target ok (url_of s h (chars (str_of_nat n)) path) d =
    Some (Some (of_chars (map ascii_lower h)), if decide (n = 0) then d else Z.of_nat n).
Proof.
  intros Hs Hh Hhne Hp Hn.
  rewrite connect_target_url; try done.
  - rewrite port_value_str_of_nat, decide_True by lia. do 2 f_equal.
    case_decide; case_decide; lia || done.
  - apply digits_plain_all, string_of_uint_digits.
  - apply str_of_nat_nonempty.
Qed.

(** C24: the error path of the port.  For [scheme://host:port/path],
    the client gets no parameters (the [ValueError] of [urlparse]'s
    [port], caught by [initialize_components]) exactly when the port
    text is not all decimal digits or its value exceeds 65535. *)
Theorem connect_target_port_error ok s h ps path d :
  scheme_ok s → plain ":/?#@[]%" h → h ≠ [] → plain "/?#@[]" ps → ps ≠ [] → tail_ok path →
  connect_target ok (url_of s h ps path) d = None ↔
    port_value ps = None ∨ ∃ n, port_value ps = Some n ∧ (65535 < n)%Z.
Proof.
  intros Hs Hh Hhne Hps Hpsne Hp. rewrite connect_target_url by done.
  destruct (port_value ps) as [n|] eqn:E; [|naive_solver].
  pose proof (port_value_nonneg _ _ E). case_decide; split; naive_solver lia.
Qed.

(** C30: a [CHROMADB_HOST] without a scheme is not a host.  When it is
    [host:port] with a host made of scheme characters (as in
    [localhost:8000] or [chroma.example.com:8000]), [urlparse] reads
    [host] as the scheme and the netloc is empty: the client is given
    no host and [CHROMADB_PORT], whatever the port written. *)
Theorem connect_target_no_scheme ok h ps d :
  scheme_ok h → Forall (λ c, c ∈ chars "0123456789") ps →
  connect_target ok (of_chars (h ++ ":" :: ps)%char) d = Some (None, d).
Proof.
  intros Hh Hps. pose proof (digits_plain_all ps Hps) as Hpp.
  unfold connect_target, urlsplit_netloc. rewrite chars_of_chars.
  rewrite url_clean_id by printable. rewrite after_scheme_ok by done.
  assert (Hn : split_netloc ps = []).
  { unfold split_netloc. destruct ps as [|c ps]; [done|].
    rewrite decide_False; [done|]. cbn. intros [= Hc _].
    apply Forall_cons in Hps as [Hd _]. subst c. revert Hd. by apply (bool_decide_unpack _). }
  by rewrite Hn.
Qed.

(** ** Witnesses *)

Ltac url_side :=
  first [ split; [reflexivity | by apply (bool_decide_unpack _)]
        | by apply (bool_decide_unpack _)
        | split; by apply (bool_decide_unpack _)
        | apply Z.leb_le; reflexivity
        | discriminate ].

Lemma connect_target_roundtrip_witness :
  scheme_ok (chars "https") ∧ plain ":/?#@[]%" (chars "Chroma.Example.com") ∧ tail_ok (chars "/api") ∧
  connect_target (λ _, true) "https://Chroma.Example.com:8443/api" CHROMADB_PORT =
    Some (Some "chroma.example.com", 8443%Z).
Proof.
  split_and!; [url_side..|].
  apply (connect_target_roundtrip (λ _, true) (chars "https") (chars "Chroma.Example.com") 8443
           (chars "/api") CHROMADB_PORT); url_side.
Defined.

Lemma connect_target_port_error_witness :
  scheme_ok (chars "https") ∧ plain "/?#@[]" (chars "99999") ∧
  connect_target (λ _, true) "https://chroma:99999" CHROMADB_PORT = None.
Proof.
  split_and!; [url_side..|].
  apply (proj2 (connect_target_port_error (λ _, true) (chars "https") (chars "chroma")
                  (chars "99999") [] CHROMADB_PORT ltac:(url_side) ltac:(url_side) ltac:(url_side)
                  ltac:(url_side) ltac:(url_side) ltac:(split; done))).
  right. exists 99999%Z. split; [reflexivity|]. apply Z.ltb_lt. reflexivity.
Defined.

Lemma connect_target_no_scheme_witness :
  scheme_ok (chars "localhost") ∧
  connect_target (λ _, true) "localhost:8000" 8000 = Some (None, 8000%Z).
Proof.
  split; [url_side|].
  apply (connect_target_no_scheme (λ _, true) (chars "localhost") (chars "8000") 8000); [url_side|].
  by apply (bool_decide_unpack _).
Defined.

(** The configured [CHROMADB_HOST] is a placeholder without a scheme:
    the client is given no host and port 0. *)
Example connect_target_configured : connect_target (λ _, true) CHROMADB_HOST CHROMADB_PORT = Some (None, 0%Z).
Proof. by vm_compute. Qed.
