(* ===== verification/Store.v ===== *)
(** The vector collection (ChromaDB) as the program uses it.

    [src/ingest.py] stores one record per embedded chunk: an id, the
    embedding, the chunk text and a metadata dict (lines 225-235), and
    calls two operations of the collection: [add] (238-243) and
    [delete(where={"file_path": p})] (200, 260).  [src/stats.py] reads
    the records back with [get]; [src/clear.py] drops the collection.

    The collection is an external service, so it enters the development
    as an interface: the class [Collection] of its operations and the
    class [CollectionLaws] of what the engine relies on, stated up to
    permutation since a store does not promise an order.  The engine's
    theorems are proved against the laws; [list_collection] is an
    implementation that discharges them and runs the examples. *)

From S2P Require Import Prelude.

(** ** Records *)

(** The metadata dict of lines 225-231. *)
Record Metadata := mkMetadata {
  md_file_path : string;
  md_project_name : string;
  md_language : string;
  md_chunk_id : string;
  md_last_accessed_timestamp : string;
}.

(** One record of the collection: [ids], [embeddings], [documents] and
    [metadatas] of the [add] call are parallel lists of these fields.
    Embedding components are floats in the program; the engine only
    tests the vector for emptiness, so they are kept as integers. *)
Record VectorRecord := mkVectorRecord {
  vr_id : string;
  vr_embedding : list Z;
  vr_document : string;
  vr_metadata : Metadata;
}.

Definition record_path (r : VectorRecord) : string := md_file_path (vr_metadata r).

(** The records whose metadata [file_path] is [p]: what
    [delete(where={"file_path": p})] removes. *)
Definition records_of (p : string) (rs : list VectorRecord) : list VectorRecord :=
  filter (λ r, record_path r = p) rs.

(** ** The interface *)

Class Collection (C : Type) := {
  coll_records : C → list VectorRecord;
  coll_add : list VectorRecord → C → C;
  coll_delete_where_file : string → C → C;
}.

Class CollectionLaws (C : Type) `{Collection C} := {
  coll_records_add b c : coll_records (coll_add b c) ≡ₚ coll_records c ++ b;
  coll_records_delete p c :
    coll_records (coll_delete_where_file p c) ≡ₚ
    filter (λ r, record_path r ≠ p) (coll_records c);
}.

(** Two collections are equivalent when they hold the same records. *)
Definition coll_equiv {C} `{Collection C} (c1 c2 : C) : Prop :=
  coll_records c1 ≡ₚ coll_records c2.

(** ** The list implementation *)

#[export] Instance list_collection : Collection (list VectorRecord) := {
  coll_records c := c;
  coll_add b c := c ++ b;
  coll_delete_where_file p c := filter (λ r, record_path r ≠ p) c;
}.

#[export] Instance list_collection_laws : CollectionLaws (list VectorRecord).
Proof. split; intros; reflexivity. Qed.

(** ** Lemmas on [records_of] *)

#[export] Instance records_of_proper p : Proper ((≡ₚ) ==> (≡ₚ)) (records_of p).
Proof. intros l1 l2 Hl. by apply filter_Permutation. Qed.

Lemma records_of_app p l1 l2 : records_of p (l1 ++ l2) = records_of p l1 ++ records_of p l2.
Proof. apply filter_app. Qed.

Lemma records_of_filter_same p l : records_of p (filter (λ r, record_path r ≠ p) l) = [].
Proof.
  induction l as [|r l IH]; [done|]. unfold records_of in *.
  destruct (decide (record_path r = p)).
  - by rewrite filter_cons_False by naive_solver.
  - by rewrite filter_cons_True, filter_cons_False by done.
Qed.

Lemma records_of_nil_iff p l : records_of p l = [] ↔ ∀ r, r ∈ l → record_path r ≠ p.
Proof.
  unfold records_of. induction l as [|r l IH]; [set_solver|].
  rewrite filter_cons. case_decide.
  - split; [done|]. intros Hr. exfalso. apply (Hr r); [left|done].
  - rewrite IH. set_solver.
Qed.

Lemma records_of_elem p l r : r ∈ records_of p l ↔ r ∈ l ∧ record_path r = p.
Proof. unfold records_of. rewrite list_elem_of_filter. naive_solver. Qed.

Lemma records_of_all p l : Forall (λ r, record_path r = p) l → records_of p l = l.
Proof.
  unfold records_of. induction 1 as [|r l Hr Hl IH]; [done|].
  by rewrite filter_cons_True, IH.
Qed.

Lemma records_of_none q p l :
  q ≠ p → Forall (λ r, record_path r = p) l → records_of q l = [].
Proof.
  intros Hne Hl. apply records_of_nil_iff. intros r Hr.
  rewrite Forall_forall in Hl. rewrite Hl by done. congruence.
Qed.

Lemma records_of_filter_other p q l :
  q ≠ p → records_of q (filter (λ r, record_path r ≠ p) l) = records_of q l.
Proof.
  intros Hne. unfold records_of. rewrite list_filter_filter.
  apply list_filter_iff. naive_solver.
Qed.

Section Laws.
Context `{CollectionLaws C}.

#[export] Instance coll_equiv_equivalence : Equivalence (@coll_equiv C _).
Proof. unfold coll_equiv. split; repeat intro; by etrans. Qed.

#[export] Instance coll_add_proper b : Proper (coll_equiv ==> coll_equiv) (coll_add b).
Proof. intros c1 c2 Hc. unfold coll_equiv in *. by rewrite !coll_records_add, Hc. Qed.

#[export] Instance coll_delete_proper p :
  Proper (coll_equiv ==> coll_equiv) (coll_delete_where_file p).
Proof.
  intros c1 c2 Hc. unfold coll_equiv in *.
  rewrite !coll_records_delete. by apply filter_Permutation.
Qed.

Lemma records_of_add p b c :
  records_of p (coll_records (coll_add b c)) ≡ₚ
  records_of p (coll_records c) ++ records_of p b.
Proof. by rewrite coll_records_add, records_of_app. Qed.

Lemma records_of_delete_same p c :
  records_of p (coll_records (coll_delete_where_file p c)) = [].
Proof.
  apply Permutation_nil_r. by rewrite coll_records_delete, records_of_filter_same.
Qed.

Lemma records_of_delete_other p q c :
  q ≠ p →
  records_of q (coll_records (coll_delete_where_file p c)) ≡ₚ records_of q (coll_records c).
Proof. intros Hne. by rewrite coll_records_delete, records_of_filter_other. Qed.

(** Deleting twice is deleting once. *)
Lemma coll_delete_idem p c :
  coll_equiv (coll_delete_where_file p (coll_delete_where_file p c))
             (coll_delete_where_file p c).
Proof.
  unfold coll_equiv. rewrite !coll_records_delete.
  rewrite list_filter_filter. apply reflexive_eq, list_filter_iff. naive_solver.
Qed.
End Laws.
