(* ===== verification/Fingerprint.v ===== *)
(** The content fingerprint of [src/ingest.py]: [calculate_file_hash]
    (lines 164-174), which feeds the bytes of a file to [hashlib.md5()]
    in reads of 8192 bytes and returns the hex digest, or [""] when the
    file cannot be read.

    [hashlib] is a library: its MD5 is written here after RFC 1321,
    on 32-bit words kept as [Z] with their wrap-around written out, and
    the [hashlib] hasher object as the bytes fed to it so far (what
    [update] promises: the digest depends on the concatenation only).
    The read loop is translated from the source. *)

From Stdlib Require Import Ascii String Init.Byte Strings.Byte.
From Equations Require Import Equations.
From S2P Require Import Prelude PyStr.

Local Open Scope Z_scope.

(** ** 32-bit words *)

Definition w32 (x : Z) : Z := x mod 2 ^ 32.

Definition lnot32 (x : Z) : Z := Z.lxor x (Z.ones 32).

Definition rotl32 (x : Z) (c : Z) : Z :=
  Z.lor (w32 (Z.shiftl x c)) (Z.shiftr x (32 - c)).

Definition word_ok (x : Z) : Prop := 0 ≤ x < 2 ^ 32.

(** ** MD5 (RFC 1321) *)

Definition md5_K : list Z :=
  [0xd76aa478; 0xe8c7b756; 0x242070db; 0xc1bdceee; 0xf57c0faf; 0x4787c62a; 0xa8304613; 0xfd469501;
   0x698098d8; 0x8b44f7af; 0xffff5bb1; 0x895cd7be; 0x6b901122; 0xfd987193; 0xa679438e; 0x49b40821;
   0xf61e2562; 0xc040b340; 0x265e5a51; 0xe9b6c7aa; 0xd62f105d; 0x02441453; 0xd8a1e681; 0xe7d3fbc8;
   0x21e1cde6; 0xc33707d6; 0xf4d50d87; 0x455a14ed; 0xa9e3e905; 0xfcefa3f8; 0x676f02d9; 0x8d2a4c8a;
   0xfffa3942; 0x8771f681; 0x6d9d6122; 0xfde5380c; 0xa4beea44; 0x4bdecfa9; 0xf6bb4b60; 0xbebfbc70;
   0x289b7ec6; 0xeaa127fa; 0xd4ef3085; 0x04881d05; 0xd9d4d039; 0xe6db99e5; 0x1fa27cf8; 0xc4ac5665;
   0xf4292244; 0x432aff97; 0xab9423a7; 0xfc93a039; 0x655b59c3; 0x8f0ccc92; 0xffeff47d; 0x85845dd1;
   0x6fa87e4f; 0xfe2ce6e0; 0xa3014314; 0x4e0811a1; 0xf7537e82; 0xbd3af235; 0x2ad7d2bb; 0xeb86d391].

(** The per-round shift amounts. *)
Definition md5_S (i : nat) : Z :=
  let r := (i mod 4)%nat in
  if decide (i < 16)%nat then nth r [7; 12; 17; 22] 0
  else if decide (i < 32)%nat then nth r [5; 9; 14; 20] 0
  else if decide (i < 48)%nat then nth r [4; 11; 16; 23] 0
  else nth r [6; 10; 15; 21] 0.

(** The auxiliary functions F, G, H, I and the message word each round
    reads. *)
Definition md5_F (i : nat) (b c d : Z) : Z :=
  if decide (i < 16)%nat then Z.lor (Z.land b c) (Z.land (lnot32 b) d)
  else if decide (i < 32)%nat then Z.lor (Z.land d b) (Z.land (lnot32 d) c)
  else if decide (i < 48)%nat then Z.lxor b (Z.lxor c d)
  else Z.lxor c (Z.lor b (lnot32 d)).

Definition md5_g (i : nat) : nat :=
  if decide (i < 16)%nat then i
  else if decide (i < 32)%nat then ((5 * i + 1) mod 16)%nat
  else if decide (i < 48)%nat then ((3 * i + 5) mod 16)%nat
  else ((7 * i) mod 16)%nat.

Record md5_state := mkMd5 { md5_a : Z; md5_b : Z; md5_c : Z; md5_d : Z }.

Definition md5_init : md5_state := mkMd5 0x67452301 0xefcdab89 0x98badcfe 0x10325476.

Definition md5_state_ok (st : md5_state) : Prop :=
  word_ok (md5_a st) ∧ word_ok (md5_b st) ∧ word_ok (md5_c st) ∧ word_ok (md5_d st).

Definition byte_val (b : byte) : Z := Z.of_N (Byte.to_N b).

(** The sixteen little-endian words of a 64-byte block. *)
Definition le_words (block : list byte) : list Z :=
  (λ j, byte_val (nth (4 * j)%nat block x00) + 2 ^ 8 * byte_val (nth (4 * j + 1)%nat block x00)
        + 2 ^ 16 * byte_val (nth (4 * j + 2)%nat block x00)
        + 2 ^ 24 * byte_val (nth (4 * j + 3)%nat block x00)) <$> seq 0 16.

Definition md5_round (M : list Z) (st : md5_state) (i : nat) : md5_state :=
  let '(mkMd5 a b c d) := st in
  let f := w32 (md5_F i b c d + a + nth i md5_K 0 + nth (md5_g i) M 0) in
  mkMd5 d (w32 (b + rotl32 f (md5_S i))) b c.

Definition md5_compress (st : md5_state) (block : list byte) : md5_state :=
  let st' := foldl (md5_round (le_words block)) st (seq 0 64) in
  mkMd5 (w32 (md5_a st + md5_a st')) (w32 (md5_b st + md5_b st'))
        (w32 (md5_c st + md5_c st')) (w32 (md5_d st + md5_d st')).

(** Splitting a list into pieces of [n] elements, the last one shorter. *)
Equations? chunks {A} (n : nat) (l : list A) : list (list A) by wf (length l) lt :=
  chunks 0 _ := [];
  chunks (S n) [] := [];
  chunks (S n) (x :: l) := (x :: take n l) :: chunks (S n) (drop n l).
Proof. rewrite length_drop. simpl. lia. Qed.

Definition byte_of_Z (z : Z) : byte :=
  match Byte.of_N (Z.to_N (z mod 256)) with Some b => b | None => x00 end.

(** [n] little-endian bytes of [z]. *)
Definition le_bytes (n : nat) (z : Z) : list byte :=
  (λ j, byte_of_Z (Z.shiftr z (8 * Z.of_nat j))) <$> seq 0 n.

(** The padding: [0x80], zeros up to 56 bytes modulo 64, and the bit
    length modulo 2^64 on 8 little-endian bytes. *)
Definition md5_pad (msg : list byte) : list byte :=
  msg ++ [x80] ++ repeat x00 (Z.to_nat ((55 - Z.of_nat (length msg)) mod 64))
      ++ le_bytes 8 ((8 * Z.of_nat (length msg)) mod 2 ^ 64).

Definition hex_digit (n : Z) : ascii :=
  if decide (n < 10) then ascii_of_nat (48 + Z.to_nat n)%nat else ascii_of_nat (87 + Z.to_nat n)%nat.

(** ["%02x"] of each little-endian byte of a word. *)
Definition word_hex (w : Z) : string :=
  foldr (λ j acc, String (hex_digit (Z.shiftr w (8 * Z.of_nat j + 4) mod 16))
                    (String (hex_digit (Z.shiftr w (8 * Z.of_nat j) mod 16)) acc))
    EmptyString (seq 0 4).

Definition md5_digest_hex (st : md5_state) : string :=
  word_hex (md5_a st) +:+ word_hex (md5_b st) +:+ word_hex (md5_c st) +:+ word_hex (md5_d st).

(** What [hexdigest()] returns: 32 lowercase hexadecimal digits. *)
Definition hex_alphabet : list ascii := chars "0123456789abcdef".

Definition is_hexdigest (s : string) : Prop :=
  length (chars s) = 32%nat ∧ Forall (λ c, c ∈ hex_alphabet) (chars s).

#[export] Instance is_hexdigest_dec s : Decision (is_hexdigest s).
Proof. unfold is_hexdigest. apply _. Defined.

(** The MD5 hex digest of a byte string, in one go. *)
Definition md5_hex (msg : list byte) : string :=
  md5_digest_hex (foldl md5_compress md5_init (chunks 64 (md5_pad msg))).

(** ** [hashlib.md5()] objects *)

(** A hasher is the bytes fed to it so far. *)
Record md5_hasher := mkHasher { hasher_fed : list byte }.

Definition md5_new : md5_hasher := mkHasher [].

Definition md5_update (h : md5_hasher) (chunk : list byte) : md5_hasher :=
  mkHasher (hasher_fed h ++ chunk).

Definition hexdigest (h : md5_hasher) : string := md5_hex (hasher_fed h).

(** ** [calculate_file_hash] *)

(** The contents of a file as [open(..., 'rb')] reads them. *)
Abbreviation bytes := (list byte) (only parsing).

(** The bytes of a text, one per character (Latin-1). *)
Definition string_bytes (text : string) : bytes := list_byte_of_string text.

Definition READ_SIZE : nat := 8192.

(** [while chunk := f.read(8192): hasher.update(chunk)]: [f.read]
    returns the next [8192] bytes, fewer at the end, and [b""] exactly
    when none is left.  The hasher is a parameter, so that the reads
    can be observed. *)
Equations? read_loop {H} (update : H → list byte → H) (h : H) (rest : list byte) : H
    by wf (length rest) lt :=
  read_loop update h [] := h;
  read_loop update h (b :: bs) :=
    read_loop update (update h (take READ_SIZE (b :: bs))) (drop READ_SIZE (b :: bs)).
Proof. rewrite length_drop. unfold READ_SIZE. simpl. lia. Qed.

(** The whole function: [None] when [open] fails, the exception
    handler returning [""]. *)
Definition calculate_file_hash (contents : option (list byte)) : string :=
  match contents with
  | Some data => hexdigest (read_loop md5_update md5_new data)
  | None => ""
  end.

Local Close Scope Z_scope.

(** ** Lists in pieces *)

Section Chunks.
Context {A : Type}.
Implicit Types (l : list A) (cs : list (list A)).

Lemma chunks_cons_take n x l :
  (0 < n)%nat → chunks n (x :: l) = take n (x :: l) :: chunks n (drop n (x :: l)).
Proof. intros. destruct n as [|n]; [lia|]. by simp chunks. Qed.

Lemma chunks_nil n : chunks n (@nil A) = [].
Proof. destruct n; by simp chunks. Qed.

Lemma chunks_ind n (P : list A → list (list A) → Prop) :
  (0 < n)%nat → P [] [] →
  (∀ x l, P (drop n (x :: l)) (chunks n (drop n (x :: l))) →
          P (x :: l) (take n (x :: l) :: chunks n (drop n (x :: l)))) →
  ∀ l, P l (chunks n l).
Proof.
  intros Hn Hnil Hcons l. remember (length l) as m eqn:Hm.
  revert l Hm. induction m as [m IH] using lt_wf_ind. intros l Hm.
  destruct l as [|x l]; [by rewrite chunks_nil|].
  rewrite chunks_cons_take by done. apply Hcons, (IH (length (drop n (x :: l)))); [|done].
  rewrite length_drop, Hm. cbn [length]. lia.
Qed.

Lemma concat_chunks n l : (0 < n)%nat → concat (chunks n l) = l.
Proof.
  intros Hn. apply (chunks_ind n (λ l cs, concat cs = l)); [done..|].
  intros x l' IH. cbn [concat]. by rewrite IH, take_drop.
Qed.

Lemma chunks_sizes n l : Forall (λ c, (0 < length c ≤ n)%nat) (chunks n l).
Proof.
  destruct (decide (n = 0)) as [->|Hn]; [by destruct l; simp chunks|].
  apply (chunks_ind n (λ _ cs, Forall (λ c, (0 < length c ≤ n)%nat) cs)); [lia|done|].
  intros x l' IH. constructor; [|done]. rewrite length_take. cbn [length]. lia.
Qed.

(** [length l] is covered by [length (chunks n l)] pieces, one fewer
    would not do. *)
Lemma length_chunks n l :
  (0 < n)%nat → (length l ≤ length (chunks n l) * n < length l + n)%nat.
Proof.
  intros Hn. apply (chunks_ind n (λ l cs, (length l ≤ length cs * n < length l + n)%nat)); [done|cbn; lia|].
  intros x l' IH. rewrite length_drop in IH. cbn [length] in IH |- *.
  destruct (length (chunks n _)) as [|k]; destruct (decide (n ≤ S (length l'))); nia.
Qed.

Lemma foldl_snoc cs acc : foldl (λ acc c, acc ++ [c]) acc cs = acc ++ cs.
Proof.
  induction cs as [|c cs IH] in acc |- *; cbn; [by rewrite app_nil_r|].
  by rewrite IH, <- app_assoc.
Qed.
End Chunks.

(** ** The read loop *)

Lemma READ_SIZE_pos : (0 < READ_SIZE)%nat.
Proof. apply Nat.ltb_lt. reflexivity. Qed.

(** The loop feeds the hasher the successive pieces of [READ_SIZE]
    bytes. *)
Lemma read_loop_chunks {H} (update : H → bytes → H) h data :
  read_loop update h data = foldl update h (chunks READ_SIZE data).
Proof.
  funelim (read_loop update h data); [by rewrite chunks_nil|].
  rewrite chunks_cons_take by apply READ_SIZE_pos. cbn [foldl]. done.
Qed.

Lemma foldl_md5_update h cs :
  foldl md5_update h cs = mkHasher (hasher_fed h ++ concat cs).
Proof.
  induction cs as [|c cs IH] in h |- *; cbn; [by destruct h; rewrite app_nil_r|].
  by rewrite IH; cbn; rewrite app_assoc.
Qed.

(** ** MD5's padding and digest *)

Lemma length_le_bytes n z : length (le_bytes n z) = n.
Proof. unfold le_bytes. by rewrite length_fmap, length_seq. Qed.

Lemma pad_zeros_spec (L : Z) :
  (0 ≤ (55 - L) mod 64 < 64 ∧ (L + 9 + (55 - L) mod 64) mod 64 = 0)%Z.
Proof.
  split; [apply Z.mod_pos_bound; lia|].
  rewrite Z.add_mod_idemp_r by lia. replace (L + 9 + (55 - L))%Z with 64%Z by lia. done.
Qed.

Lemma length_md5_pad msg :
  length (md5_pad msg) = length msg + 9 + Z.to_nat ((55 - Z.of_nat (length msg)) mod 64).
Proof.
  unfold md5_pad. rewrite !length_app, repeat_length, length_le_bytes. cbn [length]. lia.
Qed.

Lemma hex_digit_ok (n : Z) : (0 ≤ n < 16)%Z → hex_digit n ∈ hex_alphabet.
Proof.
  intros Hn.
  assert (n ∈ [0; 1; 2; 3; 4; 5; 6; 7; 8; 9; 10; 11; 12; 13; 14; 15]%Z) as Hin.
  { rewrite !elem_of_cons, elem_of_nil. lia. }
  revert Hin. generalize n. clear n Hn. apply Forall_forall.
  apply (bool_decide_unpack _). vm_compute. reflexivity.
Qed.

Lemma hex_nibble_ok (w k : Z) : hex_digit (Z.shiftr w k mod 16) ∈ hex_alphabet.
Proof. apply hex_digit_ok, Z.mod_pos_bound. lia. Qed.

Lemma word_hex_ok w :
  length (chars (word_hex w)) = 8 ∧ Forall (λ c, c ∈ hex_alphabet) (chars (word_hex w)).
Proof.
  split; [done|]. unfold word_hex, chars. cbn [seq foldr list_ascii_of_string].
  repeat (apply Forall_cons; split; [apply hex_nibble_ok|]). constructor.
Qed.

Lemma md5_digest_hex_ok st : is_hexdigest (md5_digest_hex st).
Proof.
  unfold is_hexdigest, md5_digest_hex. rewrite !chars_append.
  destruct (word_hex_ok (md5_a st)), (word_hex_ok (md5_b st)),
           (word_hex_ok (md5_c st)), (word_hex_ok (md5_d st)).
  rewrite !length_app, !Forall_app. split; [lia|done].
Qed.


(** ** Properties *)

(** The MD5 model agrees with the test suite of RFC 1321
    (appendix A.5), and with [hashlib] on a file of 20000 bytes, which
    [calculate_file_hash] reads in three pieces. *)
Lemma md5_rfc1321_suite :
  md5_hex (string_bytes "") = "d41d8cd98f00b204e9800998ecf8427e" ∧
  md5_hex (string_bytes "a") = "0cc175b9c0f1b6a831c399e269772661" ∧
  md5_hex (string_bytes "abc") = "900150983cd24fb0d6963f7d28e17f72" ∧
  md5_hex (string_bytes "message digest") = "f96b697d7cb7938d525a2f31aaf161d0" ∧
  md5_hex (string_bytes "abcdefghijklmnopqrstuvwxyz") = "c3fcd3d76192e4007dfb496cca67e13b" ∧
  md5_hex (string_bytes "ABCDEFGHIJKLMNOPQRSTUVWXYZabcdefghijklmnopqrstuvwxyz0123456789")
    = "d174ab98d277d9f5a5611c2c9f419d9f" ∧
  md5_hex (string_bytes
    "12345678901234567890123456789012345678901234567890123456789012345678901234567890")
    = "57edf4a22be3c955ac49da2e2107b67a" ∧
  calculate_file_hash (Some (repeat x61 20000)) = "9bb57f821953f3c232116e38badc8e96".
Proof. vm_compute. repeat split. Qed.

(** C35: reading the file in pieces of 8192 bytes gives the digest of
    the whole file: [calculate_file_hash] of readable contents is the
    MD5 hex digest of all of them. *)
Theorem calculate_file_hash_whole data :
  calculate_file_hash (Some data) = md5_hex data.
Proof.
  unfold calculate_file_hash, hexdigest.
  rewrite read_loop_chunks, foldl_md5_update, concat_chunks by apply READ_SIZE_pos. done.
Qed.

(** C38: the reads of the loop: they are all the bytes of the file in
    order, each read returns between 1 and 8192 bytes, and there are
    [ceil (n / 8192)] of them for a file of [n] bytes. *)
Theorem read_loop_reads data :
  let reads := read_loop (λ acc chunk, acc ++ [chunk]) [] data in
  concat reads = data ∧ Forall (λ c, 0 < length c ≤ READ_SIZE) reads ∧
  length data ≤ length reads * READ_SIZE < length data + READ_SIZE.
Proof.
  cbn zeta. rewrite read_loop_chunks, foldl_snoc. cbn [app].
  split_and!; [apply concat_chunks, READ_SIZE_pos|apply chunks_sizes|apply length_chunks, READ_SIZE_pos..].
Qed.

(** C39: for a file that can be opened, [calculate_file_hash] returns
    32 lowercase hexadecimal digits, whatever the bytes: the hashes the
    ledger records have a fixed format. *)
Theorem calculate_file_hash_format data : is_hexdigest (calculate_file_hash (Some data)).
Proof. apply md5_digest_hex_ok. Qed.

(** C40: [calculate_file_hash] returns [""] exactly when the file cannot
    be opened: the error value never collides with a digest. *)
Theorem calculate_file_hash_empty contents :
  calculate_file_hash contents = "" ↔ contents = None.
Proof.
  split; [|by intros ->]. destruct contents as [data|]; [|done].
  intros Heq. unfold calculate_file_hash, hexdigest, md5_hex in Heq.
  destruct (md5_digest_hex_ok (foldl md5_compress md5_init
    (chunks 64 (md5_pad (hasher_fed (read_loop md5_update md5_new data)))))) as [Hlen _].
  by rewrite Heq in Hlen.
Qed.

(** MD5's padding of a message of [n] bytes keeps the message as
    a prefix and has a length that is a multiple of 64 between [n + 9]
    and [n + 72]: the compression function sees whole blocks, with room
    for the 0x80 marker and the 8-byte length. *)
Lemma md5_pad_blocks msg :
  take (length msg) (md5_pad msg) = msg ∧ length (md5_pad msg) mod 64 = 0 ∧
  length msg + 9 ≤ length (md5_pad msg) ≤ length msg + 72.
Proof.
  rewrite length_md5_pad. split; [unfold md5_pad; apply take_app_length|].
  destruct (pad_zeros_spec (Z.of_nat (length msg))) as [Hr Hm].
  split; [|lia]. apply Nat2Z.inj. rewrite Nat2Z.inj_mod, !Nat2Z.inj_add, Z2Nat.id by lia.
  exact Hm.
Qed.
