(* ===== verification/Engine.v ===== *)
(** The sync engine: [process_file] (lines 176-250) and
    [remove_deleted_file_from_chroma] (252-264) of [src/ingest.py],
    with the helpers they call: [get_embedding] (95-104),
    [get_file_content] (151-162), [calculate_file_hash] (164-174, from [Fingerprint], on the file at a path),
    [os.path.getmtime] and the two collection calls.

    The Python globals ([local_embedding_model], [chroma_collection],
    [processed_files_state]) and the environment (the files on disk,
    the embedding model, the server's answers, [uuid4()],
    [datetime.now()]) are the fields of one record [Sys]; the engine's
    functions are computations of the monad [st Sys Exn] of [Prelude],
    so that a [try]/[except] is [st_try] and an exception escapes with
    the state it was raised in.  The collection is any implementation
    of the [Collection] interface of [Store]; every store call may be
    made to fail through the fault script [sys_faults]. *)

From S2P Require Import Prelude PyStr Chunker Paths Store Fingerprint.

Local Open Scope Z_scope.

(** ** Data *)

(** The exceptions that reach an [except Exception] of the engine. *)
Inductive Exn :=
  | OSError          (** [os.path.getmtime] on a missing file *)
  | StoreError       (** a collection call failed (network, server) *)
  | AttributeError.  (** a call on [chroma_collection = None] *)

(** How a store call fails: before it takes effect, or after (the
    server applied it, the answer was lost). *)
Inductive Fault := FailBefore | FailAfter.

(** The store calls issued, in order. *)
Inductive StoreCall :=
  | CallDelete (file_path : string)
  | CallAdd (batch : list VectorRecord).

(** A file on disk as the engine observes it: its modification time,
    whether it can be opened, its bytes (what [calculate_file_hash] of [Fingerprint] reads), its text
    decoded as UTF-8 ([None] when the bytes are not UTF-8) and as
    Latin-1 (always defined). *)
Record FileInfo := mkFileInfo {
  fi_mtime : Z;
  fi_readable : bool;
  fi_bytes : bytes;
  fi_utf8 : option string;
  fi_latin1 : string;
}.

(** A ledger entry, [{"mtime": ..., "hash": ...}]. *)
Record FileState := mkFileState {
  fs_mtime : Z;
  fs_hash : string;
}.

(** [open(file_path, 'rb')]: the bytes, or [None] when the file cannot
    be opened. *)
Definition open_rb (fi : FileInfo) : option bytes :=
  if fi_readable fi then Some (fi_bytes fi) else None.

(** What [calculate_file_hash] returns for a file. *)
Definition file_hash (fi : FileInfo) : string := calculate_file_hash (open_rb fi).

#[export] Instance FileState_eq_dec : EqDecision FileState.
Proof. solve_decision. Qed.

Section Engine.
Context `{Collection C}.
Context (cfg : Config) (cwd : string).

Record Sys := mkSys {
  sys_model_loaded : bool;                  (** [local_embedding_model is not None] *)
  sys_collection : option C;                (** [chroma_collection] *)
  sys_state : gmap string FileState;        (** [processed_files_state] *)
  sys_fs : gmap string FileInfo;            (** the files on disk *)
  sys_encode : string → option (list Z);    (** [model.encode(t).tolist()]; [None]: it raised *)
  sys_faults : list (option Fault);         (** outcome of the next store calls ([None]: success) *)
  sys_uuid : nat;                           (** [uuid4()] draws so far *)
  sys_now : string;                         (** [datetime.now().isoformat()] *)
  sys_calls : list StoreCall;               (** store calls issued *)
  sys_saved : option (gmap string FileState); (** [processed_files_state.json] *)
  sys_disk_ok : bool;                       (** whether the ledger file can be written *)
}.

Definition set_state (f : gmap string FileState → gmap string FileState) (s : Sys) : Sys :=
  mkSys (sys_model_loaded s) (sys_collection s) (f (sys_state s)) (sys_fs s) (sys_encode s)
    (sys_faults s) (sys_uuid s) (sys_now s) (sys_calls s) (sys_saved s) (sys_disk_ok s).

Definition set_store (c : option C) (faults : list (option Fault)) (call : StoreCall)
    (s : Sys) : Sys :=
  mkSys (sys_model_loaded s) c (sys_state s) (sys_fs s) (sys_encode s)
    faults (sys_uuid s) (sys_now s) (sys_calls s ++ [call]) (sys_saved s) (sys_disk_ok s).

Definition set_uuid (n : nat) (s : Sys) : Sys :=
  mkSys (sys_model_loaded s) (sys_collection s) (sys_state s) (sys_fs s) (sys_encode s)
    (sys_faults s) n (sys_now s) (sys_calls s) (sys_saved s) (sys_disk_ok s).

Definition set_saved (saved : option (gmap string FileState)) (s : Sys) : Sys :=
  mkSys (sys_model_loaded s) (sys_collection s) (sys_state s) (sys_fs s) (sys_encode s)
    (sys_faults s) (sys_uuid s) (sys_now s) (sys_calls s) saved (sys_disk_ok s).

Local Abbreviation M := (st Sys Exn).

(** ** The environment's operations *)

Definition getmtime (file_path : string) : M Z :=
  s ← st_get;
  match sys_fs s !! file_path with
  | Some fi => mret (fi_mtime fi)
  | None => st_raise OSError
  end.

Definition calculate_file_hash_at (file_path : string) : M string :=
  s ← st_get;
  match sys_fs s !! file_path with
  | Some fi => mret (file_hash fi)
  | None => mret (calculate_file_hash None)
  end.

(** UTF-8 first; on a decoding error, Latin-1; [None] when the file
    cannot be opened. *)
Definition get_file_content (file_path : string) : M (option string) :=
  s ← st_get;
  match sys_fs s !! file_path with
  | Some fi =>
      if fi_readable fi then
        mret (Some (match fi_utf8 fi with Some text => text | None => fi_latin1 fi end))
      else mret None
  | None => mret None
  end.

Definition get_embedding (text_chunk : string) : M (option (list Z)) :=
  s ← st_get;
  if sys_model_loaded s then mret (sys_encode s text_chunk) else mret None.

(** [uuid4()]: a fresh identifier per draw. *)
Definition uuid4 : M string :=
  s ← st_get; st_modify (set_uuid (S (sys_uuid s)));; mret ("uuid-" +:+ str_of_nat (sys_uuid s)).

Definition now_isoformat : M string := st_gets sys_now.

(** One collection call: it raises [AttributeError] on a missing
    collection, and otherwise consumes one entry of the fault script. *)
Definition store_call (call : StoreCall) (effect : C → C) : M unit :=
  s ← st_get;
  match sys_collection s with
  | None => st_raise AttributeError
  | Some c =>
      match sys_faults s with
      | Some FailBefore :: faults =>
          st_modify (set_store (Some c) faults call);; st_raise StoreError
      | Some FailAfter :: faults =>
          st_modify (set_store (Some (effect c)) faults call);; st_raise StoreError
      | None :: faults => st_modify (set_store (Some (effect c)) faults call)
      | [] => st_modify (set_store (Some (effect c)) [] call)
      end
  end.

(** [chroma_collection.delete(where={"file_path": file_path})] *)
Definition collection_delete (file_path : string) : M unit :=
  store_call (CallDelete file_path) (coll_delete_where_file file_path).

(** [chroma_collection.add(documents=..., embeddings=..., ...)] *)
Definition collection_add (batch : list VectorRecord) : M unit :=
  store_call (CallAdd batch) (coll_add batch).

(** ** [process_file] *)

(** The [for i, chunk in enumerate(chunks)] loop (lines 222-235): a
    chunk whose embedding is [None] or empty is skipped. *)
Fixpoint embed_chunks (file_path project_name language : string) (i : nat)
    (chunks : list string) : M (list VectorRecord) :=
  match chunks with
  | [] => mret []
  | chunk :: rest =>
      embedding ← get_embedding chunk;
      match embedding with
      | Some (e :: es) =>
          ts ← now_isoformat;
          u ← uuid4;
          let r := mkVectorRecord
            (file_path +:+ "_" +:+ str_of_nat i +:+ "_" +:+ u) (e :: es) chunk
            (mkMetadata file_path project_name language (str_of_nat i) ts) in
          rs ← embed_chunks file_path project_name language (S i) rest;
          mret (r :: rs)
      | _ => embed_chunks file_path project_name language (S i) rest
      end
  end.

(** Lines 205-247: read, chunk, embed, add, record the fingerprint.
    [chunk_text] is called with its defaults, for which it always
    returns ([chunk_text_total]); its [None] branch is never taken. *)
Definition process_file_ingest (file_path : string) (current_mtime : Z)
    (current_hash : string) : M unit :=
  content ← get_file_content file_path;
  match content with
  | None => mret ()
  | Some content =>
      match chunk_text content chunk_size_default chunk_overlap_default with
      | None | Some [] => mret ()
      | Some chunks =>
          let project_name := get_project_name cwd file_path (PROJECT_ROOT_DIRECTORIES cfg) in
          let language := get_file_language file_path in
          batch ← embed_chunks file_path project_name language 0 chunks;
          match batch with
          | [] => mret ()
          | _ =>
              collection_add batch;;
              st_modify (set_state (<[file_path := mkFileState current_mtime current_hash]>))
          end
      end
  end.

(** The body of the [try] (lines 191-247). *)
Definition process_file_body (file_path : string) : M unit :=
  current_mtime ← getmtime file_path;
  current_hash ← calculate_file_hash_at file_path;
  s ← st_get;
  match sys_state s !! file_path with
  | Some old_state =>
      if bool_decide (fs_mtime old_state = current_mtime ∧ fs_hash old_state = current_hash)
      then mret ()
      else collection_delete file_path;; process_file_ingest file_path current_mtime current_hash
  | None => process_file_ingest file_path current_mtime current_hash
  end.

Definition process_file (file_path : string) : M unit :=
  s ← st_get;
  if negb (bool_decide (is_Some (sys_collection s))) || negb (sys_model_loaded s) then mret ()
  else if negb (extension_included cfg file_path) then mret ()
  else if path_excluded cfg file_path then mret ()
  else st_try (process_file_body file_path) (λ _, mret ()).

(** ** [remove_deleted_file_from_chroma] *)

Definition remove_deleted_file_from_chroma (file_path : string) : M unit :=
  s ← st_get;
  match sys_collection s with
  | None => mret ()
  | Some _ =>
      if bool_decide (is_Some (sys_state s !! file_path)) then
        st_try (collection_delete file_path;; st_modify (set_state (delete file_path)))
          (λ _, mret ())
      else mret ()
  end.

(** ** [save_processed_files_state] (lines 86-93) *)

Definition save_processed_files_state : M unit :=
  s ← st_get;
  if sys_disk_ok s then st_modify (set_saved (Some (sys_state s))) else mret ().
End Engine.
Arguments Sys C : clear implicits.

(** ** The embedding loop as a pure function *)

(** The model's answer as [get_embedding] sees it. *)
Definition model_embed {C} (s : Sys C) (text : string) : option (list Z) :=
  if sys_model_loaded s then sys_encode s text else None.

(** The records the loop builds, from the embedding function [emb],
    the clock value [ts] and the next [uuid4()] draw [u]. *)
Fixpoint embed_batch (emb : string → option (list Z)) (ts : string) (u : nat)
    (file_path project_name language : string) (i : nat) (chunks : list string)
    : list VectorRecord :=
  match chunks with
  | [] => []
  | chunk :: rest =>
      match emb chunk with
      | Some (e :: es) =>
          mkVectorRecord
            (file_path +:+ "_" +:+ str_of_nat i +:+ "_" +:+ ("uuid-" +:+ str_of_nat u))
            (e :: es) chunk (mkMetadata file_path project_name language (str_of_nat i) ts)
          :: embed_batch emb ts (S u) file_path project_name language (S i) rest
      | _ => embed_batch emb ts u file_path project_name language (S i) rest
      end
  end.

(** Whether a chunk's embedding is usable ([if embedding:]). *)
Definition embeds (emb : string → option (list Z)) (chunk : string) : bool :=
  match emb chunk with Some (_ :: _) => true | _ => false end.

(** ** The consistency invariant between ledger and collection *)

(** Every record in the collection belongs to a path the ledger tracks
    (the half of the spec's data-model invariant that the code keeps),
    and the records of one path never share a [chunk_id] (no mix of two
    ingestions of the same file). *)
Definition ledger_covers_store `{Collection C} (s : Sys C) : Prop :=
  ∀ c, sys_collection s = Some c →
  ∀ r, r ∈ coll_records c → is_Some (sys_state s !! record_path r).

Definition chunk_ids_unique `{Collection C} (s : Sys C) : Prop :=
  ∀ c, sys_collection s = Some c →
  ∀ p, NoDup ((λ r, md_chunk_id (vr_metadata r)) <$> records_of p (coll_records c)).

Definition sync_inv `{Collection C} (s : Sys C) : Prop :=
  ledger_covers_store s ∧ chunk_ids_unique s.

(** No store call of the fault script takes effect and then reports a
    failure. *)
Definition no_lost_acks {C} (s : Sys C) : Prop :=
  Forall (λ f, f ≠ Some FailAfter) (sys_faults s).

(** No record of the collection belongs to [p]. *)
Definition no_records `{Collection C} (p : string) (s : Sys C) : Prop :=
  ∀ c, sys_collection s = Some c → records_of p (coll_records c) = [].

(** ** The engine under a reliable store, as a function *)

(** What [get_file_content] reads from a file. *)
Definition file_text (fi : FileInfo) : option string :=
  if fi_readable fi then Some (match fi_utf8 fi with Some text => text | None => fi_latin1 fi end)
  else None.


(** The ledger entry [process_file] records for a file. *)
Definition fingerprint (fi : FileInfo) : FileState :=
  mkFileState (fi_mtime fi) (file_hash fi).

(** The batch [process_file] builds from the chunks of [p]. *)
Definition ingest_batch `{Collection C} (cfg : Config) (cwd : string) (s : Sys C)
    (p : string) (chunks : list string) : list VectorRecord :=
  embed_batch (model_embed s) (sys_now s) (sys_uuid s) p
    (get_project_name cwd p (PROJECT_ROOT_DIRECTORIES cfg)) (get_file_language p) 0 chunks.

(** The batch that lines 205-243 add, [None] when they return early
    (no content, no chunk, no usable embedding). *)
Definition ingest_outcome `{Collection C} (cfg : Config) (cwd : string) (s : Sys C)
    (p : string) (fi : FileInfo) : option (list VectorRecord) :=
  match file_text fi with
  | None => None
  | Some text =>
      match chunk_text text chunk_size_default chunk_overlap_default with
      | None => None
      | Some chunks =>
          match ingest_batch cfg cwd s p chunks with [] => None | b => Some b end
      end
  end.

(** The guards of lines 178-188. *)
Definition pf_guard `{Collection C} (cfg : Config) (s : Sys C) (p : string) : bool :=
  bool_decide (is_Some (sys_collection s)) && sys_model_loaded s &&
  extension_included cfg p && negb (path_excluded cfg p).

Definition ingest_result `{Collection C} (cfg : Config) (cwd : string) (s : Sys C)
    (p : string) (fi : FileInfo) (c : C) : Sys C :=
  match ingest_outcome cfg cwd s p fi with
  | None => s
  | Some b =>
      set_state (<[p := fingerprint fi]>)
        (set_store (Some (coll_add b c)) [] (CallAdd b) (set_uuid (length b + sys_uuid s) s))
  end.

(** The state [process_file] leaves when no store call fails. *)
Definition pf_result `{Collection C} (cfg : Config) (cwd : string) (s : Sys C)
    (p : string) : Sys C :=
  if negb (pf_guard cfg s p) then s
  else
    match sys_fs s !! p, sys_collection s with
    | Some fi, Some c =>
        match sys_state s !! p with
        | Some old =>
            if bool_decide (old = fingerprint fi) then s
            else
              ingest_result cfg cwd
                (set_store (Some (coll_delete_where_file p c)) [] (CallDelete p) s) p fi
                (coll_delete_where_file p c)
        | None => ingest_result cfg cwd s p fi c
        end
    | _, _ => s
    end.

(** ** Example states *)

(** A configuration whose root is the spec's [/proj]. *)
Definition demo_cfg : Config :=
  mkConfig ["/proj"] (INCLUDE_EXTENSIONS ingest_config) (EXCLUDE_DIRS ingest_config).

Definition demo_file (mtime : Z) (text : string) : FileInfo :=
  mkFileInfo mtime true (string_bytes text) (Some text) text.

(** A running system with the list collection, a model that embeds
    every text, a reliable store and a writable disk. *)
Definition demo_sys (state : gmap string FileState) (store : list VectorRecord)
    (fs : gmap string FileInfo) (faults : list (option Fault)) : Sys (list VectorRecord) :=
  mkSys true (Some store) state fs (λ _, Some [1]) faults 0 "2026-01-01T00:00:00" [] None true.

Definition demo_path : string := "/proj/alpha/src/main.py".

(** A record of an earlier version of [demo_path]. *)
Definition demo_old_record : VectorRecord :=
  mkVectorRecord (demo_path +:+ "_0_old") [7] "old text"
    (mkMetadata demo_path "alpha" "python" "0" "2025-12-31T00:00:00").

(** [demo_path] was ingested at version 1; version 2 is on disk. *)
Definition demo_s_changed : Sys (list VectorRecord) :=
  demo_sys {[ demo_path := mkFileState 1 "d1" ]} []
    {[ demo_path := demo_file 2 "new text here" ]} [].

(** Version 2 of [demo_path] is blank. *)
Definition demo_s_blank : Sys (list VectorRecord) :=
  demo_sys {[ demo_path := mkFileState 1 "d1" ]} []
    {[ demo_path := demo_file 2 "    " ]} [].

(** The ledger was lost; the collection still has a record of
    [demo_path]. *)
Definition demo_s_lost_ledger : Sys (list VectorRecord) :=
  demo_sys ∅ [demo_old_record] {[ demo_path := demo_file 2 "new text here" ]} [].

(** The collection applies the next [add] and reports a failure. *)
Definition demo_s_lost_ack : Sys (list VectorRecord) :=
  demo_sys ∅ [] {[ demo_path := demo_file 2 "new text here" ]} [Some FailAfter].

(** A tracked file deleted from disk; the collection applies the next
    [delete] and the answer is lost. *)
Definition demo_s_remove_lost : Sys (list VectorRecord) :=
  demo_sys {[ demo_path := mkFileState 1 "d1" ]} [demo_old_record] ∅ [Some FailAfter].

(** Two states hold the same ledger and equivalent collections. *)
Definition same_index `{Collection C} (s1 s2 : Sys C) : Prop :=
  sys_state s1 = sys_state s2 ∧ option_Forall2 coll_equiv (sys_collection s1) (sys_collection s2).

Section Run.
Context `{CollectionLaws C}.
Context (cfg : Config) (cwd : string).
Implicit Types (s : Sys C) (p : string).

(** *** Field lemmas of the state updates *)

Lemma set_uuid_twice n m s : set_uuid n (set_uuid m s) = set_uuid n s.
Proof. by destruct s. Qed.

Lemma set_uuid_id s : set_uuid (sys_uuid s) s = s.
Proof. by destruct s. Qed.

Lemma get_embedding_run t s : get_embedding t s = (Ok (model_embed s t), s).
Proof. unfold get_embedding, model_embed. st_unfold. by destruct (sys_model_loaded s). Qed.

Lemma model_embed_set_uuid n s : model_embed (set_uuid n s) = model_embed s.
Proof. done. Qed.

(** The loop of [embed_chunks] is [embed_batch]; it draws one
    [uuid4()] per record and changes nothing else. *)
Lemma embed_chunks_run fp pn lang i chunks s :
  embed_chunks fp pn lang i chunks s =
  let batch := embed_batch (model_embed s) (sys_now s) (sys_uuid s) fp pn lang i chunks in
  (Ok batch, set_uuid (length batch + sys_uuid s) s).
Proof.
  revert i s. induction chunks as [|chunk rest IH]; intros i s; cbn zeta.
  - cbn. by rewrite set_uuid_id.
  - cbn [embed_chunks embed_batch]. unfold mbind at 1, st_mbind, st_bind at 1.
    rewrite get_embedding_run.
    destruct (model_embed s chunk) as [[|e es]|] eqn:He; [apply IH| |apply IH].
    unfold uuid4, now_isoformat. st_unfold. cbn. rewrite IH. cbn.
    by rewrite set_uuid_twice, Nat.add_succ_r.
Qed.

(** *** The records built by the loop *)

Lemma embed_batch_paths emb ts u fp pn lang i chunks :
  Forall (λ r, record_path r = fp) (embed_batch emb ts u fp pn lang i chunks).
Proof.
  revert u i. induction chunks as [|c cs IH]; intros u i; cbn; [done|].
  destruct (emb c) as [[|e es]|]; auto.
Qed.

(** The documents are the chunks whose embedding succeeded, in order. *)
Lemma embed_batch_documents emb ts u fp pn lang i chunks :
  vr_document <$> embed_batch emb ts u fp pn lang i chunks =
  filter (λ c, embeds emb c = true) chunks.
Proof.
  revert u i. induction chunks as [|c cs IH]; intros u i; [done|].
  cbn [embed_batch]. rewrite filter_cons. case_decide as Hd; unfold embeds in Hd;
    destruct (emb c) as [[|e es]|]; try done; cbn; by rewrite IH.
Qed.

Lemma embed_batch_chunk_ids_ge emb ts u fp pn lang i chunks :
  Forall (λ r, ∃ j, (i ≤ j)%nat ∧ md_chunk_id (vr_metadata r) = str_of_nat j)
    (embed_batch emb ts u fp pn lang i chunks).
Proof.
  revert u i. induction chunks as [|c cs IH]; intros u i; cbn; [done|].
  destruct (emb c) as [[|e es]|];
    [| constructor; [eauto|] |];
    (eapply Forall_impl; [apply IH|]; intros r [j [? ?]]; exists j; split; [lia|done]).
Qed.

(** No two records of a batch have the same [chunk_id]. *)
Lemma embed_batch_chunk_ids_nodup emb ts u fp pn lang i chunks :
  NoDup ((λ r, md_chunk_id (vr_metadata r)) <$> embed_batch emb ts u fp pn lang i chunks).
Proof.
  revert u i. induction chunks as [|c cs IH]; intros u i; cbn; [constructor|].
  destruct (emb c) as [[|e es]|]; [apply IH| |apply IH].
  cbn. constructor; [|apply IH].
  intros Hin. apply list_elem_of_fmap in Hin as [r [Hr Hin]].
  pose proof (embed_batch_chunk_ids_ge emb ts (S u) fp pn lang (S i) cs) as Hge.
  rewrite Forall_forall in Hge. destruct (Hge r Hin) as [j [Hj Hid]].
  rewrite Hid in Hr. apply str_of_nat_inj in Hr. lia.
Qed.

(** The [chunk_id]s of a batch do not depend on the clock or on the
    [uuid4()] draws. *)
Lemma embed_batch_chunk_ids_indep emb ts ts' u u' fp pn lang i chunks :
  (λ r, md_chunk_id (vr_metadata r)) <$> embed_batch emb ts u fp pn lang i chunks =
  (λ r, md_chunk_id (vr_metadata r)) <$> embed_batch emb ts' u' fp pn lang i chunks.
Proof.
  revert u u' i. induction chunks as [|c cs IH]; intros u u' i; cbn; [done|].
  destruct (emb c) as [[|e es]|]; cbn; [apply IH| |apply IH]. f_equal. apply IH.
Qed.

End Run.

(** Unfold [process_file] and the calls it makes down to the monad. *)
Ltac pf_unfold :=
  unfold process_file, process_file_body, process_file_ingest, collection_add,
    collection_delete, store_call, getmtime, calculate_file_hash_at, get_file_content;
  st_unfold.

(** Unfold the next computation of a run in the hypotheses and close
    the fault scripts that contain a lost acknowledgement. *)
Ltac run_hyps :=
  repeat match goal with
  | Hx : embed_chunks _ _ _ _ _ _ = _ |- _ => rewrite embed_chunks_run in Hx; cbn zeta in Hx
  | Hf : sys_faults ?s = _, Hn : Forall _ (sys_faults ?s) |- _ => rewrite Hf in Hn
  end; simplify_eq/=; decompose_Forall_hyps.

Section Proofs.
Context `{CollectionLaws C}.
Context (cfg : Config) (cwd : string).
Implicit Types (s : Sys C) (p : string).

(** *** [process_file] never raises *)


(** [process_file] never raises: every exception of its body (a
    vanished file, a failed store call, a missing collection) is caught
    by its [except Exception]. *)
Lemma process_file_fst s p : fst (process_file cfg cwd p s) = Ok ().
Proof.
  pf_unfold. rewrite ?embed_chunks_run. cbn zeta.
  repeat (case_match; simplify_eq/=; try done).
Qed.

Lemma process_file_ok s p : process_file cfg cwd p s = (Ok (), st_exec (process_file cfg cwd p) s).
Proof. rewrite <- (process_file_fst s p). apply surjective_pairing. Qed.

Lemma remove_ok s p :
  remove_deleted_file_from_chroma p s = (Ok (), st_exec (remove_deleted_file_from_chroma p) s).
Proof.
  unfold st_exec, remove_deleted_file_from_chroma, collection_delete, store_call. st_unfold.
  repeat (case_match; simplify_eq/=; try done).
Qed.

(** The run of [remove_deleted_file_from_chroma] on a tracked path
    with a reliable store. *)
Lemma remove_nofault s p c :
  sys_faults s = [] → sys_collection s = Some c → is_Some (sys_state s !! p) →
  remove_deleted_file_from_chroma p s =
  (Ok (), set_state (delete p) (set_store (Some (coll_delete_where_file p c)) [] (CallDelete p) s)).
Proof.
  intros Hf Hc Hp. unfold remove_deleted_file_from_chroma, collection_delete, store_call.
  st_unfold. cbn. rewrite Hc, bool_decide_eq_true_2 by done. cbn. by rewrite Hc, Hf.
Qed.

(** *** The invariant under each state update *)

Lemma sync_inv_set_uuid n s : sync_inv s → sync_inv (set_uuid n s).
Proof. done. Qed.

Lemma sync_inv_store_same c fs call s :
  sync_inv s → sys_collection s = Some c → sync_inv (set_store (Some c) fs call s).
Proof. intros [Hc Hu] Hs. split; intros c' [= <-]; [apply Hc|apply Hu]; done. Qed.

Lemma sync_inv_store_delete p c fs call s :
  sync_inv s → sys_collection s = Some c →
  sync_inv (set_store (Some (coll_delete_where_file p c)) fs call s).
Proof.
  intros [Hc Hu] Hs. split; intros c' [= <-].
  - intros r Hr. rewrite coll_records_delete, list_elem_of_filter in Hr.
    apply (Hc c); naive_solver.
  - intros q. destruct (decide (q = p)) as [->|Hne].
    + rewrite records_of_delete_same. constructor.
    + rewrite records_of_delete_other by done. by apply Hu.
Qed.

Lemma covers_records_none p c s :
  ledger_covers_store s → sys_collection s = Some c → sys_state s !! p = None →
  records_of p (coll_records c) = [].
Proof.
  intros Hc Hs Hp. apply records_of_nil_iff. intros r Hr <-.
  destruct (Hc c Hs r Hr) as [? Hl]. congruence.
Qed.

Lemma sync_inv_add_insert p fp b c fs call s :
  sync_inv s → sys_collection s = Some c → records_of p (coll_records c) = [] →
  Forall (λ r, record_path r = p) b →
  NoDup ((λ r, md_chunk_id (vr_metadata r)) <$> b) →
  sync_inv (set_state (<[p := fp]>) (set_store (Some (coll_add b c)) fs call s)).
Proof.
  intros [Hc Hu] Hs Hp Hb Hnd. split; intros c' [= <-]; cbn.
  - intros r Hr. rewrite coll_records_add, elem_of_app in Hr.
    rewrite lookup_insert. case_decide; [done|].
    destruct Hr as [Hr|Hr]; [by apply (Hc c)|].
    rewrite Forall_forall in Hb. by destruct (Hb r Hr).
  - intros q. rewrite records_of_add.
    destruct (decide (q = p)) as [->|Hne].
    + by rewrite Hp, records_of_all.
    + rewrite (records_of_none q p b), app_nil_r by done. by apply Hu.
Qed.

Lemma sync_inv_ledger_delete p c s :
  sync_inv s → sys_collection s = Some c → records_of p (coll_records c) = [] →
  sync_inv (set_state (delete p) s).
Proof.
  intros [Hc Hu] Hs Hp. split; intros c' Hc'; cbn in *; simplify_eq.
  - intros r Hr. rewrite lookup_delete_ne; [by apply (Hc c)|].
    rewrite records_of_nil_iff in Hp. intros ->. by apply (Hp r).
  - by apply Hu.
Qed.

(** *** [process_file] preserves the invariant *)

#[local] Arguments embed_chunks : simpl never.
#[local] Arguments embed_batch : simpl never.
#[local] Arguments process_file_ingest : simpl never.

Lemma embed_batch_paths_eq emb ts u fp pn lang i chunks b :
  embed_batch emb ts u fp pn lang i chunks = b → Forall (λ r, record_path r = fp) b.
Proof. intros <-. apply embed_batch_paths. Qed.

Lemma embed_batch_nodup_eq emb ts u fp pn lang i chunks b :
  embed_batch emb ts u fp pn lang i chunks = b →
  NoDup ((λ r, md_chunk_id (vr_metadata r)) <$> b).
Proof. intros <-. apply embed_batch_chunk_ids_nodup. Qed.

Lemma no_records_delete p c fs call s :
  no_records p (set_store (Some (coll_delete_where_file p c)) fs call s).
Proof. intros c' [= <-]. apply records_of_delete_same. Qed.

Lemma no_records_untracked p s :
  ledger_covers_store s → sys_state s !! p = None → no_records p s.
Proof. intros Hc Hp c Hs. by eapply covers_records_none. Qed.

Lemma no_lost_acks_store c f fs call s :
  no_lost_acks s → sys_faults s = f :: fs → no_lost_acks (set_store c fs call s).
Proof. unfold no_lost_acks. intros Hno Hf. rewrite Hf in Hno. by inversion Hno. Qed.

Lemma no_lost_acks_store_nil c call s : no_lost_acks (set_store c [] call s).
Proof. constructor. Qed.

#[local] Hint Resolve sync_inv_set_uuid sync_inv_store_same sync_inv_store_delete
  sync_inv_add_insert embed_batch_paths_eq embed_batch_nodup_eq
  no_records_delete no_lost_acks_store no_lost_acks_store_nil : vsync.
#[local] Hint Extern 1 (sys_collection _ = _) => cbn; eassumption : vsync.

Lemma ingest_inv s p m h :
  sync_inv s → no_lost_acks s → no_records p s →
  sync_inv (st_exec (process_file_ingest cfg cwd p m h) s).
Proof.
  intros Hinv Hno Hnr. unfold no_lost_acks in Hno.
  unfold process_file_ingest, collection_add, store_call, get_file_content. st_unfold.
  repeat (case_match; run_hyps; try done).
  all: eauto 8 with vsync.
Qed.

Lemma ingest_inv_run s s' p m h r :
  process_file_ingest cfg cwd p m h s = (r, s') →
  sync_inv s → no_lost_acks s → no_records p s → sync_inv s'.
Proof. intros Hr ???. change s' with (snd (r, s')). rewrite <- Hr. by apply ingest_inv. Qed.

(** [process_file] preserves the consistency invariant.  If every
    record of the collection belongs to a path of the ledger and no
    path has two records with the same [chunk_id], the same holds
    after [process_file], on every branch of the code (filters,
    unchanged file, vanished file, unreadable or empty content, failed
    embeddings, failed store calls), provided no store call takes
    effect and then reports a failure. *)
Theorem process_file_inv s p :
  sync_inv s → no_lost_acks s → sync_inv (st_exec (process_file cfg cwd p) s).
Proof.
  intros Hinv Hno. pose proof Hinv as [Hcov _]. unfold no_lost_acks in Hno.
  unfold process_file, process_file_body, collection_delete, store_call, getmtime,
    calculate_file_hash_at. st_unfold.
  repeat (case_match; run_hyps; try done).
  all: eauto 8 using ingest_inv_run, no_records_untracked with vsync.
Qed.

(** *** The run without store failures *)

Lemma ingest_nofault s p fi c :
  sys_faults s = [] → sys_collection s = Some c → sys_fs s !! p = Some fi →
  process_file_ingest cfg cwd p (fi_mtime fi) (file_hash fi) s =
  (Ok (), ingest_result cfg cwd s p fi c).
Proof.
  intros Hf Hc Hfs.
  unfold process_file_ingest, ingest_result, ingest_outcome, ingest_batch, file_text,
    get_file_content, collection_add, store_call. st_unfold.
  rewrite Hfs. cbn.
  destruct (fi_readable fi); [|done]. cbn.
  destruct (chunk_text _ _ _) as [[|chunk chunks]|]; [done| |done]. cbn.
  rewrite embed_chunks_run. cbn.
  destruct (embed_batch _ _ _ _ _ _ _ _) as [|r b]; cbn; [by rewrite set_uuid_id|].
  by rewrite Hc, Hf.
Qed.

Lemma fingerprint_eq_iff (old : FileState) fi :
  fs_mtime old = fi_mtime fi ∧ fs_hash old = file_hash fi ↔ old = fingerprint fi.
Proof. destruct old. unfold fingerprint. naive_solver. Qed.

(** The run of [process_file] under a reliable store. *)
Lemma process_file_run_nofault s p :
  sys_faults s = [] → process_file cfg cwd p s = (Ok (), pf_result cfg cwd s p).
Proof.
  intros Hf. unfold process_file, pf_result, pf_guard. st_unfold. cbn.
  destruct (sys_collection s) as [c|] eqn:Hc; cbn; [|done].
  destruct (sys_model_loaded s), (extension_included cfg p), (path_excluded cfg p);
    cbn; try done.
  unfold process_file_body, getmtime, calculate_file_hash_at. st_unfold. cbn.
  destruct (sys_fs s !! p) as [fi|] eqn:Hfs; cbn; [|done]. rewrite Hfs. cbn.
  fold (file_hash fi).
  destruct (sys_state s !! p) as [old|] eqn:Hst; cbn.
  - case_bool_decide as Heq1; case_bool_decide as Heq2;
      [done | exfalso; by apply Heq2, fingerprint_eq_iff
      | exfalso; by apply Heq1, fingerprint_eq_iff |].
    unfold collection_delete, store_call. st_unfold. cbn. rewrite Hc, Hf. cbn.
    by erewrite ingest_nofault.
  - by erewrite ingest_nofault.
Qed.

Lemma process_file_exec_nofault s p :
  sys_faults s = [] → st_exec (process_file cfg cwd p) s = pf_result cfg cwd s p.
Proof. intros Hf. unfold st_exec. by rewrite process_file_run_nofault. Qed.

(** The ingestion when the [add] takes effect and its answer is lost:
    the batch is in the collection, the [StoreError] propagates before
    the ledger is updated. *)
Lemma ingest_failafter s p fi c b fs :
  sys_faults s = Some FailAfter :: fs → sys_collection s = Some c → sys_fs s !! p = Some fi →
  ingest_outcome cfg cwd s p fi = Some b →
  process_file_ingest cfg cwd p (fi_mtime fi) (file_hash fi) s =
  (Exc StoreError,
   set_store (Some (coll_add b c)) fs (CallAdd b) (set_uuid (length b + sys_uuid s) s)).
Proof.
  intros Hf Hc Hfs.
  unfold process_file_ingest, ingest_outcome, ingest_batch, file_text,
    get_file_content, collection_add, store_call. st_unfold.
  rewrite Hfs. cbn.
  destruct (fi_readable fi); [|done]. cbn.
  destruct (chunk_text _ _ _) as [[|chunk chunks]|]; [done| |done]. cbn.
  rewrite embed_chunks_run. cbn.
  destruct (embed_batch _ _ _ _ _ _ _ _) as [|r b']; cbn; [done|]. intros [= <-].
  by rewrite Hc, Hf.
Qed.

Lemma process_file_exec_failafter s p c fi b fs :
  sys_faults s = Some FailAfter :: fs → pf_guard cfg s p = true → sys_collection s = Some c →
  sys_fs s !! p = Some fi → sys_state s !! p = None → ingest_outcome cfg cwd s p fi = Some b →
  st_exec (process_file cfg cwd p) s =
  set_store (Some (coll_add b c)) fs (CallAdd b) (set_uuid (length b + sys_uuid s) s).
Proof.
  intros Hf Hg Hc Hfs Hst Ho. unfold pf_guard in Hg. rewrite Hc in Hg.
  unfold process_file, st_exec. st_unfold. cbn. rewrite Hc. cbn.
  destruct (sys_model_loaded s), (extension_included cfg p), (path_excluded cfg p);
    cbn in Hg |- *; try discriminate.
  unfold process_file_body, getmtime, calculate_file_hash_at. st_unfold. cbn.
  rewrite Hfs. cbn. rewrite Hfs. cbn. rewrite Hst. fold (file_hash fi).
  by erewrite ingest_failafter.
Qed.

(** Under a reliable store [process_file] returns normally and leaves
    [pf_result]: the form of the run the proofs below compute with. *)
Lemma process_file_nofault s p :
  sys_faults s = [] → process_file cfg cwd p s = (Ok (), pf_result cfg cwd s p).
Proof. intros Hf. rewrite process_file_ok. f_equal. by apply process_file_exec_nofault. Qed.

Lemma sync_inv_nil_store s c :
  sys_collection s = Some c → coll_records c = [] → sync_inv s.
Proof.
  intros Hs Hc. split; intros c' Hc'; rewrite Hs in Hc'; injection Hc' as <-; rewrite Hc.
  - by intros r ?%elem_of_nil.
  - intros q. constructor.
Qed.

Lemma pf_result_faults s p : sys_faults s = [] → sys_faults (pf_result cfg cwd s p) = [].
Proof.
  intros Hf. unfold pf_result, ingest_result.
  repeat case_match; cbn; done.
Qed.

Lemma same_index_refl s : same_index s s.
Proof.
  split; [done|]. destruct (sys_collection s); constructor. reflexivity.
Qed.

Lemma pf_guard_congr s s' p :
  is_Some (sys_collection s) → is_Some (sys_collection s') →
  sys_model_loaded s' = sys_model_loaded s → pf_guard cfg s' p = pf_guard cfg s p.
Proof.
  intros H1 H2 Hm. unfold pf_guard. rewrite Hm.
  by rewrite !bool_decide_eq_true_2.
Qed.

(** The three shapes of [pf_result]: nothing changes, the old records
    are deleted and the ingest returns early, or the new batch is added
    and the fingerprint recorded. *)
Lemma ingest_outcome_set_store c fs call s p fi :
  ingest_outcome cfg cwd (set_store c fs call s) p fi = ingest_outcome cfg cwd s p fi.
Proof. done. Qed.

Lemma pf_result_cases s p :
  pf_result cfg cwd s p = s ∨
  (∃ c fi old,
     pf_guard cfg s p = true ∧ sys_fs s !! p = Some fi ∧ sys_collection s = Some c ∧
     sys_state s !! p = Some old ∧ old ≠ fingerprint fi ∧
     let s_del := set_store (Some (coll_delete_where_file p c)) [] (CallDelete p) s in
     ingest_outcome cfg cwd s_del p fi = None ∧ pf_result cfg cwd s p = s_del) ∨
  (∃ c fi b s0 c0,
     pf_guard cfg s p = true ∧ sys_fs s !! p = Some fi ∧ sys_collection s = Some c ∧
     sys_state s !! p ≠ Some (fingerprint fi) ∧
     ((sys_state s !! p = None ∧ s0 = s ∧ c0 = c) ∨
      (is_Some (sys_state s !! p) ∧
       s0 = set_store (Some (coll_delete_where_file p c)) [] (CallDelete p) s ∧
       c0 = coll_delete_where_file p c)) ∧
     ingest_outcome cfg cwd s0 p fi = Some b ∧
     pf_result cfg cwd s p =
       set_state (<[p := fingerprint fi]>)
         (set_store (Some (coll_add b c0)) [] (CallAdd b) (set_uuid (length b + sys_uuid s0) s0))).
Proof.
  unfold pf_result. destruct (pf_guard cfg s p) eqn:Hg; cbn; [|by left].
  destruct (sys_fs s !! p) as [fi|] eqn:Hfs; [|by left].
  destruct (sys_collection s) as [c|] eqn:Hc; [|by left].
  destruct (sys_state s !! p) as [old|] eqn:Hst.
  - case_bool_decide as Hold; [by left|]. right. unfold ingest_result.
    destruct (ingest_outcome _ _ _ p fi) as [b|] eqn:Ho.
    + right. do 5 eexists. split_and!; try done; [congruence|]. right. split_and!; eauto.
    + left. do 3 eexists. split_and!; done.
  - unfold ingest_result. destruct (ingest_outcome _ _ _ p fi) as [b|] eqn:Ho; [|by left].
    right. right. do 5 eexists. split_and!; try done. left. done.
Qed.

(** C3: [process_file] is idempotent.  With a reliable store, a second
    call on the same path with no change on disk leaves the ledger as
    the first call left it and the collection equivalent to it, whatever
    branch the first call took (an unreadable, empty or unembeddable
    file has its records deleted again, which changes nothing). *)
Theorem process_file_idempotent s p :
  sys_faults s = [] →
  let s1 := st_exec (process_file cfg cwd p) s in
  same_index (st_exec (process_file cfg cwd p) s1) s1.
Proof.
  intros Hf. cbn zeta.
  rewrite (process_file_exec_nofault s) by done.
  rewrite process_file_exec_nofault by (by apply pf_result_faults).
  destruct (pf_result_cases s p) as [E|[(c & fi & old & Hg & Hfs & Hc & Hst & Hold & Ho & E)
    |(c & fi & b & s0 & c0 & Hg & Hfs & Hc & Hst & Hs0 & Ho & E)]]; rewrite E.
  - rewrite E. apply same_index_refl.
  - unfold pf_result. cbn. rewrite (pf_guard_congr s) by (cbn; rewrite ?Hc; eauto).
    rewrite Hg, Hfs, Hst. cbn. rewrite bool_decide_eq_false_2 by done.
    unfold ingest_result. rewrite !ingest_outcome_set_store in *. rewrite Ho.
    split; [done|]. cbn. constructor. apply coll_delete_idem.
  - destruct Hs0 as [(Hn & -> & ->)|(Hs & -> & ->)];
      unfold pf_result; cbn; rewrite (pf_guard_congr s) by (cbn; rewrite ?Hc; eauto);
      rewrite Hg, Hfs; cbn; rewrite lookup_insert_eq, bool_decide_eq_true_2 by done;
      apply same_index_refl.
Qed.

Lemma ingest_outcome_some s p fi b :
  ingest_outcome cfg cwd s p fi = Some b →
  ∃ text chunks, file_text fi = Some text ∧
    chunk_text text chunk_size_default chunk_overlap_default = Some chunks ∧
    b = ingest_batch cfg cwd s p chunks ∧ b ≠ [].
Proof.
  unfold ingest_outcome.
  destruct (file_text fi) as [text|] eqn:Ht; [|done].
  destruct (chunk_text _ _ _) as [chunks|] eqn:Hch; [|done].
  destruct (ingest_batch _ _ _ _ _) eqn:E; [done|]. intros [= <-].
  exists text, chunks. naive_solver.
Qed.

Lemma ingest_batch_paths s p chunks :
  Forall (λ r, record_path r = p) (ingest_batch cfg cwd s p chunks).
Proof. apply embed_batch_paths. Qed.

Lemma ingest_batch_set_store c fs call s p chunks :
  ingest_batch cfg cwd (set_store c fs call s) p chunks = ingest_batch cfg cwd s p chunks.
Proof. done. Qed.

(** The batch of a file drawn again, with other [uuid4()] values: it
    has the same [chunk_id]s. *)
Lemma ingest_outcome_redraw s s' p fi b :
  model_embed s' = model_embed s → ingest_outcome cfg cwd s p fi = Some b →
  ∃ b', ingest_outcome cfg cwd s' p fi = Some b' ∧
    (λ r, md_chunk_id (vr_metadata r)) <$> b' = (λ r, md_chunk_id (vr_metadata r)) <$> b.
Proof.
  intros Hm Ho. pose proof Ho as (text & chunks & Ht & Hch & -> & Hne)%ingest_outcome_some.
  unfold ingest_outcome. rewrite Ht, Hch. unfold ingest_batch at 1. rewrite Hm.
  destruct (embed_batch (model_embed s) (sys_now s') (sys_uuid s') _ _ _ _ _) as [|r b'] eqn:E.
  - exfalso. apply Hne. apply fmap_nil_inv with (f := λ r, md_chunk_id (vr_metadata r)).
    unfold ingest_batch. erewrite embed_batch_chunk_ids_indep, E. done.
  - eexists. split; [done|]. rewrite <- E. apply embed_batch_chunk_ids_indep.
Qed.

(** C1: convergence.  With a reliable store and a consistent start
    state, whenever [process_file] records a new fingerprint for [p], the
    collection afterwards holds, for [p], exactly the records built from
    the chunks of the file's current content (none of an earlier version
    is left), the ledger entry is the file's current fingerprint, and
    the records of every other path are unchanged. *)
Theorem process_file_converges s p :
  sync_inv s → sys_faults s = [] →
  let s' := st_exec (process_file cfg cwd p) s in
  sys_state s' !! p ≠ sys_state s !! p →
  ∃ fi text chunks c c',
    sys_fs s !! p = Some fi ∧ file_text fi = Some text ∧
    chunk_text text chunk_size_default chunk_overlap_default = Some chunks ∧
    sys_state s' = <[p := fingerprint fi]> (sys_state s) ∧
    sys_collection s = Some c ∧ sys_collection s' = Some c' ∧
    records_of p (coll_records c') ≡ₚ ingest_batch cfg cwd s p chunks ∧
    ∀ q, q ≠ p → records_of q (coll_records c') ≡ₚ records_of q (coll_records c).
Proof.
  intros [Hcov _] Hf. cbn zeta.
  rewrite process_file_exec_nofault by done.
  destruct (pf_result_cases s p) as [E|[(c & fi & old & Hg & Hfs & Hc & Hst & Hold & Ho & E)
    |(c & fi & b & s0 & c0 & Hg & Hfs & Hc & Hst & Hs0 & Ho & E)]]; rewrite E; [done|done|].
  intros _. apply ingest_outcome_some in Ho as (text & chunks & Ht & Hch & -> & _).
  exists fi, text, chunks, c. eexists. split_and!; try done.
  - by destruct Hs0 as [(? & -> & ->)|(? & -> & ->)].
  - rewrite records_of_add, (records_of_all p (ingest_batch _ _ _ _ _)) by apply ingest_batch_paths.
    destruct Hs0 as [(Hn & -> & ->)|(_ & -> & ->)].
    + by rewrite (covers_records_none p c s).
    + by rewrite records_of_delete_same, ingest_batch_set_store.
  - intros q Hq. rewrite records_of_add, (records_of_none q p (ingest_batch _ _ _ _ _))
      by (done || apply ingest_batch_paths).
    rewrite app_nil_r.
    destruct Hs0 as [(Hn & -> & ->)|(_ & -> & ->)]; [done|]. by apply records_of_delete_other.
Qed.

(** *** [remove_deleted_file_from_chroma] *)

(** Deleting an untracked path is a no-op: no store call is made,
    nothing changes, whatever the store would answer. *)
Theorem remove_untracked_noop s p :
  sys_state s !! p = None → remove_deleted_file_from_chroma p s = (Ok (), s).
Proof.
  intros Hp. unfold remove_deleted_file_from_chroma. st_unfold. cbn.
  destruct (sys_collection s); [|done]. by rewrite Hp.
Qed.

(** [remove_deleted_file_from_chroma] preserves the consistency
    invariant, whatever the store answers: the ledger entry is dropped
    only after the records are gone. *)
Theorem remove_inv s p :
  sync_inv s → sync_inv (st_exec (remove_deleted_file_from_chroma p) s).
Proof.
  intros Hinv. unfold remove_deleted_file_from_chroma, collection_delete, store_call, st_exec.
  st_unfold. cbn.
  destruct (sys_collection s) as [c|] eqn:Hc; [|done].
  case_bool_decide; [|done].
  destruct (sys_faults s) as [|[[]|] faults]; cbn; rewrite ?Hc; cbn;
    eauto using sync_inv_store_same, sync_inv_store_delete.
  all: eapply sync_inv_ledger_delete; [by apply sync_inv_store_delete | done |].
  all: apply records_of_delete_same.
Qed.

(** C9: after a successful removal the path has no ledger entry, the
    collection is the old one with the path's records deleted by filter,
    so none is left; a second removal is then a no-op (spec 4.4: the
    deletion is idempotent). *)
Theorem remove_deleted_spec s p c :
  sys_faults s = [] → sys_collection s = Some c → is_Some (sys_state s !! p) →
  let s' := st_exec (remove_deleted_file_from_chroma p) s in
  sys_state s' = delete p (sys_state s) ∧
  sys_collection s' = Some (coll_delete_where_file p c) ∧
  records_of p (coll_records (coll_delete_where_file p c)) = [] ∧
  remove_deleted_file_from_chroma p s' = (Ok (), s').
Proof.
  intros Hf Hc Hp. cbn zeta. unfold st_exec. rewrite (remove_nofault s p c) by done. cbn.
  split_and!; [done|done|apply records_of_delete_same|].
  unfold remove_deleted_file_from_chroma. st_unfold. cbn. by rewrite lookup_delete_eq.
Qed.

(** C4: a failed removal keeps the ledger entry and is retried (spec
    4.4 and its state machine: a failure at any step leaves the ledger
    entry untouched, so that the mutation is retried wholesale).  When
    the delete of [remove_deleted_file_from_chroma] fails, before taking
    effect or after with the answer lost, the [except] of line 263
    catches it before [del processed_files_state[file_path]]: the entry
    stays, and the collection keeps the path's records or has lost them.
    A later removal with a reliable store deletes again (a no-op if the
    records are already gone) and then drops the entry. *)
Theorem remove_failure_keeps_entry s p c f fs :
  sys_collection s = Some c → is_Some (sys_state s !! p) → sys_faults s = Some f :: fs →
  let s' := st_exec (remove_deleted_file_from_chroma p) s in
  let c' := match f with FailBefore => c | FailAfter => coll_delete_where_file p c end in
  sys_state s' = sys_state s ∧ sys_collection s' = Some c' ∧
  (fs = [] →
   let s'' := st_exec (remove_deleted_file_from_chroma p) s' in
   sys_state s'' = delete p (sys_state s) ∧
   sys_collection s'' = Some (coll_delete_where_file p c') ∧
   records_of p (coll_records (coll_delete_where_file p c')) = []).
Proof.
  intros Hc Hp Hf. cbn zeta.
  set (c' := match f with FailBefore => c | FailAfter => coll_delete_where_file p c end).
  assert (E : st_exec (remove_deleted_file_from_chroma p) s = set_store (Some c') fs (CallDelete p) s).
  { unfold remove_deleted_file_from_chroma, collection_delete, store_call, st_exec. st_unfold. cbn.
    rewrite Hc, bool_decide_eq_true_2 by done. cbn. rewrite Hc, Hf. by destruct f. }
  rewrite E. split_and!; [done|done|]. intros ->. unfold st_exec.
  rewrite (remove_nofault _ p c') by done. cbn.
  split_and!; [done|done|apply records_of_delete_same].
Qed.

(** *** Error paths and the spec's open points *)

(** C18: a file that vanished between the event and [getmtime] is not
    treated as deleted (spec 4.4, step 2): the [OSError] is caught by the
    [except] of [process_file], which returns with the ledger entry and
    the records of the path untouched and no store call made. *)
Theorem process_file_vanished s p :
  sys_fs s !! p = None → process_file cfg cwd p s = (Ok (), s).
Proof.
  intros Hp. unfold process_file, process_file_body, getmtime. st_unfold. cbn.
  destruct (negb (bool_decide (is_Some (sys_collection s))) || negb (sys_model_loaded s)),
    (negb (extension_included cfg p)), (path_excluded cfg p); cbn; try done.
  by rewrite Hp.
Qed.

(** C12: an all-whitespace new version of a tracked file loses its
    records but keeps its ledger entry.  The old records are deleted
    before the content is chunked; no chunk comes out, the early return
    skips the ledger update, and the stale fingerprint stays for a path
    with no record: the spec's data-model invariant (a ledger entry
    exists iff the path has a record) does not hold afterwards. *)
Theorem process_file_blank_keeps_entry s p c fi old text :
  sys_faults s = [] → pf_guard cfg s p = true → sys_collection s = Some c →
  sys_fs s !! p = Some fi → sys_state s !! p = Some old → old ≠ fingerprint fi →
  file_text fi = Some text → py_split_ws text = [] →
  let s' := st_exec (process_file cfg cwd p) s in
  sys_state s' !! p = Some old ∧ sys_collection s' = Some (coll_delete_where_file p c) ∧
  records_of p (coll_records (coll_delete_where_file p c)) = [].
Proof.
  intros Hf Hg Hc Hfs Hst Hold Ht Hws. cbn zeta.
  rewrite process_file_exec_nofault by done.
  assert (Ho : ingest_outcome cfg cwd s p fi = None).
  { unfold ingest_outcome.
    by rewrite Ht, chunk_text_blank. }
  unfold pf_result. rewrite Hg, Hfs, Hc, Hst. cbn.
  rewrite bool_decide_eq_false_2 by done.
  unfold ingest_result. rewrite ingest_outcome_set_store, Ho. cbn.
  split_and!; [done|done|apply records_of_delete_same].
Qed.

(** C13: with the ledger lost (the state file missing or corrupt, which
    [initialize_components] turns into an empty ledger), re-ingesting a
    file adds its new records next to the ones already in the collection
    instead of replacing them: no delete is issued for an untracked
    path. *)
Theorem process_file_untracked_appends s p c fi b :
  sys_faults s = [] → pf_guard cfg s p = true → sys_collection s = Some c →
  sys_fs s !! p = Some fi → sys_state s !! p = None →
  ingest_outcome cfg cwd s p fi = Some b →
  ∃ c', sys_collection (st_exec (process_file cfg cwd p) s) = Some c' ∧
    records_of p (coll_records c') ≡ₚ records_of p (coll_records c) ++ b.
Proof.
  intros Hf Hg Hc Hfs Hst Ho.
  rewrite process_file_exec_nofault by done.
  unfold pf_result. rewrite Hg, Hfs, Hc, Hst. cbn.
  unfold ingest_result. rewrite Ho. cbn. eexists. split; [done|].
  apply ingest_outcome_some in Ho as (? & ? & _ & _ & -> & _).
  by rewrite records_of_add, (records_of_all p (ingest_batch _ _ _ _ _))
    by apply ingest_batch_paths.
Qed.
(** C17: a lost acknowledgement breaks the invariant, and the next
    ingestion duplicates the chunks.  When the collection applies the
    [add] of a file the ledger does not track and the answer is lost,
    [process_file] catches the [StoreError] before recording the
    fingerprint: the path stays untracked while its records are in the
    collection, so the ledger no longer covers the store; the next
    [process_file] of the unchanged file, with a reliable store, issues
    no delete for the untracked path and adds the same chunks again, so
    two records of the path share a [chunk_id].  The hypothesis
    [no_lost_acks] of [process_file_inv] cannot be dropped. *)
Theorem process_file_lost_ack s p c fi b :
  sys_faults s = [Some FailAfter] → pf_guard cfg s p = true → sys_collection s = Some c →
  sys_fs s !! p = Some fi → sys_state s !! p = None → ingest_outcome cfg cwd s p fi = Some b →
  let s1 := st_exec (process_file cfg cwd p) s in
  sys_state s1 !! p = None ∧ sys_collection s1 = Some (coll_add b c) ∧
  ¬ ledger_covers_store s1 ∧
  ∃ c2, sys_collection (st_exec (process_file cfg cwd p) s1) = Some c2 ∧
    ¬ NoDup ((λ r, md_chunk_id (vr_metadata r)) <$> records_of p (coll_records c2)).
Proof.
  intros Hf Hg Hc Hfs Hst Ho. cbn zeta.
  rewrite (process_file_exec_failafter s p c fi b []) by done.
  pose proof Ho as (text & chunks & _ & _ & Hb & Hne)%ingest_outcome_some.
  assert (Hpath : Forall (λ r, record_path r = p) b) by (rewrite Hb; apply ingest_batch_paths).
  split_and!; [done|done| |].
  - intros Hcov. destruct b as [|r b]; [done|].
    assert (Hr : r ∈ coll_records (coll_add (r :: b) c))
      by (rewrite coll_records_add; set_solver).
    specialize (Hcov _ eq_refl r Hr). apply Forall_cons in Hpath as [Hp _].
    rewrite Hp in Hcov. cbn in Hcov. rewrite Hst in Hcov. by destruct Hcov.
  - set (s1 := set_store _ _ _ _).
    rewrite process_file_exec_nofault by done.
    destruct (ingest_outcome_redraw s s1 p fi b) as (b' & Ho' & Hids); [done|done|].
    assert (Hpath' : Forall (λ r, record_path r = p) b')
      by (apply ingest_outcome_some in Ho' as (? & ? & _ & _ & -> & _); apply ingest_batch_paths).
    unfold pf_result. rewrite (pf_guard_congr s s1), Hg by (cbn; rewrite ?Hc; eauto).
    cbn. rewrite Hfs, Hst. unfold ingest_result. rewrite Ho'. cbn. eexists. split; [done|].
    rewrite !records_of_add, (records_of_all p b), (records_of_all p b') by done.
    rewrite !fmap_app, Hids, NoDup_app. intros (_ & Hd & _).
    destruct b as [|r b]; [done|].
    apply (Hd (md_chunk_id (vr_metadata r))); [apply elem_of_app; right|]; by left.
Qed.
End Proofs.

(** ** Witnesses *)

Lemma process_file_idempotent_witness :
  sys_faults demo_s_changed = [] ∧
  let s1 := st_exec (process_file demo_cfg "/" demo_path) demo_s_changed in
  same_index (st_exec (process_file demo_cfg "/" demo_path) s1) s1.
Proof. split; [reflexivity|]. by apply process_file_idempotent. Defined.

Lemma process_file_converges_witness :
  sync_inv demo_s_changed ∧ sys_faults demo_s_changed = [] ∧
  sys_state (st_exec (process_file demo_cfg "/" demo_path) demo_s_changed) !! demo_path ≠
    sys_state demo_s_changed !! demo_path ∧
  let s' := st_exec (process_file demo_cfg "/" demo_path) demo_s_changed in
  ∃ fi text chunks c c',
    sys_fs demo_s_changed !! demo_path = Some fi ∧ file_text fi = Some text ∧
    chunk_text text chunk_size_default chunk_overlap_default = Some chunks ∧
    sys_state s' = <[demo_path := fingerprint fi]> (sys_state demo_s_changed) ∧
    sys_collection demo_s_changed = Some c ∧ sys_collection s' = Some c' ∧
    records_of demo_path (coll_records c') ≡ₚ
      ingest_batch demo_cfg "/" demo_s_changed demo_path chunks ∧
    ∀ q, q ≠ demo_path → records_of q (coll_records c') ≡ₚ records_of q (coll_records c).
Proof.
  assert (Hi : sync_inv demo_s_changed) by (by apply (sync_inv_nil_store _ [])).
  assert (Hd : sys_state (st_exec (process_file demo_cfg "/" demo_path) demo_s_changed)
                 !! demo_path ≠ sys_state demo_s_changed !! demo_path)
    by (vm_compute; discriminate).
  split; [exact Hi|]. split; [reflexivity|]. split; [exact Hd|].
  by apply process_file_converges.
Defined.

Lemma remove_untracked_noop_witness :
  sys_state demo_s_lost_ledger !! "/proj/gone.py" = None ∧
  remove_deleted_file_from_chroma "/proj/gone.py" demo_s_lost_ledger = (Ok (), demo_s_lost_ledger).
Proof.
  assert (H : sys_state demo_s_lost_ledger !! "/proj/gone.py" = None) by reflexivity.
  split; [exact H|]. by apply remove_untracked_noop.
Defined.

Lemma remove_deleted_spec_witness :
  sys_faults demo_s_changed = [] ∧ sys_collection demo_s_changed = Some [] ∧
  is_Some (sys_state demo_s_changed !! demo_path) ∧
  let s' := st_exec (remove_deleted_file_from_chroma demo_path) demo_s_changed in
  sys_state s' = delete demo_path (sys_state demo_s_changed) ∧
  sys_collection s' = Some (coll_delete_where_file demo_path []) ∧
  records_of demo_path (coll_records (coll_delete_where_file demo_path [])) = [] ∧
  remove_deleted_file_from_chroma demo_path s' = (Ok (), s').
Proof.
  assert (Hp : is_Some (sys_state demo_s_changed !! demo_path)) by (vm_compute; eauto).
  split; [reflexivity|]. split; [reflexivity|]. split; [exact Hp|].
  by apply remove_deleted_spec.
Defined.

Lemma process_file_vanished_witness :
  sys_fs demo_s_changed !! "/proj/alpha/gone.py" = None ∧
  process_file demo_cfg "/" "/proj/alpha/gone.py" demo_s_changed = (Ok (), demo_s_changed).
Proof.
  assert (H : sys_fs demo_s_changed !! "/proj/alpha/gone.py" = None) by reflexivity.
  split; [exact H|]. by apply process_file_vanished.
Defined.

Lemma process_file_blank_keeps_entry_witness :
  let fi := demo_file 2 "    " in
  sys_faults demo_s_blank = [] ∧ pf_guard demo_cfg demo_s_blank demo_path = true ∧
  sys_collection demo_s_blank = Some [] ∧ sys_fs demo_s_blank !! demo_path = Some fi ∧
  sys_state demo_s_blank !! demo_path = Some (mkFileState 1 "d1") ∧
  mkFileState 1 "d1" ≠ fingerprint fi ∧ file_text fi = Some "    " ∧ py_split_ws "    " = [] ∧
  let s' := st_exec (process_file demo_cfg "/" demo_path) demo_s_blank in
  sys_state s' !! demo_path = Some (mkFileState 1 "d1") ∧
  sys_collection s' = Some (coll_delete_where_file demo_path []) ∧
  records_of demo_path (coll_records (coll_delete_where_file demo_path [])) = [].
Proof.
  cbn zeta.
  assert (Hg : pf_guard demo_cfg demo_s_blank demo_path = true) by (vm_compute; reflexivity).
  assert (Hfs : sys_fs demo_s_blank !! demo_path = Some (demo_file 2 "    "))
    by reflexivity.
  assert (Hst : sys_state demo_s_blank !! demo_path = Some (mkFileState 1 "d1"))
    by reflexivity.
  assert (Hne : mkFileState 1 "d1" ≠ fingerprint (demo_file 2 "    "))
    by (vm_compute; discriminate).
  pose proof (process_file_blank_keeps_entry demo_cfg "/" demo_s_blank demo_path []
    (demo_file 2 "    ") (mkFileState 1 "d1") "    " eq_refl Hg eq_refl Hfs Hst Hne
    eq_refl eq_refl) as Hth.
  split_and!; try done; apply Hth.
Defined.

Lemma process_file_untracked_appends_witness :
  let fi := demo_file 2 "new text here" in
  let b := ingest_batch demo_cfg "/" demo_s_lost_ledger demo_path ["new text here"] in
  sys_faults demo_s_lost_ledger = [] ∧ pf_guard demo_cfg demo_s_lost_ledger demo_path = true ∧
  sys_collection demo_s_lost_ledger = Some [demo_old_record] ∧
  sys_fs demo_s_lost_ledger !! demo_path = Some fi ∧
  sys_state demo_s_lost_ledger !! demo_path = None ∧
  ingest_outcome demo_cfg "/" demo_s_lost_ledger demo_path fi = Some b ∧
  length (records_of demo_path [demo_old_record] ++ b) = 2%nat ∧
  ∃ c', sys_collection (st_exec (process_file demo_cfg "/" demo_path) demo_s_lost_ledger) = Some c' ∧
    records_of demo_path (coll_records c') ≡ₚ records_of demo_path [demo_old_record] ++ b.
Proof.
  cbn zeta.
  assert (Hg : pf_guard demo_cfg demo_s_lost_ledger demo_path = true) by (vm_compute; reflexivity).
  assert (Ho : ingest_outcome demo_cfg "/" demo_s_lost_ledger demo_path
                 (demo_file 2 "new text here") =
               Some (ingest_batch demo_cfg "/" demo_s_lost_ledger demo_path ["new text here"]))
    by (vm_compute; reflexivity).
  assert (Hl : length (records_of demo_path [demo_old_record] ++
                 ingest_batch demo_cfg "/" demo_s_lost_ledger demo_path ["new text here"]) = 2%nat)
    by (vm_compute; reflexivity).
  do 7 (split; [done|]).
  exact (process_file_untracked_appends demo_cfg "/" demo_s_lost_ledger demo_path
    [demo_old_record] (demo_file 2 "new text here")
    (ingest_batch demo_cfg "/" demo_s_lost_ledger demo_path ["new text here"])
    eq_refl Hg eq_refl eq_refl eq_refl Ho).
Defined.

Lemma process_file_lost_ack_witness :
  let fi := demo_file 2 "new text here" in
  let b := ingest_batch demo_cfg "/" demo_s_lost_ack demo_path ["new text here"] in
  sys_faults demo_s_lost_ack = [Some FailAfter] ∧
  pf_guard demo_cfg demo_s_lost_ack demo_path = true ∧
  sys_collection demo_s_lost_ack = Some [] ∧
  sys_fs demo_s_lost_ack !! demo_path = Some fi ∧
  sys_state demo_s_lost_ack !! demo_path = None ∧
  ingest_outcome demo_cfg "/" demo_s_lost_ack demo_path fi = Some b ∧
  let s1 := st_exec (process_file demo_cfg "/" demo_path) demo_s_lost_ack in
  sys_state s1 !! demo_path = None ∧ sys_collection s1 = Some (coll_add b []) ∧
  ¬ ledger_covers_store s1 ∧
  ∃ c2, sys_collection (st_exec (process_file demo_cfg "/" demo_path) s1) = Some c2 ∧
    ¬ NoDup ((λ r, md_chunk_id (vr_metadata r)) <$> records_of demo_path (coll_records c2)).
Proof.
  cbn zeta.
  assert (Hg : pf_guard demo_cfg demo_s_lost_ack demo_path = true) by (vm_compute; reflexivity).
  assert (Ho : ingest_outcome demo_cfg "/" demo_s_lost_ack demo_path
                 (demo_file 2 "new text here") =
               Some (ingest_batch demo_cfg "/" demo_s_lost_ack demo_path ["new text here"]))
    by (vm_compute; reflexivity).
  do 6 (split; [done|]).
  exact (process_file_lost_ack demo_cfg "/" demo_s_lost_ack demo_path []
    (demo_file 2 "new text here")
    (ingest_batch demo_cfg "/" demo_s_lost_ack demo_path ["new text here"])
    eq_refl Hg eq_refl eq_refl eq_refl Ho).
Defined.

Lemma remove_failure_keeps_entry_witness :
  sys_collection demo_s_remove_lost = Some [demo_old_record] ∧
  is_Some (sys_state demo_s_remove_lost !! demo_path) ∧
  sys_faults demo_s_remove_lost = [Some FailAfter] ∧
  let s' := st_exec (remove_deleted_file_from_chroma demo_path) demo_s_remove_lost in
  let c' := coll_delete_where_file demo_path [demo_old_record] in
  sys_state s' = sys_state demo_s_remove_lost ∧ sys_collection s' = Some c' ∧
  (([] : list (option Fault)) = [] →
   let s'' := st_exec (remove_deleted_file_from_chroma demo_path) s' in
   sys_state s'' = delete demo_path (sys_state demo_s_remove_lost) ∧
   sys_collection s'' = Some (coll_delete_where_file demo_path c') ∧
   records_of demo_path (coll_records (coll_delete_where_file demo_path c')) = []).
Proof.
  assert (Hp : is_Some (sys_state demo_s_remove_lost !! demo_path)) by (eexists; reflexivity).
  split; [reflexivity|]. split; [exact Hp|]. split; [reflexivity|].
  exact (remove_failure_keeps_entry demo_s_remove_lost demo_path [demo_old_record] FailAfter []
           eq_refl Hp eq_refl).
Defined.
