(* ===== verification/Locality.v ===== *)
(** Locality of the sync engine: [process_file p] and
    [remove_deleted_file_from_chroma p] of [src/ingest.py] act on the
    path [p] only.  Whatever the store answers, they leave the ledger
    entries and the records of every other path as they were, never
    change the files on disk, the model or the saved ledger, and only
    consume the fault script.  This is what lets the dispatcher and the
    scanner, which call them one path after another, be reasoned about
    one path at a time (spec, section 5). *)

From S2P Require Import Prelude PyStr Chunker Paths Store Engine.

(** The records of a collection, path by path, outside [p]. *)
Definition coll_frame `{Collection C} (p : string) (c c' : C) : Prop :=
  ∀ q, q ≠ p → records_of q (coll_records c') ≡ₚ records_of q (coll_records c).

(** [s'] differs from [s] only at the path [p], in the counters and in
    the fault script, which it has consumed from the front. *)
Record frame `{Collection C} (p : string) (s s' : Sys C) : Prop := {
  frame_model : sys_model_loaded s' = sys_model_loaded s;
  frame_fs : sys_fs s' = sys_fs s;
  frame_encode : sys_encode s' = sys_encode s;
  frame_now : sys_now s' = sys_now s;
  frame_saved : sys_saved s' = sys_saved s;
  frame_disk : sys_disk_ok s' = sys_disk_ok s;
  frame_faults : suffix (sys_faults s') (sys_faults s);
  frame_state : ∀ q, q ≠ p → sys_state s' !! q = sys_state s !! q;
  frame_coll : option_Forall2 (coll_frame p) (sys_collection s) (sys_collection s');
}.

(** What a step leaves of the path [q]: its ledger entry and its
    records. *)
Definition untouched `{Collection C} (q : string) (s s' : Sys C) : Prop :=
  sys_state s' !! q = sys_state s !! q ∧
  option_Forall2 (λ c c', records_of q (coll_records c') ≡ₚ records_of q (coll_records c))
    (sys_collection s) (sys_collection s').

Section Frame.
Context `{CollectionLaws C}.
Context (cfg : Config) (cwd : string).
Implicit Types (s : Sys C) (p : string).

#[local] Instance coll_frame_refl p : Reflexive (@coll_frame C _ p).
Proof. by intros c q _. Qed.

Lemma frame_refl p s : frame p s s.
Proof. by split. Qed.

Lemma frame_set_uuid p n s s' : frame p s s' → frame p s (set_uuid n s').
Proof. intros []. by split. Qed.

(** A store call that leaves [p]'s neighbours alone and consumes the
    head of the fault script. *)
Lemma frame_set_store p c c' fs call s s' :
  frame p s s' → sys_collection s' = Some c → suffix fs (sys_faults s') →
  coll_frame p c c' → frame p s (set_store (Some c') fs call s').
Proof.
  intros [] Hc Hfs Hcc. split; try done; cbn; [by etrans|].
  rewrite Hc in frame_coll0. inversion frame_coll0 as [c0 c1 Hc0 E0 E1|]. constructor.
  intros q Hq. etrans; [by apply Hcc|]. by apply Hc0.
Qed.

Lemma coll_frame_delete p c : coll_frame p c (coll_delete_where_file p c).
Proof. intros q Hq. by apply records_of_delete_other. Qed.

Lemma coll_frame_add p b c :
  Forall (λ r, record_path r = p) b → coll_frame p c (coll_add b c).
Proof.
  intros Hb q Hq. by rewrite records_of_add, (records_of_none q p b), app_nil_r.
Qed.

Lemma frame_insert p fp s s' : frame p s s' → frame p s (set_state (<[p := fp]>) s').
Proof.
  intros []. split; try done. intros q Hq. cbn. rewrite lookup_insert_ne by congruence. auto.
Qed.

Lemma frame_delete p s s' : frame p s s' → frame p s (set_state (delete p) s').
Proof.
  intros []. split; try done. intros q Hq. cbn. rewrite lookup_delete_ne by congruence. auto.
Qed.

Lemma suffix_cons_tail {A} (x : A) l : suffix l (x :: l).
Proof. by exists [x]. Qed.

#[local] Arguments embed_chunks : simpl never.
#[local] Arguments embed_batch : simpl never.
#[local] Arguments process_file_ingest : simpl never.

#[local] Hint Resolve frame_refl frame_set_uuid frame_set_store frame_insert frame_delete
  coll_frame_delete coll_frame_add embed_batch_paths_eq suffix_nil : vsync.
#[local] Hint Extern 1 (sys_collection _ = _) => cbn; (eassumption || reflexivity) : vsync.
#[local] Hint Extern 1 (suffix _ (sys_faults _)) =>
  cbn; match goal with Hf : sys_faults _ = _ |- _ => rewrite Hf; apply suffix_cons_tail end
  : vsync.
#[local] Hint Extern 1 (suffix _ (sys_faults _)) => cbn; apply suffix_nil : vsync.
#[local] Hint Extern 1 (coll_frame _ ?c ?c) => reflexivity : vsync.

Lemma process_file_ingest_frame s p m h :
  frame p s (st_exec (process_file_ingest cfg cwd p m h) s).
Proof.
  unfold process_file_ingest, collection_add, store_call, get_file_content. st_unfold.
  repeat (case_match; run_hyps; try done).
  all: eauto 8 with vsync.
Qed.

Lemma frame_trans p s1 s2 s3 : frame p s1 s2 → frame p s2 s3 → frame p s1 s3.
Proof.
  intros [Hm1 Hfs1 He1 Hn1 Hs1 Hd1 Hf1 Hst1 Hc1] [Hm2 Hfs2 He2 Hn2 Hs2 Hd2 Hf2 Hst2 Hc2].
  split; try congruence; [by etrans| |].
  - intros q Hq. rewrite Hst2 by done. auto.
  - destruct Hc1 as [c1 c2 Hc12|]; inversion Hc2 as [c2' c3 Hc23|]; simplify_eq; constructor.
    intros q Hq. etrans; [by apply Hc23|]. by apply Hc12.
Qed.

Lemma process_file_ingest_frame_run s s' p m h r :
  process_file_ingest cfg cwd p m h s = (r, s') → ∀ s0, frame p s0 s → frame p s0 s'.
Proof.
  intros Hr s0 Hs0. change s' with (snd (r, s')). rewrite <- Hr.
  eapply frame_trans; [done|]. apply process_file_ingest_frame.
Qed.

#[local] Hint Resolve process_file_ingest_frame_run : vsync.

(** [process_file p] changes nothing outside [p]. *)
Lemma process_file_frame s p : frame p s (st_exec (process_file cfg cwd p) s).
Proof.
  unfold process_file, process_file_body, collection_delete, store_call, getmtime,
    calculate_file_hash_at. st_unfold.
  repeat (case_match; run_hyps; try done).
  all: eauto 8 with vsync.
Qed.

(** [remove_deleted_file_from_chroma p] changes nothing outside [p]. *)
Lemma remove_frame s p : frame p s (st_exec (remove_deleted_file_from_chroma p) s).
Proof.
  unfold remove_deleted_file_from_chroma, collection_delete, store_call. st_unfold.
  repeat (case_match; run_hyps; try done).
  all: eauto 8 with vsync.
Qed.

Lemma frame_untouched p q s s' : frame p s s' → q ≠ p → untouched q s s'.
Proof.
  intros [_ _ _ _ _ _ _ Hst Hc] Hq. split; [by apply Hst|].
  destruct Hc; constructor; auto.
Qed.

Lemma untouched_refl q s : untouched q s s.
Proof. split; [done|]. destruct (sys_collection s); by constructor. Qed.

Lemma untouched_trans q s1 s2 s3 : untouched q s1 s2 → untouched q s2 s3 → untouched q s1 s3.
Proof.
  intros [Hs12 Hc12] [Hs23 Hc23]. split; [congruence|].
  destruct Hc12 as [c1 c2 H12|]; inversion Hc23 as [c2' c3 H23|]; simplify_eq; constructor.
  by rewrite H23.
Qed.

(** A fault script without lost acknowledgements stays so. *)
Lemma no_lost_acks_frame p s s' : frame p s s' → no_lost_acks s → no_lost_acks s'.
Proof.
  intros [_ _ _ _ _ _ [k Hk] _ _]. unfold no_lost_acks. rewrite Hk, Forall_app. by intros [].
Qed.
End Frame.
