(* ===== verification/Dispatcher.v ===== *)
(** The event dispatcher: [CodeChangeHandler] of [src/ingest.py]
    (lines 266-286) and the stream of events the watchdog observer feeds
    it.

    An event is a value of [Event] with the fields the handlers read
    ([is_directory], [src_path], [dest_path]); [dispatch] is watchdog's
    [FileSystemEventHandler.dispatch], which calls the [on_<kind>]
    method of the event's kind (the base class's methods for [closed]
    and [opened] do nothing).  Each handler of a file event calls the
    engine and then [save_processed_files_state].

    The running watcher is the step relation [watch_step]: either the
    handler consumes the next event, or the disk changes between two
    events (a file is written, created or removed).  Reachable states are
    its reflexive-transitive closure. *)

From S2P Require Import Prelude PyStr Chunker Paths Store Engine Locality.

(** A watchdog event, by its class. *)
Inductive Event :=
  | EvModified (is_directory : bool) (src_path : string)
  | EvCreated (is_directory : bool) (src_path : string)
  | EvDeleted (is_directory : bool) (src_path : string)
  | EvMoved (is_directory : bool) (src_path dest_path : string)
  | EvClosed (is_directory : bool) (src_path : string)
  | EvOpened (is_directory : bool) (src_path : string).

(** The paths an event's handler may act on. *)
Definition event_paths (ev : Event) : list string :=
  match ev with
  | EvModified false p | EvCreated false p | EvDeleted false p => [p]
  | EvMoved false p q => [p; q]
  | _ => []
  end.

Section Dispatcher.
Context `{Collection C}.
Context (cfg : Config) (cwd : string).
Local Abbreviation M := (st (Sys C) Exn).

Definition on_modified (is_directory : bool) (src_path : string) : M unit :=
  if is_directory then mret ()
  else process_file cfg cwd src_path;; save_processed_files_state.

Definition on_created (is_directory : bool) (src_path : string) : M unit :=
  if is_directory then mret ()
  else process_file cfg cwd src_path;; save_processed_files_state.

Definition on_deleted (is_directory : bool) (src_path : string) : M unit :=
  if is_directory then mret ()
  else remove_deleted_file_from_chroma src_path;; save_processed_files_state.

Definition on_moved (is_directory : bool) (src_path dest_path : string) : M unit :=
  if is_directory then mret ()
  else
    remove_deleted_file_from_chroma src_path;;
    process_file cfg cwd dest_path;;
    save_processed_files_state.

Definition dispatch (ev : Event) : M unit :=
  match ev with
  | EvModified d p => on_modified d p
  | EvCreated d p => on_created d p
  | EvDeleted d p => on_deleted d p
  | EvMoved d p q => on_moved d p q
  | EvClosed _ _ | EvOpened _ _ => mret ()
  end.

(** The observer thread handles the events one at a time, in order. *)
Fixpoint dispatch_all (evs : list Event) : M unit :=
  match evs with
  | [] => mret ()
  | ev :: evs => dispatch ev;; dispatch_all evs
  end.

(** The disk between two events. *)
Definition set_fs (fs : gmap string FileInfo) (s : Sys C) : Sys C :=
  mkSys (sys_model_loaded s) (sys_collection s) (sys_state s) fs (sys_encode s)
    (sys_faults s) (sys_uuid s) (sys_now s) (sys_calls s) (sys_saved s) (sys_disk_ok s).

(** The state each handler leaves, read off the code (the engine's
    calls never raise, [process_file_ok] and [remove_ok]). *)
Definition save_result (s : Sys C) : Sys C :=
  if sys_disk_ok s then set_saved (Some (sys_state s)) s else s.

Definition dispatch_result (ev : Event) (s : Sys C) : Sys C :=
  match ev with
  | EvModified false p | EvCreated false p => save_result (st_exec (process_file cfg cwd p) s)
  | EvDeleted false p => save_result (st_exec (remove_deleted_file_from_chroma p) s)
  | EvMoved false p q =>
      save_result (st_exec (process_file cfg cwd q) (st_exec (remove_deleted_file_from_chroma p) s))
  | _ => s
  end.

Inductive watch_step : Sys C → Sys C → Prop :=
  | step_event ev s : watch_step s (st_exec (dispatch ev) s)
  | step_disk fs s : watch_step s (set_fs fs s).
End Dispatcher.

Section Proofs.
Context `{HL : CollectionLaws C}.
Context (cfg : Config) (cwd : string).
Implicit Types (s : Sys C).

Lemma save_run s : save_processed_files_state s = (Ok (), save_result s).
Proof. unfold save_processed_files_state, save_result. st_unfold. by destruct (sys_disk_ok s). Qed.

Lemma dispatch_run ev s : dispatch cfg cwd ev s = (Ok (), dispatch_result cfg cwd ev s).
Proof.
  destruct ev as [[] p|[] p|[] p|[] p q|d p|d p]; try done;
    cbn [dispatch dispatch_result on_modified on_created on_deleted on_moved];
    rewrite ?(st_run_bind_ok _ _ _ _ _ (remove_ok _ _));
    erewrite ?(st_run_bind_ok _ _ _ _ _ (process_file_ok _ _ _ _)); apply save_run.
Qed.

Lemma dispatch_exec ev s : st_exec (dispatch cfg cwd ev) s = dispatch_result cfg cwd ev s.
Proof. unfold st_exec. by rewrite dispatch_run. Qed.

Lemma save_result_inv s : sync_inv s → sync_inv (save_result s).
Proof. unfold save_result. by destruct (sys_disk_ok s). Qed.

Lemma save_result_acks s : no_lost_acks s → no_lost_acks (save_result s).
Proof. unfold save_result. by destruct (sys_disk_ok s). Qed.

Lemma save_result_untouched q s : untouched q s (save_result s).
Proof. unfold save_result. destruct (sys_disk_ok s); exact (untouched_refl q s). Qed.

Lemma save_result_saved s :
  sys_disk_ok s = true → sys_saved (save_result s) = Some (sys_state (save_result s)).
Proof. unfold save_result. by intros ->. Qed.

Lemma process_file_acks s p :
  no_lost_acks s → no_lost_acks (st_exec (process_file cfg cwd p) s).
Proof. apply no_lost_acks_frame with p, process_file_frame. Qed.

Lemma remove_acks s p :
  no_lost_acks s → no_lost_acks (st_exec (remove_deleted_file_from_chroma p) s).
Proof. apply no_lost_acks_frame with p, remove_frame. Qed.

Lemma untouched_save_r q s s' : untouched q s s' → untouched q s (save_result s').
Proof. intros Hu. eapply untouched_trans; [done|apply save_result_untouched]. Qed.

Lemma untouched_process q p s : q ≠ p → untouched q s (st_exec (process_file cfg cwd p) s).
Proof. apply frame_untouched, process_file_frame. Qed.

Lemma untouched_remove q p s :
  q ≠ p → untouched q s (st_exec (remove_deleted_file_from_chroma p) s).
Proof. apply frame_untouched, remove_frame. Qed.

#[local] Hint Resolve save_result_inv save_result_acks process_file_acks remove_acks : vsync.

Lemma dispatch_inv ev s :
  sync_inv s → no_lost_acks s →
  sync_inv (dispatch_result cfg cwd ev s) ∧ no_lost_acks (dispatch_result cfg cwd ev s).
Proof.
  intros Hi Hn. destruct ev as [[] p|[] p|[] p|[] p q|d p|d p]; cbn; split;
    eauto 7 using process_file_inv, remove_inv with vsync.
Qed.

Lemma step_inv s1 s2 :
  watch_step cfg cwd s1 s2 → sync_inv s1 → no_lost_acks s1 → sync_inv s2 ∧ no_lost_acks s2.
Proof.
  intros [ev s|fs s]; [rewrite dispatch_exec; apply dispatch_inv|done].
Qed.

Lemma save_result_disk s : sys_disk_ok (save_result s) = sys_disk_ok s.
Proof. unfold save_result. by destruct (sys_disk_ok s) eqn:E. Qed.

Lemma dispatch_disk ev s : sys_disk_ok (dispatch_result cfg cwd ev s) = sys_disk_ok s.
Proof.
  destruct ev as [[] p|[] p|[] p|[] p q|d p|d p]; cbn; try done; rewrite save_result_disk;
    rewrite ?(frame_disk _ _ _ (process_file_frame _ _ _ _)),
      ?(frame_disk _ _ _ (remove_frame _ _)); done.
Qed.
Lemma watch_rtc_inv s s' :
  rtc (watch_step cfg cwd) s s' → sync_inv s → no_lost_acks s → sync_inv s' ∧ no_lost_acks s'.
Proof.
  induction 1 as [s|s1 s2 s3 Hstep _ IH]; [done|].
  intros Hi Hn. destruct (step_inv s1 s2 Hstep Hi Hn). by apply IH.
Qed.

(** C2: the consistency invariant holds in every state of the running
    watcher.  From a state where every record belongs to a ledger path
    and no path has two records with the same [chunk_id], any
    interleaving of handled events (of every kind, on any path, with
    the store failing or not) and of changes on disk leads to a state
    where the same holds, provided no store call takes effect and then
    reports a failure. *)
Theorem watcher_inv s s' :
  sync_inv s → no_lost_acks s → rtc (watch_step cfg cwd) s s' → sync_inv s' ∧ no_lost_acks s'.
Proof. intros Hi Hn Hr. by apply (watch_rtc_inv s). Qed.

(** C7: an event acts only on the paths it names.  The ledger entry and
    the records of every other path are the same after the handler,
    whatever the store answers; a directory event, a [closed] or an
    [opened] event names no path and changes neither. *)
Theorem dispatch_untouched ev s q :
  q ∉ event_paths ev → untouched q s (st_exec (dispatch cfg cwd ev) s).
Proof.
  intros Hq. rewrite dispatch_exec.
  destruct ev as [[] p|[] p|[] p|[] p p'|d p|d p]; cbn in Hq |- *; try apply untouched_refl;
    repeat (apply not_elem_of_cons in Hq as [? Hq]); apply untouched_save_r;
    [..|eapply untouched_trans; [apply untouched_remove|apply untouched_process]];
    auto using untouched_process, untouched_remove.
Qed.

(** The ledger is persisted after each file event.  When the
    ledger file can be written, the saved ledger equals the in-memory
    ledger after the handler of any event on a file, so a crash between
    two events loses nothing of the ledger. *)
Theorem dispatch_persists ev s :
  event_paths ev ≠ [] → sys_disk_ok s = true →
  let s' := st_exec (dispatch cfg cwd ev) s in sys_saved s' = Some (sys_state s').
Proof.
  intros Hev Hd. cbn zeta. rewrite dispatch_exec.
  destruct ev as [[] p|[] p|[] p|[] p q|d p|d p]; cbn in Hev |- *; try done;
    apply save_result_saved; rewrite <- Hd;
    rewrite ?(frame_disk _ _ _ (process_file_frame _ _ _ _)),
      ?(frame_disk _ _ _ (remove_frame _ _)); done.
Qed.
(** C22: a move is handled as a deletion of the old path followed by
    an ingestion of the new one (spec 4.5).  With a reliable store, after
    moving a tracked file to another path, the old path has neither a
    ledger entry nor a record, whatever becomes of the new path. *)
Theorem moved_clears_src s c src dest :
  sys_faults s = [] → sys_collection s = Some c → is_Some (sys_state s !! src) → src ≠ dest →
  let s' := st_exec (dispatch cfg cwd (EvMoved false src dest)) s in
  sys_state s' !! src = None ∧
  ∃ c', sys_collection s' = Some c' ∧ records_of src (coll_records c') = [].
Proof.
  intros Hf Hc Hp Hne. cbn zeta. rewrite dispatch_exec. cbn.
  set (s1 := set_state (delete src)
    (set_store (Some (coll_delete_where_file src c)) [] (CallDelete src) s)).
  assert (E : st_exec (remove_deleted_file_from_chroma src) s = s1)
    by (unfold st_exec; by rewrite (remove_nofault s src c)).
  rewrite E. destruct (untouched_save_r src s1 _ (untouched_process src dest s1 Hne)) as [Hst Hcoll].
  split; [rewrite Hst; apply lookup_delete_eq|].
  inversion Hcoll as [c1 c' Hc' E1 E2|]. exists c'. split; [done|].
  apply Permutation_nil_r. rewrite Hc'. simplify_eq/=.
  by rewrite records_of_delete_same.
Qed.

(** The observer's thread never stops on an error and handles the
    events one at a time, in their order of arrival: running the handler
    on a sequence of events returns normally, in the state obtained by
    handling the first event, then the next one from the state it left,
    and so on. *)
Theorem dispatch_all_in_order evs s :
  dispatch_all cfg cwd evs s = (Ok (), foldl (λ s ev, dispatch_result cfg cwd ev s) s evs).
Proof.
  revert s. induction evs as [|ev evs IH]; intros s; [done|].
  cbn [dispatch_all foldl]. rewrite (st_run_bind_ok _ _ _ _ _ (dispatch_run ev s)). apply IH.
Qed.
End Proofs.

(** ** Witnesses *)

Lemma watcher_inv_witness :
  let s1 := set_fs {[ demo_path := demo_file 3 "edited text" ]} demo_s_changed in
  let s2 := st_exec (dispatch demo_cfg "/" (EvModified false demo_path)) s1 in
  sync_inv demo_s_changed ∧ no_lost_acks demo_s_changed ∧
  rtc (watch_step demo_cfg "/") demo_s_changed s2 ∧ sync_inv s2 ∧ no_lost_acks s2.
Proof.
  cbn zeta.
  assert (Hi : sync_inv demo_s_changed) by (by apply (sync_inv_nil_store _ [])).
  assert (Hn : no_lost_acks demo_s_changed) by constructor.
  assert (Hr : rtc (watch_step demo_cfg "/") demo_s_changed
    (st_exec (dispatch demo_cfg "/" (EvModified false demo_path))
       (set_fs {[ demo_path := demo_file 3 "edited text" ]} demo_s_changed)))
    by (eapply rtc_l; [apply step_disk|]; apply rtc_once, step_event).
  destruct (watcher_inv demo_cfg "/" _ _ Hi Hn Hr). split_and!; assumption.
Defined.

Lemma dispatch_untouched_witness :
  "/proj/beta/x.py" ∉ event_paths (EvMoved false demo_path "/proj/alpha/src/app.py") ∧
  untouched "/proj/beta/x.py" demo_s_changed
    (st_exec (dispatch demo_cfg "/" (EvMoved false demo_path "/proj/alpha/src/app.py"))
       demo_s_changed).
Proof.
  assert (Hq : "/proj/beta/x.py" ∉ event_paths (EvMoved false demo_path "/proj/alpha/src/app.py"))
    by (apply (bool_decide_eq_true_1 _); vm_compute; reflexivity).
  split; [exact Hq|]. exact (dispatch_untouched demo_cfg "/" _ _ _ Hq).
Defined.

Lemma dispatch_persists_witness :
  event_paths (EvDeleted false demo_path) ≠ [] ∧ sys_disk_ok demo_s_changed = true ∧
  let s' := st_exec (dispatch demo_cfg "/" (EvDeleted false demo_path)) demo_s_changed in
  sys_saved s' = Some (sys_state s').
Proof.
  assert (He : event_paths (EvDeleted false demo_path) ≠ []) by discriminate.
  assert (Hd : sys_disk_ok demo_s_changed = true) by reflexivity.
  split; [exact He|]. split; [exact Hd|]. exact (dispatch_persists demo_cfg "/" _ _ He Hd).
Defined.

Lemma moved_clears_src_witness :
  sys_faults demo_s_changed = [] ∧ sys_collection demo_s_changed = Some [] ∧
  is_Some (sys_state demo_s_changed !! demo_path) ∧ demo_path ≠ "/proj/alpha/src/app.py" ∧
  let s' := st_exec (dispatch demo_cfg "/" (EvMoved false demo_path "/proj/alpha/src/app.py"))
              demo_s_changed in
  sys_state s' !! demo_path = None ∧
  ∃ c', sys_collection s' = Some c' ∧ records_of demo_path (coll_records c') = [].
Proof.
  assert (Hp : is_Some (sys_state demo_s_changed !! demo_path)) by (eexists; reflexivity).
  assert (Hne : demo_path ≠ "/proj/alpha/src/app.py") by discriminate.
  split; [reflexivity|]. split; [reflexivity|]. split; [exact Hp|]. split; [exact Hne|].
  exact (moved_clears_src demo_cfg "/" demo_s_changed [] _ _ eq_refl eq_refl Hp Hne).
Defined.
