(* ===== verification/Schema.v ===== *)
(** The shape of what the engine stores.  [process_file] of
    [src/ingest.py] writes two things: records of the collection, built
    at lines 222-235 with an id [f"{file_path}_{i}_{uuid}"], a
    non-empty embedding and a metadata dict whose [language],
    [project_name] and [chunk_id] derive from the path and the chunk's
    index; and ledger entries [{"mtime": ..., "hash": ...}] whose hash
    is [calculate_file_hash] of a file that could be read.

    [schema_inv] says that every record and every ledger entry has that
    shape; it is preserved by every operation of the engine and of the
    watcher, whatever the store answers, lost acknowledgements
    included: unlike [sync_inv], it does not depend on the fault
    script. *)

From S2P Require Import Prelude PyStr Chunker Paths Store Fingerprint Engine Locality Dispatcher.

Section Schema.
Context `{Collection C}.
Context (cfg : Config) (cwd : string).

(** A record as lines 222-235 build it. *)
Definition record_wf (r : VectorRecord) : Prop :=
  let md := vr_metadata r in
  vr_embedding r ≠ [] ∧
  md_language md = get_file_language (md_file_path md) ∧
  md_project_name md = get_project_name cwd (md_file_path md) (PROJECT_ROOT_DIRECTORIES cfg) ∧
  (∃ i, md_chunk_id md = str_of_nat i) ∧
  (∃ u, vr_id r = md_file_path md +:+ "_" +:+ md_chunk_id md +:+ "_" +:+ u).

(** A ledger entry as line 244 writes it. *)
Definition entry_wf (e : FileState) : Prop := is_hexdigest (fs_hash e).

Definition schema_inv (s : Sys C) : Prop :=
  (∀ c, sys_collection s = Some c → Forall record_wf (coll_records c)) ∧
  map_Forall (λ _ e, entry_wf e) (sys_state s).
End Schema.

Section Proofs.
Context `{HL : CollectionLaws C}.
Context (cfg : Config) (cwd : string).
Implicit Types (s : Sys C) (p : string).

(** *** The pieces the engine writes *)

Lemma embed_batch_wf emb ts u p i chunks :
  Forall (record_wf cfg cwd)
    (embed_batch emb ts u p (get_project_name cwd p (PROJECT_ROOT_DIRECTORIES cfg))
       (get_file_language p) i chunks).
Proof.
  revert u i. induction chunks as [|c cs IH]; intros u i; cbn; [done|].
  destruct (emb c) as [[|e es]|]; [apply IH| |apply IH].
  constructor; [|apply IH]. split_and!; cbn; eauto.
Qed.

Lemma embed_batch_wf_eq emb ts u p i chunks b :
  embed_batch emb ts u p (get_project_name cwd p (PROJECT_ROOT_DIRECTORIES cfg))
    (get_file_language p) i chunks = b → Forall (record_wf cfg cwd) b.
Proof. intros <-. apply embed_batch_wf. Qed.

Lemma file_hash_wf fi m : fi_readable fi = true → entry_wf (mkFileState m (file_hash fi)).
Proof. intros Hr. unfold entry_wf, file_hash, open_rb. rewrite Hr. apply md5_digest_hex_ok. Qed.

(** *** [schema_inv] under each state update *)

Lemma schema_set_uuid n s : schema_inv cfg cwd s → schema_inv cfg cwd (set_uuid n s).
Proof. done. Qed.

Lemma schema_store_same c fs call s :
  schema_inv cfg cwd s → sys_collection s = Some c →
  schema_inv cfg cwd (set_store (Some c) fs call s).
Proof. intros [Hc Hl] Hs. split; [|done]. intros c' [= <-]. by apply Hc. Qed.

Lemma schema_store_delete p c fs call s :
  schema_inv cfg cwd s → sys_collection s = Some c →
  schema_inv cfg cwd (set_store (Some (coll_delete_where_file p c)) fs call s).
Proof.
  intros [Hc Hl] Hs. split; [|done]. intros c' [= <-].
  rewrite coll_records_delete, Forall_forall. intros r Hr%list_elem_of_filter.
  specialize (Hc c Hs). rewrite Forall_forall in Hc. naive_solver.
Qed.

Lemma schema_store_add b c fs call s :
  schema_inv cfg cwd s → sys_collection s = Some c → Forall (record_wf cfg cwd) b →
  schema_inv cfg cwd (set_store (Some (coll_add b c)) fs call s).
Proof.
  intros [Hc Hl] Hs Hb. split; [|done]. intros c' [= <-].
  rewrite coll_records_add, Forall_app. split; [by apply Hc|done].
Qed.

Lemma schema_insert p e s :
  schema_inv cfg cwd s → entry_wf e → schema_inv cfg cwd (set_state (<[p := e]>) s).
Proof. intros [Hc Hl] He. split; [done|]. by apply map_Forall_insert_2. Qed.

Lemma schema_ledger_delete p s :
  schema_inv cfg cwd s → schema_inv cfg cwd (set_state (delete p) s).
Proof. intros [Hc Hl]. split; [done|]. by apply map_Forall_delete. Qed.

Create HintDb schema.
#[local] Hint Resolve schema_set_uuid schema_store_same schema_store_delete schema_store_add
  schema_insert schema_ledger_delete embed_batch_wf_eq file_hash_wf : schema.
#[local] Hint Extern 1 (sys_collection _ = _) => cbn; eassumption : schema.

(** *** Every operation keeps the shape *)

#[local] Arguments embed_chunks : simpl never.
#[local] Arguments embed_batch : simpl never.
#[local] Arguments process_file_ingest : simpl never.

Lemma ingest_schema s s' p fi r :
  schema_inv cfg cwd s → sys_fs s !! p = Some fi →
  process_file_ingest cfg cwd p (fi_mtime fi) (file_hash fi) s = (r, s') → schema_inv cfg cwd s'.
Proof.
  intros Hs Hfs. unfold process_file_ingest, collection_add, store_call, get_file_content.
  st_unfold. rewrite Hfs. intros Hr.
  repeat (case_match; run_hyps; try done); eauto 6 with schema.
Qed.

Lemma process_file_schema s p :
  schema_inv cfg cwd s → schema_inv cfg cwd (st_exec (process_file cfg cwd p) s).
Proof.
  intros Hs. unfold st_exec, process_file, process_file_body, collection_delete, store_call,
    getmtime, calculate_file_hash_at. st_unfold.
  repeat (case_match; run_hyps; try done).
  all: eauto 4 using ingest_schema with schema.
Qed.

Lemma remove_schema s p :
  schema_inv cfg cwd s →
  schema_inv cfg cwd (st_exec (remove_deleted_file_from_chroma p) s).
Proof.
  intros Hs. unfold st_exec, remove_deleted_file_from_chroma, collection_delete, store_call.
  st_unfold. repeat (case_match; simplify_eq/=; try done); eauto 4 with schema.
Qed.

Lemma save_result_schema s : schema_inv cfg cwd s → schema_inv cfg cwd (save_result s).
Proof. unfold save_result. by destruct (sys_disk_ok s). Qed.

Lemma dispatch_schema ev s :
  schema_inv cfg cwd s → schema_inv cfg cwd (dispatch_result cfg cwd ev s).
Proof.
  intros Hs. destruct ev as [[] p|[] p|[] p|[] p q|d p|d p]; cbn; try done;
    apply save_result_schema; auto using process_file_schema, remove_schema.
Qed.

Lemma step_schema s1 s2 :
  watch_step cfg cwd s1 s2 → schema_inv cfg cwd s1 → schema_inv cfg cwd s2.
Proof. intros [ev s|fs s]; [rewrite dispatch_exec; apply dispatch_schema|done]. Qed.
End Proofs.

(** ** Properties *)

(** C34: every state of the running watcher has the schema the code
    writes.  If the collection's records and the ledger's entries have
    it, then after any interleaving of handled events and changes on
    disk, with the store failing in any way (lost acknowledgements
    included), every record has a non-empty embedding, the language and
    project name of its path, a decimal [chunk_id] and an id
    [f"{file_path}_{chunk_id}_{uuid}"], and every ledger hash is 32
    lowercase hexadecimal digits. *)
Theorem watcher_schema `{CollectionLaws C} cfg cwd (s s' : Sys C) :
  schema_inv cfg cwd s → rtc (watch_step cfg cwd) s s' → schema_inv cfg cwd s'.
Proof.
  intros Hs Hr. induction Hr as [s|s1 s2 s3 Hstep _ IH]; [done|].
  by apply IH, (step_schema cfg cwd s1 s2).
Qed.

(** ** Witnesses *)

Lemma watcher_schema_witness :
  schema_inv demo_cfg "/" demo_s_lost_ack ∧
  rtc (watch_step demo_cfg "/") demo_s_lost_ack
    (st_exec (dispatch demo_cfg "/" (EvModified false demo_path)) demo_s_lost_ack) ∧
  schema_inv demo_cfg "/"
    (st_exec (dispatch demo_cfg "/" (EvModified false demo_path)) demo_s_lost_ack).
Proof.
  assert (Hs : schema_inv demo_cfg "/" demo_s_lost_ack).
  { split; [intros c [= <-]; constructor|apply map_Forall_empty]. }
  assert (Hr : rtc (watch_step demo_cfg "/") demo_s_lost_ack
                 (st_exec (dispatch demo_cfg "/" (EvModified false demo_path)) demo_s_lost_ack)).
  { apply rtc_once. constructor. }
  split; [exact Hs|]. split; [exact Hr|].
  exact (watcher_schema demo_cfg "/" _ _ Hs Hr).
Defined.
