(* ===== verification/Liveness.v ===== *)
(** Progress of the watcher.  [watcher_inv] and [watcher_schema] say
    that nothing bad happens; this file says that something good can:
    from any state with a reliable store, handling one [modified] event
    for each file on disk (what watchdog delivers when the files are
    touched) leads to a state where every file that [process_file]
    would index is tracked with its current fingerprint.

    [eventually P s] is the existential reachability of the step
    relation [watch_step] of [Dispatcher] (the watcher's environment
    chooses the events), written as an inductive predicate after the
    [eventually] of coqutil's small-step combinators. *)

From S2P Require Import Prelude PyStr Chunker Paths Store Fingerprint Engine Locality Dispatcher.

Section Liveness.
Context `{Collection C}.
Context (cfg : Config) (cwd : string).

Inductive eventually (P : Sys C → Prop) : Sys C → Prop :=
  | eventually_done s : P s → eventually P s
  | eventually_step s s' : watch_step cfg cwd s s' → eventually P s' → eventually P s.

(** [p] is synced in [s]: if [process_file p] would index the file on
    disk (the guards hold and the content gives at least one embedded
    chunk), the ledger holds its current fingerprint. *)
Definition synced (s : Sys C) (p : string) : Prop :=
  ∀ fi, sys_fs s !! p = Some fi → pf_guard cfg s p = true →
    is_Some (ingest_outcome cfg cwd s p fi) → sys_state s !! p = Some (fingerprint fi).

(** One [modified] event per file on disk. *)
Definition touch_all (s : Sys C) : list Event :=
  EvModified false <$> (map_to_list (sys_fs s)).*1.
End Liveness.

Section Proofs.
Context `{HL : CollectionLaws C}.
Context (cfg : Config) (cwd : string).
Implicit Types (s : Sys C) (p q : string).

Lemma eventually_rtc (P : Sys C → Prop) s s' :
  rtc (watch_step cfg cwd) s s' → P s' → eventually cfg cwd P s.
Proof.
  induction 1 as [s|s1 s2 s3 Hstep _ IH]; intros HP; [by constructor|].
  eapply eventually_step; [done|by apply IH].
Qed.

(** *** What [process_file] would index *)

Lemma embed_batch_nil_iff emb ts u fp pn lang i chunks :
  embed_batch emb ts u fp pn lang i chunks = [] ↔ filter (λ c, embeds emb c = true) chunks = [].
Proof.
  rewrite <- (embed_batch_documents emb ts u fp pn lang i chunks).
  split; [by intros ->|]. apply fmap_nil_inv.
Qed.

Lemma is_Some_nonempty {A} (b : list A) :
  is_Some (match b with [] => None | x :: l => Some (x :: l) end) ↔ b ≠ [].
Proof. destruct b; naive_solver. Qed.

(** Whether the content gives a batch depends on the model only, not
    on the uuid counter, the clock or the store. *)
Lemma ingest_outcome_congr s s' p fi :
  model_embed s' = model_embed s →
  is_Some (ingest_outcome cfg cwd s' p fi) ↔ is_Some (ingest_outcome cfg cwd s p fi).
Proof.
  intros He. unfold ingest_outcome, ingest_batch.
  destruct (file_text fi); [|done]. destruct (chunk_text _ _ _) as [chunks|]; [|done].
  rewrite !is_Some_nonempty, !embed_batch_nil_iff, He. done.
Qed.

Lemma frame_model_embed p s s' : frame p s s' → model_embed s' = model_embed s.
Proof. intros Hf. unfold model_embed. by rewrite (frame_model _ _ _ Hf), (frame_encode _ _ _ Hf). Qed.

Lemma frame_coll_some p s s' :
  frame p s s' → is_Some (sys_collection s') ↔ is_Some (sys_collection s).
Proof. intros Hf. pose proof (frame_coll _ _ _ Hf) as Hc. by inversion Hc. Qed.

Lemma pf_guard_coll s p : pf_guard cfg s p = true → is_Some (sys_collection s).
Proof.
  unfold pf_guard. destruct (sys_collection s) eqn:E; [by eexists|].
  rewrite bool_decide_eq_false_2; [done|]. intros [? ?]. done.
Qed.

(** *** [synced] *)

Lemma synced_frame p q s s' : frame q s s' → q ≠ p → synced cfg cwd s p → synced cfg cwd s' p.
Proof.
  intros Hf Hq Hs fi Hfs Hg Ho.
  assert (Hgs : pf_guard cfg s p = true).
  { pose proof (pf_guard_coll s' p Hg) as Hc'.
    rewrite <- Hg. symmetry. apply pf_guard_congr; [|done|apply (frame_model _ _ _ Hf)].
    by apply (frame_coll_some q s s' Hf). }
  rewrite (frame_state _ _ _ Hf p) by congruence. apply Hs; [by rewrite <- (frame_fs _ _ _ Hf)|done|].
  by rewrite <- (ingest_outcome_congr s s' p fi (frame_model_embed q s s' Hf)).
Qed.

Lemma synced_save s p : synced cfg cwd s p → synced cfg cwd (save_result s) p.
Proof. unfold save_result. by destruct (sys_disk_ok s). Qed.

(** Under a reliable store, [process_file p] leaves [p] synced, on
    every branch. *)
Lemma process_file_synced s p :
  sys_faults s = [] → synced cfg cwd (st_exec (process_file cfg cwd p) s) p.
Proof.
  intros Hf. rewrite process_file_exec_nofault by done. unfold pf_result.
  destruct (pf_guard cfg s p) eqn:Hg; cbn; [|intros fi _ Hg'; by rewrite Hg in Hg'].
  destruct (sys_fs s !! p) as [fi0|] eqn:Hfs0; [|intros fi Hfs; by rewrite Hfs0 in Hfs].
  destruct (sys_collection s) as [c|] eqn:Hc;
    [|apply pf_guard_coll in Hg; rewrite Hc in Hg; by destruct Hg].
  assert (Hres : ∀ s0 c0, sys_fs s0 = sys_fs s →
    synced cfg cwd (ingest_result cfg cwd s0 p fi0 c0) p).
  { intros s0 c0 Hfs fi Hfs' Hg' Ho. unfold ingest_result in *.
    destruct (ingest_outcome cfg cwd s0 p fi0) as [b|] eqn:Ho0; cbn in *; rewrite Hfs, Hfs0 in Hfs';
      injection Hfs' as <-; [by rewrite lookup_insert_eq|by rewrite Ho0 in Ho; destruct Ho]. }
  destruct (sys_state s !! p) as [old|] eqn:Hst.
  - case_bool_decide as Hold; [|refine (Hres _ _ _); reflexivity].
    intros fi Hfs _ _. rewrite Hfs0 in Hfs. injection Hfs as <-. by subst.
  - refine (Hres _ _ _); reflexivity.
Qed.

Lemma modified_result s q :
  dispatch_result cfg cwd (EvModified false q) s = save_result (st_exec (process_file cfg cwd q) s).
Proof. done. Qed.

Lemma modified_synced s p q :
  sys_faults s = [] → synced cfg cwd s p →
  synced cfg cwd (dispatch_result cfg cwd (EvModified false q) s) p.
Proof.
  intros Hf Hs. rewrite modified_result. apply synced_save.
  destruct (decide (q = p)) as [->|Hq]; [by apply process_file_synced|].
  by apply (synced_frame p q s); [apply process_file_frame|..].
Qed.

Lemma modified_faults s q :
  sys_faults s = [] → sys_faults (dispatch_result cfg cwd (EvModified false q) s) = [].
Proof.
  intros Hf. rewrite modified_result. unfold save_result.
  rewrite process_file_exec_nofault by done. destruct (sys_disk_ok _); by apply pf_result_faults.
Qed.

Lemma modified_fs s q : sys_fs (dispatch_result cfg cwd (EvModified false q) s) = sys_fs s.
Proof.
  rewrite modified_result. unfold save_result.
  destruct (sys_disk_ok _); apply (frame_fs _ _ _ (process_file_frame cfg cwd s q)).
Qed.

(** *** A sequence of [modified] events *)

Local Abbreviation run_events s0 evs := (foldl (λ st ev, dispatch_result cfg cwd ev st) s0 evs).

Lemma run_events_rtc s evs : rtc (watch_step cfg cwd) s (run_events s evs).
Proof.
  revert s. induction evs as [|ev evs IH]; intros s; [done|]. cbn [foldl].
  eapply rtc_l; [|apply IH]. rewrite <- dispatch_exec. constructor.
Qed.

Lemma run_modified_props s ps :
  sys_faults s = [] →
  sys_faults (run_events s (EvModified false <$> ps)) = [] ∧
  sys_fs (run_events s (EvModified false <$> ps)) = sys_fs s.
Proof.
  revert s. induction ps as [|q ps IH]; intros s Hf; [done|]. cbn [fmap list_fmap foldl].
  destruct (IH _ (modified_faults s q Hf)) as [-> ->]. by rewrite modified_fs.
Qed.

Lemma run_modified_stable s p ps :
  sys_faults s = [] → synced cfg cwd s p → synced cfg cwd (run_events s (EvModified false <$> ps)) p.
Proof.
  revert s. induction ps as [|q ps IH]; intros s Hf Hs; [done|]. cbn [fmap list_fmap foldl].
  by apply IH; [apply modified_faults|apply modified_synced].
Qed.

Lemma run_modified_synced s p ps :
  sys_faults s = [] → p ∈ ps → synced cfg cwd (run_events s (EvModified false <$> ps)) p.
Proof.
  revert s. induction ps as [|q ps IH]; intros s Hf Hp; [by apply elem_of_nil in Hp|].
  cbn [fmap list_fmap foldl].
  destruct (decide (p ∈ ps)) as [Hin|Hnin]; [by apply IH; [apply modified_faults|]|].
  apply elem_of_cons in Hp as [->|?]; [|done].
  apply run_modified_stable; [by apply modified_faults|].
  rewrite modified_result. by apply synced_save, process_file_synced.
Qed.
End Proofs.

(** ** Properties *)

(** C33: liveness of the watcher.  From any state whose store answers
    every call, the watcher can reach a state where every file on disk
    that [process_file] would index (the guards hold and its content
    gives at least one embedded chunk) is tracked with its current
    fingerprint: handling one [modified] event per file, in any order
    and with no further change on disk, gets there, whatever the ledger
    and the collection held before. *)
Theorem watcher_eventually_synced `{CollectionLaws C} cfg cwd (s : Sys C) :
  sys_faults s = [] → eventually cfg cwd (λ s', ∀ p, synced cfg cwd s' p) s.
Proof.
  intros Hf. eapply eventually_rtc; [apply (run_events_rtc cfg cwd s (touch_all s))|].
  intros p. unfold touch_all.
  destruct (sys_fs s !! p) as [fi|] eqn:Hp.
  - apply run_modified_synced; [done|]. apply list_elem_of_fmap.
    exists (p, fi). split; [done|]. by apply elem_of_map_to_list.
  - destruct (run_modified_props cfg cwd s ((map_to_list (sys_fs s)).*1) Hf) as [_ Hfs'].
    intros fi Hfs. by rewrite Hfs', Hp in Hfs.
Qed.

(** ** Witnesses *)

Lemma watcher_eventually_synced_witness :
  sys_faults demo_s_changed = [] ∧
  eventually demo_cfg "/" (λ s', ∀ p, synced demo_cfg "/" s' p) demo_s_changed.
Proof.
  split; [reflexivity|]. exact (watcher_eventually_synced demo_cfg "/" demo_s_changed eq_refl).
Defined.
