(* ===== verification/Scanner.v ===== *)
(** Start-up of [src/ingest.py]: [initialize_components] (lines 40-84)
    and the initial full ingestion of [initial_ingestion_and_start_watching]
    (lines 288-333), before the watcher of [Dispatcher] starts.

    The directory tree [os.walk] reads is a rose tree of [Entry]s, one
    per root that [os.path.isdir] accepts; [os_walk_files] is the walk
    with the in-place pruning of [dirnames] (lines 300-304), in the order
    [os.walk] yields (top-down, files of a directory before its
    subdirectories).  The per-file loop (lines 306-330) is [scan_file]:
    the extension and exclusion filters, the fingerprint comparison for
    tracked paths with its [except FileNotFoundError], and
    [process_file]; [scan_files] runs it over the list and counts the
    processed files.  The collaborators [initialize_components] connects
    to (model, server, ledger file) are the arguments [InitEnv]. *)

From S2P Require Import Prelude PyStr Chunker Paths Store Engine Locality Dispatcher.

(** ** The directory tree *)

(** An entry of a directory listing: a file, or a directory with its own
    listing.  The root of a walk is a directory whose name is unused. *)
Inductive Entry :=
  | EFile (name : string)
  | EDir (name : string) (entries : list Entry).

(** [for dirpath, dirnames, filenames in os.walk(root_dir)] with
    [dirnames[:] = [d for d in dirnames if d not in EXCLUDE_DIRS]] and
    [files_to_scan.append(os.path.join(dirpath, filename))]: the paths
    of the files of the directory [e] listed at [dirpath], then those of
    its subdirectories that are not pruned, each walked in turn. *)
Fixpoint os_walk_files (exclude_dirs : list string) (dirpath : string) (e : Entry)
    {struct e} : list string :=
  match e with
  | EFile _ => []
  | EDir _ es =>
      omap (λ e, match e with EFile f => Some (path_join2 dirpath f) | _ => None end) es ++
      (fix subdirs (es : list Entry) : list string :=
         match es with
         | [] => []
         | (EDir d _ as c) :: rest =>
             (if py_in d exclude_dirs then []
              else os_walk_files exclude_dirs (path_join2 dirpath d) c) ++ subdirs rest
         | EFile _ :: rest => subdirs rest
         end) es
  end.

(** The walk without pruning: every file below [dirpath], with the
    names of the subdirectories it sits in. *)
Fixpoint tree_files (dirpath : string) (e : Entry) {struct e} : list (list string * string) :=
  match e with
  | EFile _ => []
  | EDir _ es =>
      omap (λ e, match e with EFile f => Some ([], path_join2 dirpath f) | _ => None end) es ++
      (fix subdirs (es : list Entry) : list (list string * string) :=
         match es with
         | [] => []
         | (EDir d _ as c) :: rest =>
             ((λ x : list string * string, (d :: x.1, x.2)) <$> tree_files (path_join2 dirpath d) c)
             ++ subdirs rest
         | EFile _ :: rest => subdirs rest
         end) es
  end.

(** The loop over [PROJECT_ROOT_DIRECTORIES]; [disk root] is the tree
    under [root], [None] when [os.path.isdir(root)] fails. *)
Definition files_to_scan (cfg : Config) (disk : string → option Entry) : list string :=
  mjoin ((λ root_dir, match disk root_dir with
                      | Some e => os_walk_files (EXCLUDE_DIRS cfg) root_dir e
                      | None => []
                      end) <$> PROJECT_ROOT_DIRECTORIES cfg).

(** ** Start-up and the initial ingestion *)

(** What [initialize_components] meets: whether [SentenceTransformer]
    loads, whether the server answers ([HttpClient], [heartbeat],
    [get_or_create_collection]), the collection the server holds, and
    whether [json.load] accepts the ledger file when there is one (the
    file itself is [sys_saved]). *)
Record InitEnv (C : Type) := mkInitEnv {
  env_model_ok : bool;
  env_server_ok : bool;
  env_server_collection : C;
  env_ledger_ok : bool;
}.
Arguments env_model_ok {C}.
Arguments env_server_ok {C}.
Arguments env_server_collection {C}.
Arguments env_ledger_ok {C}.

Section Scanner.
Context `{Collection C}.
Context (cfg : Config) (cwd : string).
Local Abbreviation M := (st (Sys C) Exn).

Definition set_model (b : bool) (s : Sys C) : Sys C :=
  mkSys b (sys_collection s) (sys_state s) (sys_fs s) (sys_encode s)
    (sys_faults s) (sys_uuid s) (sys_now s) (sys_calls s) (sys_saved s) (sys_disk_ok s).

Definition set_collection (c : option C) (s : Sys C) : Sys C :=
  mkSys (sys_model_loaded s) c (sys_state s) (sys_fs s) (sys_encode s)
    (sys_faults s) (sys_uuid s) (sys_now s) (sys_calls s) (sys_saved s) (sys_disk_ok s).

Definition initialize_components (env : InitEnv C) : M bool :=
  if negb (env_model_ok env) then st_modify (set_model false);; mret false
  else
    st_modify (set_model true);;
    if negb (env_server_ok env) then st_modify (set_collection None);; mret false
    else
      st_modify (set_collection (Some (env_server_collection env)));;
      s ← st_get;
      match sys_saved s with
      | None => mret true
      | Some m =>
          st_modify (set_state (λ _, if env_ledger_ok env then m else ∅));; mret true
      end.

(** The fingerprint comparison of lines 316-326 for a tracked path: [true]
    when the file must be processed; a vanished file is removed. *)
Definition needs_processing (file_path : string) (old_state : FileState) : M bool :=
  st_try
    (current_mtime ← getmtime file_path;
     current_hash ← calculate_file_hash_at file_path;
     mret (negb (bool_decide (fs_mtime old_state = current_mtime ∧
                              fs_hash old_state = current_hash))))
    (λ e : Exn, match e return M bool with
          | OSError => remove_deleted_file_from_chroma file_path;; mret false
          | e => st_raise e
          end).

(** One iteration of the loop of lines 306-330; [true] when the file was
    passed to [process_file] and counted. *)
Definition scan_file (file_path : string) : M bool :=
  if negb (extension_included cfg file_path) then mret false
  else if path_excluded cfg file_path then mret false
  else
    s ← st_get;
    needs ← match sys_state s !! file_path with
            | None => mret true
            | Some old_state => needs_processing file_path old_state
            end;
    if (needs : bool) then process_file cfg cwd file_path;; mret true else mret false.

Fixpoint scan_files (files : list string) (initial_processed_count : nat) : M nat :=
  match files with
  | [] => mret initial_processed_count
  | file_path :: rest =>
      processed ← scan_file file_path;
      scan_files rest
        (if (processed : bool) then S initial_processed_count else initial_processed_count)
  end.

(** [initial_ingestion_and_start_watching] up to the start of the
    observer: [None] when initialisation fails and the program exits,
    otherwise the number of files processed. *)
Definition initial_ingestion (env : InitEnv C) (disk : string → option Entry) : M (option nat) :=
  ok ← initialize_components env;
  if negb (ok : bool) then mret None
  else
    count ← scan_files (files_to_scan cfg disk) 0;
    save_processed_files_state;;
    mret (Some count).
End Scanner.

(** The start of the program after a crash: the in-memory globals are
    back to their initial values, the disk, the server and the ledger
    file are as the crash left them. *)
Definition restart `{Collection C} (s : Sys C) : Sys C :=
  mkSys false None ∅ (sys_fs s) (sys_encode s) (sys_faults s) (sys_uuid s) (sys_now s)
    (sys_calls s) (sys_saved s) (sys_disk_ok s).

(** A fresh process on a disk holding two files under [/proj]. *)
Definition demo_disk (root : string) : option Entry :=
  if bool_decide (root = "/proj")
  then Some (EDir "proj" [EDir "alpha" [EDir "src" [EFile "main.py"; EFile "util.py"]]])
  else None.

Definition demo_fresh : Sys (list VectorRecord) :=
  mkSys false None ∅
    {[ demo_path := demo_file 1 "some text here";
       "/proj/alpha/src/util.py" := demo_file 1 "more text" ]}
    (λ _, Some [1%Z]) [] 0 "2026-01-01T00:00:00" [] None true.

(** A file deleted while the watcher was not running: tracked by the
    ledger file and by a record on the server, absent from the disk. *)
Definition demo_gone : string := "/proj/alpha/src/gone.py".

Definition demo_gone_record : VectorRecord :=
  mkVectorRecord (demo_gone +:+ "_0_old") [1%Z] "old text"
    (mkMetadata demo_gone "alpha" "python" "0" "2025-12-31T00:00:00").

Definition demo_restarted : Sys (list VectorRecord) :=
  mkSys false None ∅ (sys_fs demo_fresh) (λ _, Some [1%Z]) [] 0 "2026-01-01T00:00:00" []
    (Some {[ demo_gone := mkFileState 1 "d0" ]}) true.

(** ** The walk *)

(** Induction on entries, with the hypothesis on every entry of a
    directory. *)
Fixpoint Entry_ind' (P : Entry → Prop) (Hf : ∀ n, P (EFile n))
    (Hd : ∀ n es, Forall P es → P (EDir n es)) (e : Entry) : P e :=
  match e with
  | EFile n => Hf n
  | EDir n es =>
      Hd n es ((fix go (es : list Entry) : Forall P es :=
                  match es with
                  | [] => Forall_nil_2 _
                  | e :: es => Forall_cons_2 _ _ _ (Entry_ind' P Hf Hd e) (go es)
                  end) es)
  end.

Section Walk.
Context (exclude_dirs : list string).

(** A file is kept when none of the directories it sits in is excluded. *)
Local Abbreviation kept := (λ x : list string * string, Forall (λ d, d ∉ exclude_dirs) x.1).

Lemma filter_kept_top dirpath (es : list Entry) :
  snd <$> filter kept
    (omap (λ e, match e with EFile f => Some ([], path_join2 dirpath f) | _ => None end) es) =
  omap (λ e, match e with EFile f => Some (path_join2 dirpath f) | _ => None end) es.
Proof.
  induction es as [|[f|d c] es IH]; cbn -[filter]; [done| |done].
  rewrite filter_cons_True by constructor. cbn -[filter]. by f_equal.
Qed.

Lemma filter_kept_under d (l : list (list string * string)) :
  filter kept ((λ x : list string * string, (d :: x.1, x.2)) <$> l) =
  if py_in d exclude_dirs then []
  else (λ x : list string * string, (d :: x.1, x.2)) <$> filter kept l.
Proof.
  unfold py_in. induction l as [|x l IH]; [by case_bool_decide|].
  cbn [fmap list_fmap]. rewrite !filter_cons, IH. cbn.
  case_bool_decide as Hd; case_decide as H1; try case_decide as H2;
    rewrite ?Forall_cons in H1; try done; naive_solver.
Qed.

(** C10: the pruning of [dirnames] is a filter.  [os.walk] with the
    in-place pruning lists exactly the files of the unpruned walk that
    sit in no directory named in [EXCLUDE_DIRS] below the root, in the
    same order: pruning skips no file it should keep and keeps none it
    should skip. *)
Theorem walk_prunes e dirpath :
  os_walk_files exclude_dirs dirpath e = snd <$> filter kept (tree_files dirpath e).
Proof.
  revert dirpath. induction e as [f|n es IH] using Entry_ind'; intros dirpath; [done|].
  cbn [os_walk_files tree_files]. rewrite (filter_app kept), fmap_app, filter_kept_top. f_equal.
  induction IH as [|c es Hc _ IHes]; [done|]. destruct c as [f|d c]; [apply IHes|].
  cbv beta iota. rewrite (filter_app kept), fmap_app, filter_kept_under, <- IHes, Hc. f_equal.
  case_match; [done|]. by rewrite <- list_fmap_compose.
Qed.
End Walk.

(** ** The initial scan *)

Section ScanProofs.
Context `{CollectionLaws C}.
Context (cfg : Config) (cwd : string).
Implicit Types (s : Sys C) (p : string).

(** The three outcomes of one iteration: nothing, the removal of a
    vanished tracked file, or [process_file]. *)
Lemma scan_file_cases s p :
  scan_file cfg cwd p s = (Ok false, s) ∨
  scan_file cfg cwd p s = (Ok false, st_exec (remove_deleted_file_from_chroma p) s) ∨
  scan_file cfg cwd p s = (Ok true, st_exec (process_file cfg cwd p) s).
Proof.
  unfold scan_file. destruct (extension_included cfg p), (path_excluded cfg p); cbn;
    try by left.
  unfold needs_processing, getmtime, calculate_file_hash_at. st_unfold. cbn.
  destruct (sys_state s !! p) as [old|]; cbn.
  - destruct (sys_fs s !! p) as [fi|] eqn:Hfs; cbn; rewrite ?Hfs; cbn.
    + case_bool_decide; cbn; [by left|]. right; right. by rewrite process_file_ok.
    + right; left. by rewrite remove_ok.
  - right; right. by rewrite process_file_ok.
Qed.

(** A preorder on states that every [process_file] and every removal of
    the scanned files establishes holds between the states before and
    after the loop. *)
Lemma scan_files_rel (R : relation (Sys C)) `{!PreOrder R} files n s :
  (∀ p s, p ∈ files → R s (st_exec (process_file cfg cwd p) s)) →
  (∀ p s, p ∈ files → R s (st_exec (remove_deleted_file_from_chroma p) s)) →
  R s (st_exec (scan_files cfg cwd files n) s).
Proof.
  revert n s. induction files as [|p files IH]; intros n s Hp Hr; [done|].
  cbn [scan_files]. unfold st_exec at 1.
  destruct (scan_file_cases s p) as [E|[E|E]]; rewrite (st_run_bind_ok _ _ _ _ _ E);
    [|etrans; [apply Hr; left|] |etrans; [apply Hp; left|]];
    apply IH; set_solver.
Qed.

Lemma scan_files_returns files n s : ∃ n', fst (scan_files cfg cwd files n s) = Ok n'.
Proof.
  revert n s. induction files as [|p files IH]; intros n s; [by eexists|].
  cbn [scan_files].
  destruct (scan_file_cases s p) as [E|[E|E]]; rewrite (st_run_bind_ok _ _ _ _ _ E); apply IH.
Qed.

Lemma initialize_ok env s :
  env_model_ok env = true → env_server_ok env = true →
  initialize_components env s = (Ok true, st_exec (initialize_components env) s).
Proof.
  intros Hm Hs. unfold initialize_components, st_exec. rewrite Hm, Hs. st_unfold. cbn.
  by case_match.
Qed.

Lemma initialize_fail env s :
  env_model_ok env = false ∨ env_server_ok env = false →
  initialize_components env s = (Ok false, st_exec (initialize_components env) s).
Proof.
  unfold initialize_components, st_exec. st_unfold.
  by intros [-> | ->]; [|destruct (env_model_ok env)].
Qed.

Lemma initialize_faults env s :
  sys_faults (st_exec (initialize_components env) s) = sys_faults s.
Proof.
  unfold initialize_components, st_exec. st_unfold.
  repeat case_match; simplify_eq/=; done.
Qed.

(** The run of [initial_ingestion] when the start-up succeeds. *)
Lemma initial_ingestion_ok env disk s :
  env_model_ok env = true → env_server_ok env = true →
  st_exec (initial_ingestion cfg cwd env disk) s =
  save_result (st_exec (scan_files cfg cwd (files_to_scan cfg disk) 0)
                 (st_exec (initialize_components env) s)).
Proof.
  intros Hm Hs. unfold initial_ingestion, st_exec at 1.
  rewrite (st_run_bind_ok _ _ _ _ _ (initialize_ok env s Hm Hs)). cbn [negb].
  destruct (scan_files_returns (files_to_scan cfg disk) 0
    (st_exec (initialize_components env) s)) as [n Hn].
  rewrite (st_run_bind_ok _ _ _ _ _ (pair_eta_fst _ _ Hn)).
  by rewrite (st_run_bind_ok _ _ _ _ _ (save_run _)).
Qed.

Lemma initial_ingestion_returns env disk s :
  env_model_ok env = true → env_server_ok env = true →
  ∃ n, fst (initial_ingestion cfg cwd env disk s) = Ok (Some n).
Proof.
  intros Hm Hs. unfold initial_ingestion.
  rewrite (st_run_bind_ok _ _ _ _ _ (initialize_ok env s Hm Hs)). cbn [negb].
  destruct (scan_files_returns (files_to_scan cfg disk) 0
    (st_exec (initialize_components env) s)) as [n Hn].
  rewrite (st_run_bind_ok _ _ _ _ _ (pair_eta_fst _ _ Hn)).
  rewrite (st_run_bind_ok _ _ _ _ _ (save_run _)). by exists n.
Qed.

Lemma initial_ingestion_fail env disk s :
  env_model_ok env = false ∨ env_server_ok env = false →
  initial_ingestion cfg cwd env disk s = (Ok None, st_exec (initialize_components env) s).
Proof.
  intros Hf. unfold initial_ingestion. by rewrite (st_run_bind_ok _ _ _ _ _ (initialize_fail env s Hf)).
Qed.

Lemma sync_acks_preorder :
  PreOrder (λ a b : Sys C, sync_inv a ∧ no_lost_acks a → sync_inv b ∧ no_lost_acks b).
Proof. split; [intros a Ha; exact Ha|intros a b c Hab Hbc Ha; exact (Hbc (Hab Ha))]. Qed.

Lemma untouched_preorder q : PreOrder (@untouched C _ q).
Proof. split; [intros ?; apply untouched_refl|intros ???; apply untouched_trans]. Qed.

(** The initial scan preserves the consistency invariant.  If the
    ledger loaded from its file and the collection the server holds
    are consistent, they still are after the scan and the final save,
    whatever the walk finds and whatever the store answers, provided no
    store call takes effect and then reports a failure. *)
Lemma initial_ingestion_inv env disk s :
  sync_inv (st_exec (initialize_components env) s) → no_lost_acks s →
  sync_inv (st_exec (initial_ingestion cfg cwd env disk) s) ∧
  no_lost_acks (st_exec (initial_ingestion cfg cwd env disk) s).
Proof.
  intros Hi Hn.
  assert (Hn0 : no_lost_acks (st_exec (initialize_components env) s))
    by (unfold no_lost_acks; by rewrite initialize_faults).
  destruct (env_model_ok env) eqn:Hm; [destruct (env_server_ok env) eqn:Hs|].
  - rewrite initial_ingestion_ok by done.
    pose proof sync_acks_preorder.
    assert (Hsc : ∀ s0, sync_inv s0 ∧ no_lost_acks s0 →
              let s1 := st_exec (scan_files cfg cwd (files_to_scan cfg disk) 0) s0 in
              sync_inv s1 ∧ no_lost_acks s1).
    { intros s0. eapply (scan_files_rel (λ a b, sync_inv a ∧ no_lost_acks a → sync_inv b ∧ no_lost_acks b));
        [intros p s' _ [??]; split; [by apply process_file_inv|by apply process_file_acks]
        |intros p s' _ [??]; split; [by apply remove_inv|by apply remove_acks]]. }
    destruct (Hsc _ (conj Hi Hn0)). split; [by apply save_result_inv|by apply save_result_acks].
  - unfold st_exec. by rewrite initial_ingestion_fail by auto.
  - unfold st_exec. by rewrite initial_ingestion_fail by auto.
Qed.

(** C14: the initial scan does not reconcile paths that are gone
    (spec 4.6 asks for [syncDeleted] on every tracked path no longer on
    disk).  A path the walk does not list keeps the ledger entry loaded
    from the ledger file and the records the server holds for it: a
    file deleted while the watcher was not running stays indexed. *)
Theorem scan_keeps_unlisted env disk s q :
  q ∉ files_to_scan cfg disk →
  untouched q (st_exec (initialize_components env) s)
    (st_exec (initial_ingestion cfg cwd env disk) s).
Proof.
  intros Hq.
  destruct (env_model_ok env) eqn:Hm; [destruct (env_server_ok env) eqn:Hs|].
  - rewrite initial_ingestion_ok by done. apply untouched_save_r.
    pose proof (untouched_preorder q).
    apply (scan_files_rel (untouched q)); intros p s' Hp;
      [apply untouched_process|apply untouched_remove]; set_solver.
  - unfold st_exec at 2. rewrite initial_ingestion_fail by auto. apply untouched_refl.
  - unfold st_exec at 2. rewrite initial_ingestion_fail by auto. apply untouched_refl.
Qed.

(** C25: a start-up failure is fatal (spec 7, ConfigError): when the
    model cannot be loaded or the server cannot be reached, the program
    stops before the scan, with no store call made and neither the
    ledger nor its file changed. *)
Theorem init_failure_stops env disk s :
  env_model_ok env = false ∨ env_server_ok env = false →
  let r := initial_ingestion cfg cwd env disk s in
  fst r = Ok None ∧ sys_calls (snd r) = sys_calls s ∧
  sys_state (snd r) = sys_state s ∧ sys_saved (snd r) = sys_saved s.
Proof.
  intros Hf. cbn zeta. rewrite initial_ingestion_fail by done. cbn.
  unfold st_exec, initialize_components. st_unfold.
  destruct Hf as [-> | ->]; [done|]. by destruct (env_model_ok env).
Qed.
Lemma initialize_saved env s :
  sys_saved (st_exec (initialize_components env) s) = sys_saved s.
Proof.
  unfold initialize_components, st_exec. st_unfold.
  repeat case_match; simplify_eq/=; done.
Qed.

(** A successful start-up connects to the server's collection and
    loads the ledger file, or keeps the in-memory ledger when there is
    none. *)
Lemma initialize_loaded env s :
  env_model_ok env = true → env_server_ok env = true →
  let s' := st_exec (initialize_components env) s in
  sys_collection s' = Some (env_server_collection env) ∧
  sys_state s' = match sys_saved s with
                 | None => sys_state s
                 | Some m => if env_ledger_ok env then m else ∅
                 end.
Proof.
  intros Hm Hs. unfold initialize_components, st_exec. rewrite Hm, Hs. st_unfold. cbn.
  by destruct (sys_saved s).
Qed.

Lemma saved_preorder : PreOrder (λ a b : Sys C, sys_saved b = sys_saved a).
Proof. split; [intros a; done|intros a b c Hab Hbc; congruence]. Qed.

(** The scan never writes the ledger file. *)
Lemma scan_files_saved files n s :
  sys_saved (st_exec (scan_files cfg cwd files n) s) = sys_saved s.
Proof.
  pose proof saved_preorder.
  apply (scan_files_rel (λ a b : Sys C, sys_saved b = sys_saved a)); intros p s' _.
  - exact (frame_saved _ _ _ (process_file_frame cfg cwd s' p)).
  - exact (frame_saved _ _ _ (remove_frame s' p)).
Qed.

Lemma initialize_fs_calls env s :
  let s' := st_exec (initialize_components env) s in
  sys_fs s' = sys_fs s ∧ sys_calls s' = sys_calls s.
Proof.
  unfold initialize_components, st_exec. st_unfold.
  repeat case_match; simplify_eq/=; done.
Qed.

(** An iteration on a file the ledger tracks with its current
    fingerprint (or that the filters skip) changes nothing. *)
Lemma scan_file_unchanged s p :
  (extension_included cfg p = true → path_excluded cfg p = false →
   ∃ fi, sys_fs s !! p = Some fi ∧ sys_state s !! p = Some (fingerprint fi)) →
  scan_file cfg cwd p s = (Ok false, s).
Proof.
  intros Hp. unfold scan_file.
  destruct (extension_included cfg p), (path_excluded cfg p); cbn; try done.
  destruct (Hp eq_refl eq_refl) as (fi & Hfs & Hst).
  unfold needs_processing, getmtime, calculate_file_hash_at. st_unfold. cbn.
  rewrite Hst. cbn. rewrite Hfs. cbn. rewrite Hfs. cbn.
  by rewrite bool_decide_eq_true_2.
Qed.

Lemma scan_files_unchanged files n s :
  (∀ p, p ∈ files → extension_included cfg p = true → path_excluded cfg p = false →
   ∃ fi, sys_fs s !! p = Some fi ∧ sys_state s !! p = Some (fingerprint fi)) →
  st_exec (scan_files cfg cwd files n) s = s.
Proof.
  revert n. induction files as [|p files IH]; intros n Hp; [done|].
  cbn [scan_files]. unfold st_exec.
  rewrite (st_run_bind_ok _ _ _ _ _ (scan_file_unchanged s p (Hp p (list_elem_of_here _ _)))).
  apply IH. intros q Hq. apply Hp. by right.
Qed.

(** C15: the ledger is saved once, after the whole scan (line 332), not
    after each file (spec 3: persisted after every mutating batch).  If
    the process dies after any number [k] of iterations of the scan, the
    ledger file is the one read at start-up, so the restarted process
    (connecting to the collection as the crash left it) has the ledger
    of before the scan, while the collection keeps every record the
    scan added: a path the scan ingested that was not tracked before is
    untracked again although it has records, so the ledger no longer
    covers the store, and its next ingestion adds the chunks again. *)
Theorem scan_crash_forgets_ingested env disk s k :
  env_model_ok env = true → env_server_ok env = true → sys_state s = ∅ →
  let s0 := st_exec (initialize_components env) s in
  let sk := st_exec (scan_files cfg cwd (take k (files_to_scan cfg disk)) 0) s0 in
  ∀ ck, sys_collection sk = Some ck →
  let r := st_exec (initialize_components (mkInitEnv C true true ck (env_ledger_ok env)))
             (restart sk) in
  sys_saved sk = sys_saved s ∧ sys_state r = sys_state s0 ∧ sys_collection r = Some ck ∧
  ∀ p, sys_state s0 !! p = None → records_of p (coll_records ck) ≠ [] → ¬ ledger_covers_store r.
Proof.
  intros Hm Hs Hfresh. cbn zeta. intros ck Hck.
  assert (Hsv : sys_saved (st_exec (scan_files cfg cwd (take k (files_to_scan cfg disk)) 0)
                  (st_exec (initialize_components env) s)) = sys_saved s)
    by (by rewrite scan_files_saved, initialize_saved).
  destruct (initialize_loaded env s Hm Hs) as [_ Hst0].
  destruct (initialize_loaded (mkInitEnv C true true ck (env_ledger_ok env))
    (restart (st_exec (scan_files cfg cwd (take k (files_to_scan cfg disk)) 0)
       (st_exec (initialize_components env) s))) eq_refl eq_refl) as [Hc Hst].
  cbn [restart sys_saved sys_state env_server_collection env_ledger_ok] in Hc, Hst.
  rewrite Hsv in Hst.
  assert (Hr : sys_state (st_exec (initialize_components (mkInitEnv C true true ck (env_ledger_ok env)))
    (restart (st_exec (scan_files cfg cwd (take k (files_to_scan cfg disk)) 0)
       (st_exec (initialize_components env) s)))) = sys_state (st_exec (initialize_components env) s))
    by (rewrite Hst, Hst0, Hfresh; by destruct (sys_saved s)).
  split_and!; [done|done|done|].
  intros p Hp Hrec Hcov. destruct (records_of p (coll_records ck)) as [|r0 rs] eqn:E; [done|].
  assert (Hr0 : r0 ∈ records_of p (coll_records ck)) by (rewrite E; left).
  apply records_of_elem in Hr0 as [Hin Hpath].
  destruct (Hcov ck Hc r0 Hin) as [? Hsome]. by rewrite Hpath, Hr, Hp in Hsome.
Qed.
End ScanProofs.

(** ** Witnesses *)

Lemma scan_keeps_unlisted_witness :
  let env := mkInitEnv _ true true [demo_gone_record] true in
  sys_fs demo_restarted !! demo_gone = None ∧
  demo_gone ∉ files_to_scan demo_cfg demo_disk ∧
  untouched demo_gone (st_exec (initialize_components env) demo_restarted)
    (st_exec (initial_ingestion demo_cfg "/" env demo_disk) demo_restarted).
Proof.
  cbn zeta.
  assert (Hq : demo_gone ∉ files_to_scan demo_cfg demo_disk)
    by (apply (bool_decide_eq_true_1 _); vm_compute; reflexivity).
  split; [reflexivity|]. split; [exact Hq|]. exact (scan_keeps_unlisted demo_cfg "/" _ _ _ _ Hq).
Defined.

Lemma init_failure_stops_witness :
  let env := mkInitEnv _ true false [] true in
  (env_model_ok env = false ∨ env_server_ok env = false) ∧
  let r := initial_ingestion demo_cfg "/" env demo_disk demo_fresh in
  fst r = Ok None ∧ sys_calls (snd r) = sys_calls demo_fresh ∧
  sys_state (snd r) = sys_state demo_fresh ∧ sys_saved (snd r) = sys_saved demo_fresh.
Proof.
  cbn zeta.
  assert (Hf : env_model_ok (mkInitEnv (list VectorRecord) true false [] true) = false ∨
               env_server_ok (mkInitEnv (list VectorRecord) true false [] true) = false)
    by (right; reflexivity).
  split; [exact Hf|]. exact (init_failure_stops demo_cfg "/" _ _ _ Hf).
Defined.

Lemma scan_crash_forgets_ingested_witness :
  let env0 := mkInitEnv (list VectorRecord) true true [] true in
  let s0 := st_exec (initialize_components env0) demo_fresh in
  let sk := st_exec (scan_files demo_cfg "/" (take 1 (files_to_scan demo_cfg demo_disk)) 0) s0 in
  let ck := default [] (sys_collection sk) in
  let r := st_exec (initialize_components (mkInitEnv _ true true ck true)) (restart sk) in
  sys_state demo_fresh = ∅ ∧ sys_collection sk = Some ck ∧
  sys_state s0 !! demo_path = None ∧ records_of demo_path (coll_records ck) ≠ [] ∧
  sys_saved sk = sys_saved demo_fresh ∧ sys_state r = sys_state s0 ∧ sys_collection r = Some ck ∧
  ¬ ledger_covers_store r.
Proof.
  cbn zeta.
  set (env0 := mkInitEnv (list VectorRecord) true true [] true).
  set (sk := st_exec (scan_files demo_cfg "/" (take 1 (files_to_scan demo_cfg demo_disk)) 0)
               (st_exec (initialize_components env0) demo_fresh)).
  assert (Hck : sys_collection sk = Some (default [] (sys_collection sk)))
    by (vm_compute; reflexivity).
  assert (Hp : sys_state (st_exec (initialize_components env0) demo_fresh) !! demo_path = None)
    by (vm_compute; reflexivity).
  assert (Hrec : records_of demo_path (coll_records (default [] (sys_collection sk))) ≠ [])
    by (vm_compute; discriminate).
  destruct (scan_crash_forgets_ingested demo_cfg "/" env0 demo_disk demo_fresh 1
    eq_refl eq_refl eq_refl _ Hck) as (H1 & H2 & H3 & H4).
  split_and!; try done. exact (H4 demo_path Hp Hrec).
Defined.
