(* ===== verification/Main.v ===== *)
(** The whole program: [initial_ingestion_and_start_watching] of
    [src/ingest.py] (lines 288-353), run by [if __name__ == "__main__"].

    After the start-up and the initial scan of [Scanner], the function
    schedules the observer on the roots that exist (lines 338-343),
    starts it and sleeps until a [KeyboardInterrupt]; the observer's
    thread meanwhile hands the events to [CodeChangeHandler] one at a
    time.  When interrupted it joins the observer and saves the ledger a
    last time (line 353).  The events delivered between start and
    interrupt are the list [evs]; the observer watches the roots
    recursively, so these are events below [watched_roots]. *)

From S2P Require Import Prelude PyStr Chunker Paths Store Engine Locality Dispatcher Scanner.

(** The roots [observer.schedule] is called on. *)
Definition watched_roots (cfg : Config) (disk : string → option Entry) : list string :=
  filter (λ path, is_Some (disk path)) (PROJECT_ROOT_DIRECTORIES cfg).

Section Main.
Context `{Collection C}.
Context (cfg : Config) (cwd : string).
Local Abbreviation M := (st (Sys C) Exn).

Definition initial_ingestion_and_start_watching (env : InitEnv C) (disk : string → option Entry)
    (evs : list Event) : M unit :=
  r ← initial_ingestion cfg cwd env disk;
  match r with
  | None => mret ()
  | Some _ => dispatch_all cfg cwd evs;; save_processed_files_state
  end.
End Main.

(** Events after the scan of [demo_disk]: an edit, a new directory, a
    deletion. *)
Definition demo_events : list Event :=
  [EvModified false demo_path; EvCreated true "/proj/alpha/docs";
   EvDeleted false "/proj/alpha/src/util.py"].

Section Proofs.
Context `{HL : CollectionLaws C}.
Context (cfg : Config) (cwd : string).
Implicit Types (s : Sys C).

Lemma dispatch_all_exec evs s :
  dispatch_all cfg cwd evs s = (Ok (), foldl (λ s ev, dispatch_result cfg cwd ev s) s evs).
Proof.
  revert s. induction evs as [|ev evs IH]; intros s; [done|].
  cbn [dispatch_all foldl]. rewrite (st_run_bind_ok _ _ _ _ _ (dispatch_run cfg cwd ev s)). apply IH.
Qed.

Lemma dispatch_fold_inv evs s :
  sync_inv s → no_lost_acks s →
  let s' := foldl (λ s ev, dispatch_result cfg cwd ev s) s evs in sync_inv s' ∧ no_lost_acks s'.
Proof.
  revert s. induction evs as [|ev evs IH]; intros s Hi Hn; [done|].
  destruct (dispatch_inv cfg cwd ev s Hi Hn). by apply IH.
Qed.

Lemma dispatch_fold_disk evs s :
  sys_disk_ok (foldl (λ s ev, dispatch_result cfg cwd ev s) s evs) = sys_disk_ok s.
Proof.
  revert s. induction evs as [|ev evs IH]; intros s; [done|]. cbn. by rewrite IH, dispatch_disk.
Qed.

Lemma disk_preorder : PreOrder (λ a b : Sys C, sys_disk_ok b = sys_disk_ok a).
Proof. split; [intros a; done|intros a b c Hab Hbc; congruence]. Qed.

Lemma initial_ingestion_disk env disk s :
  sys_disk_ok (st_exec (initial_ingestion cfg cwd env disk) s) = sys_disk_ok s.
Proof.
  assert (Hinit : sys_disk_ok (st_exec (initialize_components env) s) = sys_disk_ok s).
  { unfold initialize_components, st_exec. st_unfold. repeat case_match; simplify_eq/=; done. }
  destruct (env_model_ok env) eqn:Hm; [destruct (env_server_ok env) eqn:Hs|].
  - rewrite initial_ingestion_ok, save_result_disk by done. rewrite <- Hinit.
    pose proof disk_preorder.
    apply (scan_files_rel cfg cwd (λ a b : Sys C, sys_disk_ok b = sys_disk_ok a)); intros p s' _.
    + exact (frame_disk _ _ _ (process_file_frame cfg cwd s' p)).
    + exact (frame_disk _ _ _ (remove_frame s' p)).
  - unfold st_exec at 1. by rewrite initial_ingestion_fail by auto.
  - unfold st_exec at 1. by rewrite initial_ingestion_fail by auto.
Qed.

(** The run of the program when the start-up succeeds. *)
Lemma main_ok env disk evs s :
  env_model_ok env = true → env_server_ok env = true →
  st_exec (initial_ingestion_and_start_watching cfg cwd env disk evs) s =
  save_result (foldl (λ s ev, dispatch_result cfg cwd ev s)
                 (st_exec (initial_ingestion cfg cwd env disk) s) evs).
Proof.
  intros Hm Hs. destruct (initial_ingestion_returns cfg cwd env disk s Hm Hs) as [n Hn].
  unfold initial_ingestion_and_start_watching, st_exec at 1.
  rewrite (st_run_bind_ok _ _ _ _ _ (pair_eta_fst _ _ Hn)).
  rewrite (st_run_bind_ok _ _ _ _ _ (dispatch_all_exec evs _)).
  by rewrite save_run.
Qed.

Lemma main_fail env disk evs s :
  env_model_ok env = false ∨ env_server_ok env = false →
  st_exec (initial_ingestion_and_start_watching cfg cwd env disk evs) s =
  st_exec (initialize_components env) s.
Proof.
  intros Hf. unfold initial_ingestion_and_start_watching, st_exec at 1.
  by rewrite (st_run_bind_ok _ _ _ _ _ (initial_ingestion_fail cfg cwd env disk s Hf)).
Qed.

(** C8: the consistency invariant holds when the program stops.  If
    the ledger loaded at start-up and the collection the server holds
    are consistent, then after the initial scan, any sequence of
    handled events and the final save at the interrupt, every record
    belongs to a tracked path and no path has two records with the
    same [chunk_id], whatever the walk finds and whatever the store
    answers, provided no store call takes effect and then reports a
    failure. *)
Theorem program_inv env disk evs s :
  sync_inv (st_exec (initialize_components env) s) → no_lost_acks s →
  sync_inv (st_exec (initial_ingestion_and_start_watching cfg cwd env disk evs) s).
Proof.
  intros Hi Hn. destruct (env_model_ok env) eqn:Hm; [destruct (env_server_ok env) eqn:Hs|].
  - rewrite main_ok by done. apply save_result_inv.
    destruct (initial_ingestion_inv cfg cwd env disk s Hi Hn). by apply dispatch_fold_inv.
  - by rewrite main_fail by auto.
  - by rewrite main_fail by auto.
Qed.

(** C21: the ledger file holds the final ledger when the program stops
    after a successful start-up: the save after [observer.join()]
    writes the in-memory ledger, the ledger file being writable. *)
Theorem program_saves_ledger env disk evs s :
  env_model_ok env = true → env_server_ok env = true → sys_disk_ok s = true →
  let s' := st_exec (initial_ingestion_and_start_watching cfg cwd env disk evs) s in
  sys_saved s' = Some (sys_state s').
Proof.
  intros Hm Hs Hd. cbn zeta. rewrite main_ok by done. apply save_result_saved.
  by rewrite dispatch_fold_disk, initial_ingestion_disk.
Qed.
End Proofs.

(** ** Witnesses *)

Lemma program_inv_witness :
  let env0 := mkInitEnv _ true true [] true in
  sync_inv (st_exec (initialize_components env0) demo_fresh) ∧ no_lost_acks demo_fresh ∧
  sync_inv (st_exec (initial_ingestion_and_start_watching demo_cfg "/" env0 demo_disk demo_events)
              demo_fresh).
Proof.
  cbn zeta.
  assert (Hi : sync_inv (st_exec (initialize_components (mkInitEnv _ true true [] true))
                           demo_fresh)) by (by apply (sync_inv_nil_store _ [])).
  assert (Hn : no_lost_acks demo_fresh) by constructor.
  split; [exact Hi|]. split; [exact Hn|]. exact (program_inv demo_cfg "/" _ _ _ _ Hi Hn).
Defined.

Lemma program_saves_ledger_witness :
  let env0 := mkInitEnv (list VectorRecord) true true [] true in
  env_model_ok env0 = true ∧ env_server_ok env0 = true ∧ sys_disk_ok demo_fresh = true ∧
  let s' := st_exec (initial_ingestion_and_start_watching demo_cfg "/" env0 demo_disk demo_events)
              demo_fresh in
  sys_saved s' = Some (sys_state s').
Proof.
  cbn zeta. split; [reflexivity|]. split; [reflexivity|]. split; [reflexivity|].
  exact (program_saves_ledger demo_cfg "/" (mkInitEnv _ true true [] true) demo_disk demo_events
    demo_fresh eq_refl eq_refl eq_refl).
Defined.
