(* ===== verification/Watcher.v ===== *)
(** The watching phase of [initial_ingestion_and_start_watching] in
    [src/ingest.py] (lines 335-353), with its two threads.

    The main thread schedules the observer on the roots that exist
    ([watched_roots], lines 338-343), starts it (line 345), sleeps until
    a [KeyboardInterrupt], calls [observer.stop()] (lines 346-350),
    [observer.join()] (351) and saves the ledger (353).  The observer
    thread of watchdog queues the events its emitters see below the
    scheduled roots and hands them to [CodeChangeHandler] one at a time
    while it has not been stopped; [stop()] ends the loop after the
    handler running at that moment, and the events still queued are
    not delivered.  The handlers are the only code touching the shared
    state while the observer runs (the main thread sleeps), so each
    handler is one atomic step.

    [Threads] is the state of both threads; [thread_lstep] is their
    interleaving, with the disk changing at any time, each step
    labelled by what it shows ([Obs]: an event queued by the emitters
    or handled by the observer, a disk change, [stop()], or nothing);
    [thread_step] forgets the label and [thread_star] collects the
    labels of a run into a trace.  The theorems show that on every
    trace the threaded program refines the sequential watcher of
    [Dispatcher] run on the trace ([seq_run], plus the final save),
    handling the queued events in order and none after [stop()], that the ledger file holds the
    last ledger when the program exits, that an interrupt always leads
    to the exit, and that nothing is handled after the interrupt. *)

From S2P Require Import Prelude PyStr Chunker Paths Store Fingerprint Engine Locality Dispatcher Schema Scanner Main.

(** Where the main thread is. *)
Inductive MainPc :=
  | Starting     (* before [observer.start()] *)
  | Sleeping     (* in [while True: time.sleep(1)] *)
  | Interrupted  (* [observer.stop()] done, before [observer.join()] *)
  | Joined       (* after [observer.join()] *)
  | Exited.      (* after the last [save_processed_files_state()] *)

#[export] Instance MainPc_eq_dec : EqDecision MainPc.
Proof. solve_decision. Defined.

Record Threads (C : Type) := mkThreads {
  th_sys : Sys C;
  th_main : MainPc;
  th_queue : list Event;  (* the observer's event queue *)
  th_stop : bool;         (* [observer.stop()] has been called *)
  th_alive : bool;        (* the observer thread runs *)
}.
Arguments mkThreads {C}.
Arguments th_sys {C}.
Arguments th_main {C}.
Arguments th_queue {C}.
Arguments th_stop {C}.
Arguments th_alive {C}.

(** Every path an event names, directory events included. *)
Definition event_src_paths (ev : Event) : list string :=
  match ev with
  | EvModified _ p | EvCreated _ p | EvDeleted _ p | EvClosed _ p | EvOpened _ p => [p]
  | EvMoved _ p q => [p; q]
  end.

(** [observer.schedule(event_handler, path, recursive=True)]: the
    emitters report events below the scheduled roots. *)
Definition event_watched (roots : list string) (ev : Event) : bool :=
  forallb (λ p, existsb (λ r, py_startswith p (r +:+ "/")) roots) (event_src_paths ev).

(** What a step of the threads does that the outside can see: an
    emitter queues an event, the observer hands one to
    [CodeChangeHandler], the files on disk change, [observer.stop()]
    is called, or a step of neither kind (start, end of the observer's
    loop, join, save). *)
Inductive Obs :=
  | OEmit (ev : Event)
  | OHandle (ev : Event)
  | ODisk (fs : gmap string FileInfo)
  | OStop
  | OTau.

(** The events queued and the events handled along a trace, in order. *)
Definition emitted (tr : list Obs) : list Event :=
  omap (λ o, match o with OEmit ev => Some ev | _ => None end) tr.

Definition handled (tr : list Obs) : list Event :=
  omap (λ o, match o with OHandle ev => Some ev | _ => None end) tr.

Section Watcher.
Context `{Collection C}.
Context (cfg : Config) (cwd : string) (roots : list string).

Definition set_th_sys (s : Sys C) (t : Threads C) : Threads C :=
  mkThreads s (th_main t) (th_queue t) (th_stop t) (th_alive t).

(** The state after the initial ingestion, before line 345. *)
Definition watcher_start (s : Sys C) : Threads C := mkThreads s Starting [] false false.

Inductive thread_lstep : Threads C → Obs → Threads C → Prop :=
  (** [observer.start()] *)
  | t_start s q :
      thread_lstep (mkThreads s Starting q false false) OTau (mkThreads s Sleeping q false true)
  (** an emitter queues an event below a watched root *)
  | t_emit s pc q ev :
      event_watched roots ev = true →
      thread_lstep (mkThreads s pc q false true) (OEmit ev) (mkThreads s pc (q ++ [ev]) false true)
  (** the observer thread hands the next event to [CodeChangeHandler] *)
  | t_handle s pc ev q :
      thread_lstep (mkThreads s pc (ev :: q) false true) (OHandle ev)
        (mkThreads (dispatch_result cfg cwd ev s) pc q false true)
  (** the files on disk change *)
  | t_disk fs t : thread_lstep t (ODisk fs) (set_th_sys (set_fs fs (th_sys t)) t)
  (** [except KeyboardInterrupt: observer.stop()] *)
  | t_interrupt s q alive :
      thread_lstep (mkThreads s Sleeping q false alive) OStop (mkThreads s Interrupted q true alive)
  (** the observer's loop sees the stop flag and ends *)
  | t_observer_exit s pc q :
      thread_lstep (mkThreads s pc q true true) OTau (mkThreads s pc q true false)
  (** [observer.join()] *)
  | t_join s q :
      thread_lstep (mkThreads s Interrupted q true false) OTau (mkThreads s Joined q true false)
  (** [save_processed_files_state()] *)
  | t_save s q :
      thread_lstep (mkThreads s Joined q true false) OTau
        (mkThreads (save_result s) Exited q true false).

(** A step of either thread, whatever it does. *)
Definition thread_step (t t' : Threads C) : Prop := ∃ o, thread_lstep t o t'.

(** A run of the threads and its trace, steps appended at the end. *)
Inductive thread_star : Threads C → list Obs → Threads C → Prop :=
  | star_refl t : thread_star t [] t
  | star_snoc t tr t' o t'' :
      thread_star t tr t' → thread_lstep t' o t'' → thread_star t (tr ++ [o]) t''.

(** The sequential watcher ([Dispatcher]) run on the handled events and
    disk changes of a trace, in their order. *)
Definition seq_run (s : Sys C) (tr : list Obs) : Sys C :=
  foldl (λ s o, match o with
                | OHandle ev => dispatch_result cfg cwd ev s
                | ODisk fs => set_fs fs s
                | _ => s
                end) s tr.
End Watcher.

Section Proofs.
Context `{HL : CollectionLaws C}.
Context (cfg : Config) (cwd : string) (roots : list string).
Implicit Types (s : Sys C) (t : Threads C).

Local Abbreviation step := (thread_step cfg cwd roots).

(** The control state of the two threads. *)
Definition th_ok t : Prop :=
  match th_main t with
  | Starting => th_alive t = false ∧ th_stop t = false
  | Sleeping => th_alive t = true ∧ th_stop t = false
  | Interrupted => th_stop t = true
  | Joined => th_stop t = true ∧ th_alive t = false
  | Exited =>
      th_stop t = true ∧ th_alive t = false ∧
      (sys_disk_ok (th_sys t) = true → sys_saved (th_sys t) = Some (sys_state (th_sys t)))
  end.

Lemma save_result_set_fs fs s : set_fs fs (save_result s) = save_result (set_fs fs s).
Proof. unfold save_result. cbn. by destruct (sys_disk_ok s). Qed.

Lemma th_ok_step t t' : step t t' → th_ok t → th_ok t'.
Proof.
  intros [o Hst]. destruct Hst as [s q|s pc q ev _|s pc ev q|fs [s pc q st al]|s q al|s pc q|s q|s q];
    unfold th_ok; cbn; try destruct pc; try naive_solver.
  intros _. split_and!; [done|done|]. rewrite save_result_disk. apply save_result_saved.
Qed.

Lemma th_ok_rtc t t' : rtc step t t' → th_ok t → th_ok t'.
Proof. induction 1; eauto using th_ok_step. Qed.

Lemma th_ok_start s : th_ok (watcher_start s).
Proof. done. Qed.

(** After [observer.stop()] nothing but the disk and the final save
    changes the shared state. *)
Lemma stopped_step t t' :
  step t t' → th_stop t = true →
  th_stop t' = true ∧ sys_state (th_sys t') = sys_state (th_sys t) ∧
  sys_collection (th_sys t') = sys_collection (th_sys t).
Proof.
  intros [o Hst]. destruct Hst as [s q|s pc q ev _|s pc ev q|fs [s pc q st al]|s q al|s pc q|s q|s q];
    cbn; try discriminate; intros; split_and!; try done; unfold save_result;
    by destruct (sys_disk_ok s).
Qed.

Lemma stopped_rtc t t' :
  rtc step t t' → th_stop t = true →
  sys_state (th_sys t') = sys_state (th_sys t) ∧ sys_collection (th_sys t') = sys_collection (th_sys t).
Proof.
  induction 1 as [t|t1 t2 t3 Hstep _ IH]; intros Hs; [done|].
  destruct (stopped_step t1 t2 Hstep Hs) as (Hs2 & E1 & E2). rewrite <- E1, <- E2. by apply IH.
Qed.

Lemma disk_ok_step t t' : step t t' → sys_disk_ok (th_sys t') = sys_disk_ok (th_sys t).
Proof.
  intros [o Hst]. destruct Hst as [s q|s pc q ev _|s pc ev q|fs [s pc q st al]|s q al|s pc q|s q|s q];
    cbn; rewrite ?dispatch_disk, ?save_result_disk; done.
Qed.

Lemma disk_ok_rtc t t' : rtc step t t' → sys_disk_ok (th_sys t') = sys_disk_ok (th_sys t).
Proof. induction 1 as [|t1 t2 t3 Hs _ IH]; [done|]. by rewrite IH, (disk_ok_step _ _ Hs). Qed.

(** The abstraction of a threaded state: the state of the sequential
    watcher it stands for, saved once more when the program has
    exited. *)
Definition abstracts (s0 : Sys C) t : Prop :=
  ∃ s', rtc (watch_step cfg cwd) s0 s' ∧
    th_sys t = if decide (th_main t = Exited) then save_result s' else s'.

Lemma abstracts_step s0 t t' : step t t' → th_ok t → abstracts s0 t → abstracts s0 t'.
Proof.
  intros [o Hstep] Hok [s' [Hr Ht]].
  destruct Hstep as [s q|s pc q ev _|s pc ev q|fs [s pc q st al]|s q al|s pc q|s q|s q];
    cbn in Ht, Hok |- *.
  - by exists s'.
  - by exists s'.
  - exists (dispatch_result cfg cwd ev s'). split.
    + eapply rtc_r; [done|]. rewrite <- dispatch_exec. constructor.
    + destruct (decide (pc = Exited)) as [->|Hne].
      * destruct Hok as (_ & Ha & _). discriminate.
      * revert Ht. cbn. destruct (decide (pc = Exited)); [done|]. by intros ->.
  - exists (set_fs fs s'). split; [eapply rtc_r; [done|constructor]|].
    unfold th_ok in Hok. cbn in Hok |- *. rewrite Ht.
    destruct (decide (pc = Exited)); [by rewrite save_result_set_fs|done].
  - by exists s'.
  - by exists s'.
  - by exists s'.
  - exists s'. by subst.
Qed.

Lemma abstracts_rtc s0 t t' : rtc step t t' → th_ok t → abstracts s0 t → abstracts s0 t'.
Proof.
  induction 1 as [t|t1 t2 t3 Hstep _ IH]; intros Hok Ha; [done|].
  apply IH; [by apply (th_ok_step t1)|by apply (abstracts_step s0 t1)].
Qed.
(** *** Traces *)

Lemma star_rtc t tr t' : thread_star cfg cwd roots t tr t' → rtc step t t'.
Proof. induction 1; [done|]. eapply rtc_r; [done|]. by eexists. Qed.

(** Where an element sits in a list with one more element at its end. *)
Lemma snoc_split {A} (tr tr1 tr2 : list A) o x :
  tr ++ [o] = tr1 ++ x :: tr2 →
  (tr1 = tr ∧ x = o ∧ tr2 = []) ∨ ∃ tr2', tr2 = tr2' ++ [o] ∧ tr = tr1 ++ x :: tr2'.
Proof.
  destruct tr2 as [|y tr2 _] using rev_ind; intros E.
  - left. apply app_inj_tail in E as [-> [= ->]]. done.
  - right. rewrite app_comm_cons, app_assoc in E. apply app_inj_tail in E as [E ->].
    by exists tr2.
Qed.

Lemma handled_snoc tr o :
  handled (tr ++ [o]) = handled tr ++ match o with OHandle ev => [ev] | _ => [] end.
Proof. unfold handled. rewrite omap_app. by destruct o. Qed.

Lemma emitted_snoc tr o :
  emitted (tr ++ [o]) = emitted tr ++ match o with OEmit ev => [ev] | _ => [] end.
Proof. unfold emitted. rewrite omap_app. by destruct o. Qed.

Lemma seq_run_snoc s tr o :
  seq_run cfg cwd s (tr ++ [o]) =
  match o with
  | OHandle ev => dispatch_result cfg cwd ev (seq_run cfg cwd s tr)
  | ODisk fs => set_fs fs (seq_run cfg cwd s tr)
  | _ => seq_run cfg cwd s tr
  end.
Proof. unfold seq_run. rewrite foldl_app. by destruct o. Qed.

(** The sequential run of a trace is a run of [watch_step]. *)
Lemma seq_run_rtc s tr o :
  rtc (watch_step cfg cwd) s (seq_run cfg cwd s tr) →
  rtc (watch_step cfg cwd) s (seq_run cfg cwd s (tr ++ [o])).
Proof.
  intros Hr. rewrite seq_run_snoc. destruct o; try done; eapply rtc_r; try done.
  - rewrite <- dispatch_exec. constructor.
  - constructor.
Qed.

(** Nothing is handled after the [OStop] of a trace. *)
Definition quiet_after_stop (tr : list Obs) : Prop :=
  ∀ tr1 tr2, tr = tr1 ++ OStop :: tr2 → handled tr2 = [].

Lemma quiet_after_stop_snoc tr o :
  quiet_after_stop tr → (OStop ∈ tr → ∀ ev, o ≠ OHandle ev) → quiet_after_stop (tr ++ [o]).
Proof.
  intros Hq Ho tr1 tr2 E. apply snoc_split in E as [(_ & <- & ->)|(tr2' & -> & E)]; [done|].
  rewrite handled_snoc, (Hq tr1 tr2' E). destruct o as [|ev| | |]; try done.
  assert (Hin : OStop ∈ tr) by (rewrite E; apply elem_of_app; right; left).
  exfalso. by apply (Ho Hin ev).
Qed.

(** What a run of the threads from [watcher_start s] keeps: the control
    invariant, the stop flag as the [OStop] of the trace, the queue as
    the emitted events not yet handled, no handling after the stop, and
    the shared state as the sequential run of the trace, saved once
    more after the exit. *)
Lemma star_trace s tr t :
  thread_star cfg cwd roots (watcher_start s) tr t →
  th_ok t ∧ (OStop ∈ tr ↔ th_stop t = true) ∧ handled tr ++ th_queue t = emitted tr ∧
  quiet_after_stop tr ∧ rtc (watch_step cfg cwd) s (seq_run cfg cwd s tr) ∧
  th_sys t = if decide (th_main t = Exited) then save_result (seq_run cfg cwd s tr)
             else seq_run cfg cwd s tr.
Proof.
  remember (watcher_start s) as t0 eqn:E0. induction 1 as [t|t tr t' o t'' Hstar IH Hst].
  - subst. split_and!; [done|split; [by intros ?%elem_of_nil|done]|done| |done|done].
    intros tr1 tr2 E. by destruct tr1.
  - destruct (IH E0) as (Hok & Hstop & Hq & Hquiet & Hr & Hsys). clear IH.
    assert (Hok' : th_ok t'') by (eapply th_ok_step; [by eexists|done]).
    split_and!; [done| | |apply quiet_after_stop_snoc; [done|] |by apply seq_run_rtc|];
      rewrite ?elem_of_app, ?handled_snoc, ?emitted_snoc, ?seq_run_snoc;
      destruct Hst as [s0 q|s0 pc q ev _|s0 pc ev q|fs [s0 pc q st al]|s0 q al|s0 pc q|s0 q|s0 q];
      cbn in Hok, Hstop, Hq, Hsys |- *; rewrite ?list_elem_of_singleton, ?app_nil_r;
      try naive_solver.
    + by rewrite app_assoc, Hq.
    + by rewrite <- app_assoc.
    + destruct (decide (pc = Exited)) as [->|Hne]; [destruct Hok as (_ & ? & _); discriminate|].
      rewrite Hsys. by destruct (decide (pc = Exited)).
    + rewrite Hsys. cbn. destruct (decide (pc = Exited)); [by rewrite save_result_set_fs|done].
Qed.
End Proofs.

(** ** Properties *)

Section Properties.
Context `{HL : CollectionLaws C}.
Context (cfg : Config) (cwd : string) (roots : list string).

(** C31: the two threads refine the sequential watcher.  For every run
    of the threaded program from the end of the initial ingestion [s],
    whatever the interleaving of emitters, handler, disk changes,
    interrupt, end of the observer's loop, join and save, with trace
    [tr]: the events handled are the events queued, in the order they
    were queued, each once (those not yet handled are still in the
    queue); nothing is handled after [observer.stop()]; and the shared
    state is that of the sequential watcher of [Dispatcher] run on the
    handled events and the disk changes of the trace, in their order
    (each handler atomic), saved once more after the exit.  So
    [watcher_inv], [watcher_schema] and [dispatch_untouched] hold of
    the threaded program. *)
Theorem threads_refine_watcher (s : Sys C) tr (t : Threads C) :
  thread_star cfg cwd roots (watcher_start s) tr t →
  handled tr ++ th_queue t = emitted tr ∧ quiet_after_stop tr ∧
  rtc (watch_step cfg cwd) s (seq_run cfg cwd s tr) ∧
  th_sys t = if decide (th_main t = Exited) then save_result (seq_run cfg cwd s tr)
             else seq_run cfg cwd s tr.
Proof. intros Hr. by destruct (star_trace cfg cwd roots s tr t Hr) as (_ & _ & ?). Qed.

(** C20: the consistency invariant holds in every state of the whole
    program.  If the ledger loaded at start-up and the collection the
    server holds are consistent, then after [initial_ingestion] (the
    start-up and the initial scan), every state the main thread and the
    observer thread reach on the roots of [observer.schedule], whatever
    the interleaving of events, handlers, disk changes, interrupt, join
    and final save, has every record belonging to a tracked path and no
    path with two records of the same [chunk_id], provided no store call
    takes effect and then reports a failure. *)
Theorem whole_program_inv env disk (s : Sys C) (t : Threads C) :
  sync_inv (st_exec (initialize_components env) s) → no_lost_acks s →
  rtc (thread_step cfg cwd (watched_roots cfg disk))
    (watcher_start (st_exec (initial_ingestion cfg cwd env disk) s)) t →
  sync_inv (th_sys t) ∧ no_lost_acks (th_sys t).
Proof.
  intros Hi Hn Hr. destruct (initial_ingestion_inv cfg cwd env disk s Hi Hn) as [Hi0 Hn0].
  set (s0 := st_exec (initial_ingestion cfg cwd env disk) s) in *.
  destruct (abstracts_rtc cfg cwd _ s0 _ _ Hr (th_ok_start _)) as (s' & Hr' & ->).
  { exists s0. by split. }
  destruct (watch_rtc_inv cfg cwd _ _ Hr' Hi0 Hn0).
  case_decide; [|done]. split; [by apply save_result_inv | by apply save_result_acks].
Qed.

(** C32: the ledger file holds the last ledger when the program exits.
    The save at line 353 comes after [observer.join()], so when the main
    thread has exited, the observer thread has ended, no handler can
    run any more, and the saved ledger is the in-memory one (the ledger
    file being writable). *)
Theorem exit_saves_final_ledger (s : Sys C) (t : Threads C) :
  rtc (thread_step cfg cwd roots) (watcher_start s) t → th_main t = Exited →
  sys_disk_ok s = true →
  th_alive t = false ∧ sys_saved (th_sys t) = Some (sys_state (th_sys t)).
Proof.
  intros Hr He Hd. pose proof (th_ok_rtc cfg cwd roots _ _ Hr (th_ok_start s)) as Hok.
  unfold th_ok in Hok. rewrite He in Hok. destruct Hok as (_ & Ha & Hs).
  split; [done|]. apply Hs. by rewrite (disk_ok_rtc cfg cwd roots _ _ Hr).
Qed.

(** C37: an interrupt always ends the program.  From any state where
    the main thread sleeps, [observer.stop()], the end of the observer's
    loop, [observer.join()] and the save lead to the exit, and the state
    at the exit is the state at the interrupt, saved. *)
Theorem interrupt_exits (s : Sys C) (t : Threads C) :
  rtc (thread_step cfg cwd roots) (watcher_start s) t → th_main t = Sleeping →
  ∃ t', rtc (thread_step cfg cwd roots) t t' ∧ th_main t' = Exited ∧
    th_sys t' = save_result (th_sys t).
Proof.
  intros Hr Hm. pose proof (th_ok_rtc cfg cwd roots _ _ Hr (th_ok_start s)) as Hok.
  destruct t as [st pc q stop alive]. cbn in Hm |- *. subst pc.
  unfold th_ok in Hok. cbn in Hok. destruct Hok as [-> ->].
  exists (mkThreads (save_result st) Exited q true false). split; [|split; reflexivity].
  eapply rtc_l; [eexists; apply t_interrupt|]. eapply rtc_l; [eexists; apply t_observer_exit|].
  eapply rtc_l; [eexists; apply t_join|]. apply rtc_once. eexists. exact (t_save _ _ _ _ _).
Qed.

(** C36: nothing is handled after the interrupt.  Once [observer.stop()]
    has been called, the ledger and the collection stay as they are
    until the exit: the events still in the observer's queue are
    dropped, although the files they name may have changed. *)
Theorem no_handling_after_interrupt (t t' : Threads C) :
  th_stop t = true → rtc (thread_step cfg cwd roots) t t' →
  sys_state (th_sys t') = sys_state (th_sys t) ∧
  sys_collection (th_sys t') = sys_collection (th_sys t).
Proof. intros Hs Hr. by apply (stopped_rtc cfg cwd roots t t'). Qed.
End Properties.

(** ** Witnesses *)

(** A run: the observer starts, [demo_path] is modified, the handler
    re-indexes it. *)
Definition demo_ev : Event := EvModified false demo_path.

Definition demo_running : Threads (list VectorRecord) :=
  mkThreads (dispatch_result demo_cfg "/" demo_ev demo_s_changed) Sleeping [] false true.

Lemma demo_running_reached :
  rtc (thread_step demo_cfg "/" ["/proj"]) (watcher_start demo_s_changed) demo_running.
Proof.
  eapply rtc_l; [eexists; apply t_start|].
  eapply rtc_l; [eexists; apply (t_emit demo_cfg "/" ["/proj"] _ _ [] demo_ev); reflexivity|].
  apply rtc_once; eexists; apply (t_handle demo_cfg "/" ["/proj"] _ _ demo_ev []).
Qed.

Definition demo_trace : list Obs := [OTau; OEmit demo_ev; OHandle demo_ev].

Lemma demo_running_traced :
  thread_star demo_cfg "/" ["/proj"] (watcher_start demo_s_changed) demo_trace demo_running.
Proof.
  change demo_trace with ((([] ++ [OTau]) ++ [OEmit demo_ev]) ++ [OHandle demo_ev]).
  eapply star_snoc; [eapply star_snoc; [eapply star_snoc; [apply star_refl|apply t_start]|]|].
  - apply (t_emit demo_cfg "/" ["/proj"] _ _ [] demo_ev). reflexivity.
  - apply (t_handle demo_cfg "/" ["/proj"] _ _ demo_ev []).
Qed.

Lemma threads_refine_watcher_witness :
  thread_star demo_cfg "/" ["/proj"] (watcher_start demo_s_changed) demo_trace demo_running ∧
  handled demo_trace ++ th_queue demo_running = emitted demo_trace ∧ quiet_after_stop demo_trace ∧
  rtc (watch_step demo_cfg "/") demo_s_changed (seq_run demo_cfg "/" demo_s_changed demo_trace) ∧
  th_sys demo_running =
    if decide (th_main demo_running = Exited)
    then save_result (seq_run demo_cfg "/" demo_s_changed demo_trace)
    else seq_run demo_cfg "/" demo_s_changed demo_trace.
Proof.
  split; [exact demo_running_traced|].
  exact (threads_refine_watcher demo_cfg "/" ["/proj"] demo_s_changed demo_trace demo_running
           demo_running_traced).
Defined.

Lemma interrupt_exits_witness :
  rtc (thread_step demo_cfg "/" ["/proj"]) (watcher_start demo_s_changed) demo_running ∧
  th_main demo_running = Sleeping ∧
  ∃ t', rtc (thread_step demo_cfg "/" ["/proj"]) demo_running t' ∧ th_main t' = Exited ∧
    th_sys t' = save_result (th_sys demo_running).
Proof.
  split; [exact demo_running_reached|]. split; [reflexivity|].
  exact (interrupt_exits demo_cfg "/" ["/proj"] demo_s_changed demo_running
           demo_running_reached eq_refl).
Defined.

Definition demo_exited : Threads (list VectorRecord) :=
  mkThreads (save_result (th_sys demo_running)) Exited [] true false.

Lemma demo_exited_reached :
  rtc (thread_step demo_cfg "/" ["/proj"]) (watcher_start demo_s_changed) demo_exited.
Proof.
  etrans; [exact demo_running_reached|].
  eapply rtc_l; [eexists; apply t_interrupt|]. eapply rtc_l; [eexists; apply t_observer_exit|].
  eapply rtc_l; [eexists; apply t_join|]. apply rtc_once. eexists. exact (t_save _ _ _ _ _).
Qed.

Lemma exit_saves_final_ledger_witness :
  rtc (thread_step demo_cfg "/" ["/proj"]) (watcher_start demo_s_changed) demo_exited ∧
  th_main demo_exited = Exited ∧ sys_disk_ok demo_s_changed = true ∧
  th_alive demo_exited = false ∧
  sys_saved (th_sys demo_exited) = Some (sys_state (th_sys demo_exited)).
Proof.
  split; [exact demo_exited_reached|]. split; [reflexivity|]. split; [reflexivity|].
  exact (exit_saves_final_ledger demo_cfg "/" ["/proj"] demo_s_changed demo_exited
           demo_exited_reached eq_refl eq_refl).
Defined.

(** The interrupt comes while the modification of [demo_path] is still
    queued: the program exits with the old ledger entry, although the
    handler would have recorded the new version. *)
Definition demo_interrupted : Threads (list VectorRecord) :=
  mkThreads demo_s_changed Interrupted [demo_ev] true true.

Definition demo_dropped : Threads (list VectorRecord) :=
  mkThreads (save_result demo_s_changed) Exited [demo_ev] true false.

Lemma no_handling_after_interrupt_witness :
  th_stop demo_interrupted = true ∧
  rtc (thread_step demo_cfg "/" ["/proj"]) demo_interrupted demo_dropped ∧
  sys_state (th_sys demo_dropped) = sys_state (th_sys demo_interrupted) ∧
  sys_collection (th_sys demo_dropped) = sys_collection (th_sys demo_interrupted) ∧
  sys_state (dispatch_result demo_cfg "/" demo_ev demo_s_changed) !! demo_path ≠
    sys_state demo_s_changed !! demo_path.
Proof.
  assert (Hr : rtc (thread_step demo_cfg "/" ["/proj"]) demo_interrupted demo_dropped).
  { eapply rtc_l; [eexists; apply t_observer_exit|]. eapply rtc_l; [eexists; apply t_join|]. apply rtc_once; eexists; apply t_save. }
  split; [reflexivity|]. split; [exact Hr|].
  split; [exact (proj1 (no_handling_after_interrupt demo_cfg "/" ["/proj"] demo_interrupted demo_dropped eq_refl Hr))|].
  split; [exact (proj2 (no_handling_after_interrupt demo_cfg "/" ["/proj"] demo_interrupted demo_dropped eq_refl Hr))|].
  vm_compute. congruence.
Defined.

Lemma whole_program_inv_witness :
  let env0 := mkInitEnv (list VectorRecord) true true [] true in
  let s0 := st_exec (initial_ingestion demo_cfg "/" env0 demo_disk) demo_fresh in
  sync_inv (st_exec (initialize_components env0) demo_fresh) ∧ no_lost_acks demo_fresh ∧
  rtc (thread_step demo_cfg "/" (watched_roots demo_cfg demo_disk)) (watcher_start s0)
    (mkThreads s0 Sleeping [] false true) ∧
  sync_inv s0 ∧ no_lost_acks s0.
Proof.
  cbn zeta.
  assert (Hi : sync_inv (st_exec (initialize_components (mkInitEnv _ true true [] true))
                           demo_fresh)) by (by apply (sync_inv_nil_store _ [])).
  assert (Hn : no_lost_acks demo_fresh) by constructor.
  assert (Hr : rtc (thread_step demo_cfg "/" (watched_roots demo_cfg demo_disk))
    (watcher_start (st_exec (initial_ingestion demo_cfg "/" (mkInitEnv _ true true [] true) demo_disk)
                      demo_fresh))
    (mkThreads (st_exec (initial_ingestion demo_cfg "/" (mkInitEnv _ true true [] true) demo_disk)
                  demo_fresh) Sleeping [] false true)) by (apply rtc_once; eexists; apply t_start).
  split_and!; [exact Hi|exact Hn|exact Hr|..];
    [exact (proj1 (whole_program_inv demo_cfg "/" _ _ _ _ Hi Hn Hr))
    |exact (proj2 (whole_program_inv demo_cfg "/" _ _ _ _ Hi Hn Hr))].
Defined.
