(* ===== verification/Stats.v ===== *)
(** The maintenance scripts over the same server: [src/stats.py]
    ([get_chromadb_stats], lines 10-71) and [src/clear.py]
    ([clear_collection], lines 7-36).

    The server is a record [Server] of its reachability and its named
    collections.  For the scripts a collection is what
    [collection.get(include=['metadatas'])] returns: one entry per
    record, the record's metadata dict ([PyDict], string keys and
    values, as the indexer writes them) or [None] for a record stored
    without metadata.  [get_chromadb_stats] returns what the script
    prints, as a value of [StatsOutcome]: the error branches, or the
    total, the number of projects and the per-project counts in the
    order printed.  The [defaultdict(int)] of lines 52-55 is an
    association list in insertion order ([dict_incr], the loop
    [count_loop], which fails with the [AttributeError] of
    [None.get]); [sorted_projects] is [sorted(project_counts.items())]
    of line 64, which compares the [(name, count)] tuples
    lexicographically ([item_le]), names by [String.le], code point
    order being byte order on UTF-8.  Whether chromadb's
    [get(ids=[])] raises (the call of line 42 on an empty collection)
    depends on its version: it is the parameter [empty_get_raises].

    [clear_leaves_ledger] runs the scripts together with the indexer of
    [Scanner]: [clear.py] drops the collection but not the ledger file
    of [ingest.py]. *)

From S2P Require Import Prelude PyStr Chunker Paths Store Engine Locality Dispatcher Scanner.
From stdpp Require Import sorting.

Definition CHROMADB_COLLECTION_NAME : string := "collection_name".

(** A metadata dict, its items in insertion order. *)
Abbreviation PyDict := (list (string * string)).

(** A ChromaDB server as the scripts see it. *)
Record Server := mkServer {
  srv_up : bool;                                    (** [HttpClient] and [heartbeat] succeed *)
  srv_collections : gmap string (list (option PyDict)); (** the metadatas of each collection *)
}.

(** What [get_chromadb_stats] prints. *)
Inductive StatsOutcome :=
  | StatsError                  (** the [except Exception] of line 70 *)
  | NoCollection                (** [get_collection] raised (lines 34-37) *)
  | NoItems                     (** lines 47-49 *)
  | Statistics (total unique_projects : nat) (projects : list (string * nat)).

(** [d.get(k)] on a dict given by its items. *)
Fixpoint dict_get {V} (d : list (string * V)) (k : string) : option V :=
  match d with
  | [] => None
  | (k', v) :: d' => if decide (k' = k) then Some v else dict_get d' k
  end.

(** [metadata.get('project_name', 'unknown_project_name')] *)
Definition project_name_of (metadata : PyDict) : string :=
  default "unknown_project_name" (dict_get metadata "project_name").

(** [project_counts[project_name] += 1] on a [defaultdict(int)]: the
    count of a present key is updated in place, a new key is appended
    with count 1. *)
Fixpoint dict_incr (k : string) (d : list (string * nat)) : list (string * nat) :=
  match d with
  | [] => [(k, 1)]
  | (k', n) :: d' => if decide (k' = k) then (k', S n) :: d' else (k', n) :: dict_incr k d'
  end.

(** The loop of lines 53-55; [None] for the [AttributeError] of a
    record without metadata. *)
Fixpoint count_loop (metadatas : list (option PyDict)) (project_counts : list (string * nat))
    : option (list (string * nat)) :=
  match metadatas with
  | [] => Some project_counts
  | None :: _ => None
  | Some metadata :: rest => count_loop rest (dict_incr (project_name_of metadata) project_counts)
  end.

(** The order of [sorted] on the items: tuples compared
    lexicographically. *)
Definition item_le (x y : string * nat) : Prop :=
  String.le x.1 y.1 ∧ (x.1 = y.1 → x.2 ≤ y.2).

#[export] Instance item_le_dec : RelDecision item_le.
Proof. intros x y. unfold item_le. apply _. Defined.

Definition sorted_projects (project_counts : list (string * nat)) : list (string * nat) :=
  merge_sort item_le project_counts.

Definition get_chromadb_stats (empty_get_raises : bool) (srv : Server) : StatsOutcome :=
  if negb (srv_up srv) then StatsError
  else
    match srv_collections srv !! CHROMADB_COLLECTION_NAME with
    | None => NoCollection
    | Some metadatas =>
        match metadatas with
        | [] => if empty_get_raises then StatsError else NoItems
        | _ =>
            match count_loop metadatas [] with
            | None => StatsError
            | Some project_counts =>
                Statistics (length metadatas) (length project_counts)
                  (sorted_projects project_counts)
            end
        end
    end.

(** [clear_collection]: [true] when the collection was deleted;
    [delete_collection] raises on a missing collection. *)
Definition clear_collection (srv : Server) : Server * bool :=
  if negb (srv_up srv) then (srv, false)
  else
    match srv_collections srv !! CHROMADB_COLLECTION_NAME with
    | None => (srv, false)
    | Some _ => (mkServer (srv_up srv) (delete CHROMADB_COLLECTION_NAME (srv_collections srv)), true)
    end.

(** The metadata dict the indexer writes (lines 225-231). *)
Definition metadata_dict (md : Metadata) : PyDict :=
  [("file_path", md_file_path md); ("project_name", md_project_name md);
   ("language", md_language md); ("chunk_id", md_chunk_id md);
   ("last_accessed_timestamp", md_last_accessed_timestamp md)].

(** The number of records of a project. *)
Definition project_count (p : string) (metadatas : list PyDict) : nat :=
  length (filter (λ md, project_name_of md = p) metadatas).

(** A server with three records of two projects, and a fourth record
    with no [project_name]. *)
Definition demo_record (project id : string) : VectorRecord :=
  mkVectorRecord id [1%Z] "text"
    (mkMetadata ("/proj/" +:+ project +:+ "/a.py") project "python" "0" "2026-01-01T00:00:00").

Definition demo_stats_records : list VectorRecord :=
  [demo_record "beta" "b_0"; demo_record "alpha" "a_0"; demo_record "beta" "b_1"].

Definition demo_metadatas : list PyDict :=
  (metadata_dict ∘ vr_metadata <$> demo_stats_records) ++ [[("file_path", "/other.txt")]].

Definition demo_server : Server :=
  mkServer true {[ CHROMADB_COLLECTION_NAME := Some <$> demo_metadatas ]}.

(** ** The counting loop *)

Lemma project_count_cons p md mds :
  project_count p (md :: mds) =
  (if decide (project_name_of md = p) then 1 else 0) + project_count p mds.
Proof. unfold project_count. rewrite filter_cons. by case_decide. Qed.

Lemma dict_get_incr k q d :
  dict_get (dict_incr k d) q =
  if decide (k = q) then Some (S (default 0 (dict_get d k))) else dict_get d q.
Proof.
  induction d as [|[k' n] d IH]; cbn; [by case_decide|].
  destruct (decide (k' = k)) as [->|Hne]; cbn.
  - repeat case_decide; subst; cbn; congruence.
  - rewrite IH. repeat case_decide; subst; congruence.
Qed.

Lemma keys_incr k d :
  fst <$> dict_incr k d = (fst <$> d) ++ (if decide (k ∈ fst <$> d) then [] else [k]).
Proof.
  induction d as [|[k' n] d IH]; cbn; [by case_decide; set_solver|].
  destruct (decide (k' = k)) as [->|Hk]; cbn.
  - destruct (decide (k ∈ k :: d.*1)) as [_|Hin]; [by rewrite app_nil_r|].
    exfalso. apply Hin. by left.
  - rewrite IH. f_equal. repeat case_decide; set_solver.
Qed.

Lemma dict_incr_nodup k d : NoDup (fst <$> d) → NoDup (fst <$> dict_incr k d).
Proof.
  intros Hd. rewrite keys_incr. case_decide; [by rewrite app_nil_r|].
  apply NoDup_app. split_and!; [done|set_solver|apply NoDup_singleton].
Qed.

(** Over the items of a dict with distinct keys, membership is [get]. *)
Lemma elem_dict_get (d : list (string * nat)) k v :
  NoDup (fst <$> d) → (k, v) ∈ d ↔ dict_get d k = Some v.
Proof.
  induction d as [|[k' v'] d IH]; intros Hd; cbn; [split; [set_solver|done]|].
  apply NoDup_cons in Hd as [Hk' Hd]. rewrite elem_of_cons.
  destruct (decide (k' = k)) as [->|Hne].
  - split; [|intros [= ->]; by left].
    intros [[= ->]|Hin]; [done|]. exfalso. apply Hk'. by apply (list_elem_of_fmap_2 fst) in Hin.
  - rewrite <- IH by done. naive_solver.
Qed.

(** The loop on metadatas that are all dicts, and on metadatas with a
    missing one. *)
Definition project_counts (metadatas : list PyDict) : list (string * nat) :=
  foldl (λ d md, dict_incr (project_name_of md) d) [] metadatas.

Lemma count_loop_some mds d :
  count_loop (Some <$> mds) d = Some (foldl (λ d md, dict_incr (project_name_of md) d) d mds).
Proof. revert d. induction mds as [|md mds IH]; intros d; [done|]. apply IH. Qed.

Lemma count_loop_none items d : None ∈ items → count_loop items d = None.
Proof.
  revert d. induction items as [|[md|] items IH]; intros d Hin; [set_solver| |done].
  cbn. apply IH. apply elem_of_cons in Hin as [Hin|Hin]; [done|done].
Qed.

Lemma items_cases (items : list (option PyDict)) : (∃ mds, items = Some <$> mds) ∨ None ∈ items.
Proof.
  induction items as [|[md|] items [[mds ->]|IH]].
  - left. by exists [].
  - left. by exists (md :: mds).
  - right. by right.
  - right. by left.
  - right. by left.
Qed.

Lemma project_counts_foldl mds d p :
  dict_get (foldl (λ d md, dict_incr (project_name_of md) d) d mds) p =
  match dict_get d p with
  | Some k => Some (k + project_count p mds)
  | None => if decide (project_count p mds = 0) then None else Some (project_count p mds)
  end.
Proof.
  revert d. induction mds as [|md mds IH]; intros d; cbn [foldl].
  - by destruct (dict_get d p); [rewrite Nat.add_0_r|].
  - rewrite IH, project_count_cons, dict_get_incr.
    destruct (decide (project_name_of md = p)) as [<-|Hne].
    + destruct (dict_get d (project_name_of md)); cbn; [f_equal; lia|].
      by rewrite decide_False by lia.
    + done.
Qed.

(** [project_counts] maps each project to its number of records. *)
Lemma project_counts_get mds p :
  dict_get (project_counts mds) p =
  if decide (project_count p mds = 0) then None else Some (project_count p mds).
Proof. unfold project_counts. by rewrite project_counts_foldl. Qed.

Lemma project_counts_nodup mds : NoDup (fst <$> project_counts mds).
Proof.
  unfold project_counts. cut (∀ d, NoDup (fst <$> d) →
    NoDup (fst <$> foldl (λ d md, dict_incr (project_name_of md) d) d mds)).
  { intros H. apply H. constructor. }
  induction mds as [|md mds IH]; intros d Hd; [done|]. apply IH, dict_incr_nodup, Hd.
Qed.

(** ** The sorted items *)

#[export] Instance item_le_total : Total item_le.
Proof.
  intros [x n] [y k]. unfold item_le; cbn.
  destruct (decide (x = y)) as [->|Hne].
  - destruct (Nat.le_ge_cases n k); [left|right]; split; [reflexivity|done|reflexivity|done].
  - destruct (total String.le x y); [left|right]; split; naive_solver.
Qed.

#[export] Instance item_le_trans : Transitive item_le.
Proof.
  intros [x n] [y k] [z l] [Hxy Hn] [Hyz Hk]; unfold item_le; cbn in *. split; [by trans y|].
  intros Hxz. subst z. assert (x = y) as <- by (by apply (anti_symm String.le)).
  specialize (Hn eq_refl). specialize (Hk eq_refl). lia.
Qed.

#[export] Instance item_le_antisymm : AntiSymm (=) item_le.
Proof.
  intros [x n] [y k] [Hxy Hn] [Hyx Hk]; cbn in *.
  assert (x = y) as <- by (by apply (anti_symm String.le)).
  specialize (Hn eq_refl). specialize (Hk eq_refl). f_equal. lia.
Qed.

Lemma sorted_projects_elem counts q n :
  NoDup (fst <$> counts) → (q, n) ∈ sorted_projects counts ↔ dict_get counts q = Some n.
Proof. intros Hd. unfold sorted_projects. by rewrite merge_sort_Permutation, elem_dict_get. Qed.

Lemma sorted_projects_nodup counts :
  NoDup (fst <$> counts) → NoDup (fst <$> sorted_projects counts).
Proof. unfold sorted_projects. by rewrite merge_sort_Permutation. Qed.

Lemma sorted_projects_sorted counts : Sorted item_le (sorted_projects counts).
Proof. apply Sorted_merge_sort, _. Qed.

Lemma length_sorted_projects counts : length (sorted_projects counts) = length counts.
Proof. unfold sorted_projects. by rewrite merge_sort_Permutation. Qed.

(** Two dicts with distinct keys and the same [get] hold the same
    items, in some order. *)
Lemma dict_get_perm (d1 d2 : list (string * nat)) :
  NoDup (fst <$> d1) → NoDup (fst <$> d2) → (∀ k, dict_get d1 k = dict_get d2 k) → d1 ≡ₚ d2.
Proof.
  intros H1 H2 Hg. apply NoDup_Permutation; [by eapply NoDup_fmap_1|by eapply NoDup_fmap_1|].
  intros [k v]. by rewrite !elem_dict_get, Hg.
Qed.

(** [sorted] of a dict's items does not depend on their order. *)
Lemma sorted_projects_perm d1 d2 : d1 ≡ₚ d2 → sorted_projects d1 = sorted_projects d2.
Proof.
  intros Hp. unfold sorted_projects. apply (Sorted_unique item_le); [apply Sorted_merge_sort, _..|].
  by rewrite !merge_sort_Permutation.
Qed.

Lemma project_count_perm p mds1 mds2 :
  mds1 ≡ₚ mds2 → project_count p mds1 = project_count p mds2.
Proof. intros Hp. unfold project_count. by rewrite Hp. Qed.

Lemma project_counts_perm mds1 mds2 :
  mds1 ≡ₚ mds2 → project_counts mds1 ≡ₚ project_counts mds2.
Proof.
  intros Hp. apply dict_get_perm; [apply project_counts_nodup..|]. intros p.
  by rewrite !project_counts_get, (project_count_perm p mds1 mds2).
Qed.

(** ** Sums of counts *)

Lemma sum_list_fmap_add {A} (f g : A → nat) l :
  sum_list ((λ x, f x + g x) <$> l) = sum_list (f <$> l) + sum_list (g <$> l).
Proof. induction l as [|x l IH]; cbn; [done|]. rewrite IH. lia. Qed.

(** Over distinct names, the indicator of [q] sums to one when [q] is
    among them and to zero otherwise. *)
Lemma sum_indicator (ns : list string) q :
  NoDup ns →
  sum_list ((λ p, if decide (q = p) then 1 else 0) <$> ns) = if decide (q ∈ ns) then 1 else 0.
Proof.
  induction 1 as [|p ns Hp _ IH]; [done|]. cbn. rewrite IH.
  destruct (decide (q = p)) as [->|Hne];
    repeat case_decide; set_solver.
Qed.

(** The counts of distinct names that cover all records sum to the
    number of records. *)
Lemma sum_project_counts (ns : list string) mds :
  NoDup ns → (∀ md, md ∈ mds → project_name_of md ∈ ns) →
  sum_list ((λ p, project_count p mds) <$> ns) = length mds.
Proof.
  intros Hnd. induction mds as [|md mds IH]; intros Hcov.
  - clear Hcov. induction ns as [|p ns IHns]; [done|].
    apply NoDup_cons in Hnd as [_ Hnd]. cbn [fmap list_fmap sum_list]. by rewrite IHns.
  - erewrite list_fmap_ext; [|intros i p _; apply project_count_cons].
    rewrite sum_list_fmap_add, sum_indicator, IH by (done || set_solver).
    rewrite decide_True by set_solver. cbn. lia.
Qed.

Lemma sorted_projects_counts mds :
  Forall (λ x, x.2 = project_count x.1 mds) (sorted_projects (project_counts mds)).
Proof.
  apply Forall_forall. intros [q n] Hq.
  apply sorted_projects_elem in Hq; [|apply project_counts_nodup].
  rewrite project_counts_get in Hq. case_decide; simplify_eq/=. done.
Qed.

Lemma sorted_projects_cover mds md :
  md ∈ mds → project_name_of md ∈ fst <$> sorted_projects (project_counts mds).
Proof.
  intros Hmd. apply list_elem_of_fmap.
  exists (project_name_of md, project_count (project_name_of md) mds). split; [done|].
  apply sorted_projects_elem; [apply project_counts_nodup|].
  rewrite project_counts_get, decide_False; [done|].
  unfold project_count. rewrite length_zero_iff_nil. intros Hnil.
  eapply filter_nil_not_elem_of; [exact Hnil| |exact Hmd]. done.
Qed.

Lemma sum_sorted_projects mds :
  sum_list (snd <$> sorted_projects (project_counts mds)) = length mds.
Proof.
  rewrite <- (sum_project_counts (fst <$> sorted_projects (project_counts mds)) mds)
    by auto using sorted_projects_nodup, project_counts_nodup, sorted_projects_cover.
  f_equal. rewrite <- list_fmap_compose. apply list_fmap_ext. intros i x Hx.
  pose proof (sorted_projects_counts mds) as Hc. rewrite Forall_lookup in Hc.
  by apply Hc in Hx.
Qed.

Lemma fmap_Some_perm (l1 l2 : list PyDict) : Some <$> l1 ≡ₚ Some <$> l2 → l1 ≡ₚ l2.
Proof.
  intros Hp. assert (Hd : ∀ l : list PyDict, default [] <$> (Some <$> l) = l)
    by (induction l as [|x l IH]; cbn; [done|by rewrite IH]).
  rewrite <- (Hd l1), <- (Hd l2). by rewrite Hp.
Qed.

(** ** Properties *)

(** C28: [stats.py] prints the right statistics.  On a reachable server
    whose collection holds records, each with its metadata, it reports
    as total the number of records, and one line per project (the
    [project_name] of the metadata, ['unknown_project_name'] when it is
    missing), sorted by name, with no project twice, each with the
    number of records carrying that project name; the number of
    projects is the number of lines and the counts add up to the
    total.  This holds whatever [get(ids=[])] does. *)
Theorem stats_report b (srv : Server) mds :
  srv_up srv = true → srv_collections srv !! CHROMADB_COLLECTION_NAME = Some (Some <$> mds) →
  mds ≠ [] →
  ∃ projects,
    get_chromadb_stats b srv = Statistics (length mds) (length projects) projects ∧
    (∀ q n, (q, n) ∈ projects ↔ n = project_count q mds ∧ n ≠ 0) ∧
    NoDup (fst <$> projects) ∧ Sorted item_le projects ∧
    sum_list (snd <$> projects) = length mds.
Proof.
  intros Hup Hc Hne. unfold get_chromadb_stats. rewrite Hup, Hc. cbn.
  destruct mds as [|md mds']; [done|]. cbn [fmap list_fmap].
  change (Some md :: (Some <$> mds')) with (Some <$> (md :: mds')).
  rewrite count_loop_some. fold (project_counts (md :: mds')).
  eexists. split_and!; [by rewrite length_sorted_projects, length_fmap| |
    by apply sorted_projects_nodup, project_counts_nodup
    |apply sorted_projects_sorted|apply sum_sorted_projects].
  intros q n. rewrite sorted_projects_elem, project_counts_get by apply project_counts_nodup.
  case_decide; split; intros; naive_solver.
Qed.

(** C29: the report does not depend on the order in which the server
    returns the records: two collections holding the same metadatas in
    any order give the same report.  The counts are collected in the
    order of the records (a dict keeps insertion order); it is
    [sorted] that makes the printed order independent of it. *)
Theorem stats_order_independent b up (cs : gmap string (list (option PyDict))) items1 items2 :
  items1 ≡ₚ items2 →
  get_chromadb_stats b (mkServer up (<[CHROMADB_COLLECTION_NAME := items1]> cs)) =
  get_chromadb_stats b (mkServer up (<[CHROMADB_COLLECTION_NAME := items2]> cs)).
Proof.
  intros Hp. unfold get_chromadb_stats. cbn. destruct up; [|done]. cbn.
  rewrite !lookup_insert_eq.
  destruct items1 as [|i1 is1] eqn:E1, items2 as [|i2 is2] eqn:E2;
    [done|by apply Permutation_nil_cons in Hp|symmetry in Hp; by apply Permutation_nil_cons in Hp|].
  rewrite <- E1, <- E2 in Hp |- *. clear E1 E2.
  destruct (items_cases items1) as [[mds1 ->]|Hn1].
  - destruct (items_cases items2) as [[mds2 ->]|Hn2].
    + apply fmap_Some_perm in Hp as Hm.
      rewrite !count_loop_some. fold (project_counts mds1) (project_counts mds2).
      by rewrite (Permutation_length Hp), (sorted_projects_perm _ _ (project_counts_perm _ _ Hm)),
        (Permutation_length (project_counts_perm _ _ Hm)).
    + exfalso. rewrite <- Hp in Hn2. by apply list_elem_of_fmap in Hn2 as (? & ? & _).
  - assert (Hn2 : None ∈ items2) by (by rewrite <- Hp).
    by rewrite (count_loop_none items1), (count_loop_none items2).
Qed.

(** After [clear.py] has deleted the collection, [stats.py] reports
    that there is no collection; when there was none, the deletion
    fails and the server is unchanged. *)
Lemma clear_then_stats b (srv : Server) :
  srv_up srv = true →
  get_chromadb_stats b (clear_collection srv).1 = NoCollection ∧
  ((clear_collection srv).2 = false → (clear_collection srv).1 = srv).
Proof.
  intros Hup. unfold clear_collection, get_chromadb_stats. rewrite Hup. cbn.
  destruct (srv_collections srv !! CHROMADB_COLLECTION_NAME) eqn:Hc; cbn.
  - rewrite ?Hup, lookup_delete_eq. split; [done|discriminate].
  - by rewrite ?Hup, Hc.
Qed.

Section Clear.
Context `{CollectionLaws C}.
Context (cfg : Config) (cwd : string).

(** C16: [clear.py] drops the collection but leaves the ledger file of
    [ingest.py].  Take any indexer whose ledger file [m] tracks every
    file of the walk that passes the filters with its current
    fingerprint (as a run of the indexer on an unchanged disk leaves
    it).  After [clear.py] has deleted the collection, the restarted
    indexer ([get_or_create_collection] then gives an empty collection)
    scans the unchanged files and skips them all: it ends with the
    ledger [m] and the empty collection, without a store call.  Every
    path of the ledger then has no record, contrary to the spec's
    data-model invariant (a ledger entry exists iff the path has
    records, section 3). *)
Theorem clear_leaves_ledger b (srv : Server) (s1 : Sys C) m (c0 : C) disk :
  srv_up srv = true → is_Some (srv_collections srv !! CHROMADB_COLLECTION_NAME) →
  sys_saved s1 = Some m → coll_records c0 = [] →
  (∀ p, p ∈ files_to_scan cfg disk → extension_included cfg p = true →
     path_excluded cfg p = false → ∃ fi, sys_fs s1 !! p = Some fi ∧ m !! p = Some (fingerprint fi)) →
  let srv' := (clear_collection srv).1 in
  (clear_collection srv).2 = true ∧ srv_collections srv' !! CHROMADB_COLLECTION_NAME = None ∧
  get_chromadb_stats b srv' = NoCollection ∧
  let s2 := st_exec (initial_ingestion cfg cwd (mkInitEnv C true true c0 true) disk) (restart s1) in
  sys_state s2 = m ∧ sys_collection s2 = Some c0 ∧ sys_calls s2 = sys_calls s1.
Proof.
  intros Hup [col Hcol] Hsaved Hc0 Hfiles. cbn zeta.
  assert (Hclear : clear_collection srv =
            (mkServer true (delete CHROMADB_COLLECTION_NAME (srv_collections srv)), true))
    by (unfold clear_collection; by rewrite Hup, Hcol).
  rewrite Hclear. cbn [fst snd srv_collections]. rewrite lookup_delete_eq.
  split_and!; [done|done|by unfold get_chromadb_stats; cbn; rewrite lookup_delete_eq|..];
    rewrite initial_ingestion_ok by done;
    destruct (initialize_loaded (mkInitEnv C true true c0 true) (restart s1) eq_refl eq_refl)
      as [Hc Hst];
    destruct (initialize_fs_calls (mkInitEnv C true true c0 true) (restart s1)) as [Hfs Hcalls];
    cbn [restart sys_saved sys_fs sys_calls env_server_collection env_ledger_ok] in Hc, Hst, Hfs, Hcalls;
    rewrite Hsaved in Hst;
    (rewrite scan_files_unchanged;
     [|intros p Hp He Hx; destruct (Hfiles p Hp He Hx) as (fi & Hfi & Hm);
       exists fi; by rewrite Hfs, Hst]);
    unfold save_result; destruct (sys_disk_ok _); cbn; done.
Qed.
End Clear.

(** ** Witnesses *)

Lemma stats_report_witness :
  srv_up demo_server = true ∧
  srv_collections demo_server !! CHROMADB_COLLECTION_NAME = Some (Some <$> demo_metadatas) ∧
  demo_metadatas ≠ [] ∧
  get_chromadb_stats false demo_server =
    Statistics 4 3 [("alpha", 1%nat); ("beta", 2%nat); ("unknown_project_name", 1%nat)] ∧
  ∃ projects,
    get_chromadb_stats false demo_server =
      Statistics (length demo_metadatas) (length projects) projects ∧
    (∀ q n, (q, n) ∈ projects ↔ n = project_count q demo_metadatas ∧ n ≠ 0) ∧
    NoDup (fst <$> projects) ∧ Sorted item_le projects ∧
    sum_list (snd <$> projects) = length demo_metadatas.
Proof.
  assert (Hc : srv_collections demo_server !! CHROMADB_COLLECTION_NAME =
               Some (Some <$> demo_metadatas)) by reflexivity.
  assert (Hne : demo_metadatas ≠ []) by discriminate.
  split; [reflexivity|]. split; [exact Hc|]. split; [exact Hne|].
  split; [vm_compute; reflexivity|]. exact (stats_report false demo_server _ eq_refl Hc Hne).
Defined.

Lemma stats_order_independent_witness :
  Some <$> demo_metadatas ≡ₚ reverse (Some <$> demo_metadatas) ∧
  get_chromadb_stats true (mkServer true (<[CHROMADB_COLLECTION_NAME := Some <$> demo_metadatas]> ∅)) =
  get_chromadb_stats true
    (mkServer true (<[CHROMADB_COLLECTION_NAME := reverse (Some <$> demo_metadatas)]> ∅)).
Proof.
  assert (Hp : Some <$> demo_metadatas ≡ₚ reverse (Some <$> demo_metadatas))
    by (symmetry; apply reverse_Permutation).
  split; [exact Hp|]. exact (stats_order_independent true true ∅ _ _ Hp).
Defined.

Lemma clear_leaves_ledger_witness :
  let s1 := st_exec (initial_ingestion demo_cfg "/" (mkInitEnv _ true true [] true) demo_disk)
              demo_fresh in
  let m := default ∅ (sys_saved s1) in
  let srv := mkServer true {[ CHROMADB_COLLECTION_NAME :=
               (λ r, Some (metadata_dict (vr_metadata r))) <$> default [] (sys_collection s1) ]} in
  srv_up srv = true ∧ is_Some (srv_collections srv !! CHROMADB_COLLECTION_NAME) ∧
  sys_saved s1 = Some m ∧ coll_records ([] : list VectorRecord) = [] ∧
  (∀ p, p ∈ files_to_scan demo_cfg demo_disk → extension_included demo_cfg p = true →
     path_excluded demo_cfg p = false → ∃ fi, sys_fs s1 !! p = Some fi ∧ m !! p = Some (fingerprint fi)) ∧
  is_Some (m !! demo_path) ∧
  let srv' := (clear_collection srv).1 in
  (clear_collection srv).2 = true ∧ srv_collections srv' !! CHROMADB_COLLECTION_NAME = None ∧
  get_chromadb_stats false srv' = NoCollection ∧
  let s2 := st_exec (initial_ingestion demo_cfg "/" (mkInitEnv _ true true [] true) demo_disk)
              (restart s1) in
  sys_state s2 = m ∧ sys_collection s2 = Some [] ∧ sys_calls s2 = sys_calls s1.
Proof.
  cbn zeta.
  set (s1 := st_exec (initial_ingestion demo_cfg "/" (mkInitEnv _ true true [] true) demo_disk)
               demo_fresh).
  set (srv := mkServer true {[ CHROMADB_COLLECTION_NAME :=
               (λ r, Some (metadata_dict (vr_metadata r))) <$> default [] (sys_collection s1) ]}).
  assert (Hs : is_Some (srv_collections srv !! CHROMADB_COLLECTION_NAME))
    by (eexists; reflexivity).
  assert (Hsv : sys_saved s1 = Some (default ∅ (sys_saved s1))) by (vm_compute; reflexivity).
  assert (Hf : ∀ p, p ∈ files_to_scan demo_cfg demo_disk → extension_included demo_cfg p = true →
     path_excluded demo_cfg p = false →
     ∃ fi, sys_fs s1 !! p = Some fi ∧ default ∅ (sys_saved s1) !! p = Some (fingerprint fi)).
  { intros p Hp _ _.
    assert (Hl : files_to_scan demo_cfg demo_disk = [demo_path; "/proj/alpha/src/util.py"])
      by (vm_compute; reflexivity).
    rewrite Hl in Hp. apply elem_of_cons in Hp as [->|Hp].
    - exists (demo_file 1 "some text here"). split; vm_compute; reflexivity.
    - apply elem_of_cons in Hp as [->|Hp]; [|exfalso; by eapply elem_of_nil].
      exists (demo_file 1 "more text"). split; vm_compute; reflexivity. }
  assert (Hm : is_Some (default ∅ (sys_saved s1) !! demo_path)) by (vm_compute; eexists; reflexivity).
  assert (Hc0 : coll_records ([] : list VectorRecord) = []) by reflexivity.
  destruct (clear_leaves_ledger demo_cfg "/" false srv s1 _ [] demo_disk eq_refl Hs Hsv Hc0 Hf)
    as (H1 & H2 & H3 & H4 & H5 & H6).
  split_and!; [reflexivity|exact Hs|exact Hsv|reflexivity|exact Hf|exact Hm
    |exact H1|exact H2|exact H3|exact H4|exact H5|exact H6].
Defined.
